(** * TPCreator (mqe/tpcreator.py): a shallow embedding and its properties

    Python values are embedded as follows.
    - [str] is [string]; comparison of two [str] is the byte-wise
      lexicographic order [String.le].
    - a [list] is a [list]; a [dict] is a [gmap]; a [set] is a [gset].
    - code that can raise is embedded in a small state-and-exception monad
      (see [Module Py]); mutation of the layout and of the tile store is
      explicit state passing. *)

From stdpp Require Import gmap strings list sorting.
From Stdlib Require Import ZArith Ascii.

Local Open Scope Z_scope.

(** ** Python built-ins used by the module *)

Module PyStr.

(** [c in s] for a one-character [c]. *)
Fixpoint contains_char (c : ascii) (s : string) : bool :=
  match s with
  | EmptyString => false
  | String a s' => if decide (a = c) then true else contains_char c s'
  end.

(** [s.split(c, 1)[0]]: the part of [s] before the first [c], the whole
    of [s] when [c] does not occur. *)
Fixpoint split_head (c : ascii) (s : string) : string :=
  match s with
  | EmptyString => EmptyString
  | String a s' => if decide (a = c) then EmptyString else String a (split_head c s')
  end.

(** [s.startswith(p)]. *)
Definition startswith (s p : string) : bool := String.prefix p s.

(** [p in s] (substring test). *)
Fixpoint contains (p s : string) : bool :=
  if String.prefix p s then true
  else match s with
       | EmptyString => false
       | String _ s' => contains p s'
       end.

Fixpoint drop (n : nat) (s : string) : string :=
  match n, s with
  | O, _ => s
  | S n', String _ s' => drop n' s'
  | S _, EmptyString => EmptyString
  end.

(** [s.replace(old, new)] for a non-empty [old]: occurrences are
    replaced from left to right, without overlap.  [fuel] bounds the
    number of characters still to be scanned. *)
Fixpoint replace_go (fuel : nat) (old new s : string) : string :=
  match fuel with
  | O => s
  | S fuel' =>
      match s with
      | EmptyString => EmptyString
      | String a s' =>
          if String.prefix old s
          then new +:+ replace_go fuel' old new (drop (String.length old) s)
          else String a (replace_go fuel' old new s')
      end
  end.

(** [s.replace('', new)]: [new] is put before every character and at
    the end. *)
Fixpoint intersperse (new s : string) : string :=
  match s with
  | EmptyString => new
  | String a s' => new +:+ String a (intersperse new s')
  end.

Definition replace (s old new : string) : string :=
  match old with
  | EmptyString => intersperse new s
  | String _ _ => replace_go (String.length s) old new s
  end.

Fixpoint lstrip (s : string) : string :=
  match s with
  | EmptyString => EmptyString
  | String a s' => if Ascii.is_space a then lstrip s' else s
  end.

(** [s.strip()]. *)
Definition strip (s : string) : string :=
  String.rev (lstrip (String.rev (lstrip s))).

End PyStr.

(** A stable sort; [R x y] reads "x sorts no later than y".  It stands
    for [list.sort()] and [sorted()]. *)
Section stable_sort.
Context {A : Type} (R : relation A) `{!RelDecision R}.

Fixpoint sort_insert (x : A) (l : list A) : list A :=
  match l with
  | [] => [x]
  | y :: l' => if decide (R x y) then x :: y :: l' else y :: sort_insert x l'
  end.

Definition list_sort (l : list A) : list A := foldr sort_insert [] l.
End stable_sort.

(** [sorted(l)] and [l.sort()] on a list of [str]. *)
Definition sorted_str (l : list string) : list string := list_sort String.le l.

(** [l.sort(key=lambda p: len(p))]. *)
Definition len_le (p q : string) : Prop := (String.length p ≤ String.length q)%nat.

Global Instance len_le_dec : RelDecision len_le.
Proof. intros p q. unfold len_le. apply _. Defined.

Definition sort_by_len (l : list string) : list string := list_sort len_le l.

(** Modelled from the spec: [util.uniq_sameorder(seq, key)] of
    [mqe/util.py], which is not part of the sources at hand.  The spec
    describes its result as "deduplicated, preserving first-seen order"
    (4.1) and "deduplicated by their canonical ... identity, preserving
    first-seen order" (4.2): the list is scanned from the left with the
    keys seen so far, and an element is kept when its key is new. *)
Section uniq.
Context {A K : Type} `{EqDecision K} (key : A → K).

Fixpoint uniq_sameorder_go (seen : list K) (seq : list A) : list A :=
  match seq with
  | [] => []
  | x :: seq' =>
      if decide (key x ∈ seen) then uniq_sameorder_go seen seq'
      else x :: uniq_sameorder_go (key x :: seen) seq'
  end.

Definition uniq_sameorder_key (seq : list A) : list A := uniq_sameorder_go [] seq.
End uniq.

Definition uniq_sameorder {A : Type} `{EqDecision A} (seq : list A) : list A :=
  uniq_sameorder_key (λ x, x) seq.

(** ** Utilities: UISpec, MatchSpec, matching *)

Definition TPCREATOR_SEPARATOR : ascii := ":"%char.

Definition MAX_TPCREATE_TRIES : Z := 10.

(** An entry [{'tag': ..., 'prefix': ...}] of a [tpcreator_uispec]. *)
Record UispecEntry := mkUispecEntry { uis_tag : string; uis_prefix : string }.

(** A [tpcreator_spec], [{'full_tags': [...], 'prefixes': [...]}]. *)
Record TpcreatorSpec := mkTpcreatorSpec {
  full_tags : list string;
  prefixes : list string
}.

Global Instance UispecEntry_eq_dec : EqDecision UispecEntry.
Proof. solve_decision. Defined.
Global Instance TpcreatorSpec_eq_dec : EqDecision TpcreatorSpec.
Proof. solve_decision. Defined.

Definition _tpcreator_prefix (tag : string) : string :=
  PyStr.split_head TPCREATOR_SEPARATOR tag +:+ String TPCREATOR_SEPARATOR EmptyString.

Definition suggested_tpcreator_uispec (tags : list string) : list UispecEntry :=
  foldl (λ res tag,
           if PyStr.contains_char TPCREATOR_SEPARATOR tag
           then res ++ [mkUispecEntry tag (_tpcreator_prefix tag)]
           else res ++ [mkUispecEntry tag tag])
        [] tags.

Definition suggested_tpcreator_prefixes (tag : string) : list string :=
  let res := [] in
  let res := res ++ [EmptyString] in
  let res := if PyStr.contains_char TPCREATOR_SEPARATOR tag
             then res ++ [_tpcreator_prefix tag] else res in
  let res := res ++ [tag] in
  res.

Definition tpcreator_spec_from_tpcreator_uispec (tpcreator_uispec : list UispecEntry)
  : TpcreatorSpec :=
  let res :=
    {| full_tags :=
         uis_tag <$> filter (λ d, uis_tag d = uis_prefix d) tpcreator_uispec;
       prefixes :=
         uniq_sameorder
           (uis_prefix <$> filter (λ d, uis_tag d ≠ uis_prefix d) tpcreator_uispec) |} in
  {| full_tags := full_tags res; prefixes := sort_by_len (prefixes res) |}.

(** The first loop of [tags_matching_tpcreator_spec]; [None] is the early
    [return None]. *)
Fixpoint match_full_tags (fts tags res : list string) : option (list string) :=
  match fts with
  | [] => Some res
  | full_tag :: fts' =>
      if decide (full_tag ∈ tags) then match_full_tags fts' tags (res ++ [full_tag])
      else None
  end.

(** The inner loop over [tags] for one prefix: the extended [res] and the
    flag [prefix_matched]. *)
Definition match_one_prefix (prefix : string) (tags res : list string)
  : list string * bool :=
  foldl (λ '(res, prefix_matched) tag,
           if PyStr.startswith tag prefix then (res ++ [tag], true)
           else (res, prefix_matched))
        (res, false) tags.

Fixpoint match_prefixes (ps tags res : list string) : option (list string) :=
  match ps with
  | [] => Some res
  | prefix :: ps' =>
      let '(res', prefix_matched) := match_one_prefix prefix tags res in
      if prefix_matched then match_prefixes ps' tags res' else None
  end.

(** [tpcreator_spec] is [None] for a spec that is [None] or an empty
    dictionary (both are falsy); the result [None] is Python's [None]. *)
Definition tags_matching_tpcreator_spec
    (tpcreator_spec : option TpcreatorSpec) (tags : list string)
  : option (list string) :=
  match tpcreator_spec with
  | None => None
  | Some spec =>
      match tags with
      | [] => None
      | _ :: _ =>
          res ← match_full_tags (full_tags spec) tags [];
          res ← match_prefixes (prefixes spec) tags res;
          let res := uniq_sameorder res in
          let res := sorted_str res in
          Some res
      end
  end.

(** ** Exceptions, fallible results and stateful computations *)

Module Py.

Inductive exn :=
  | KeyError (key : string)
  | TypeError
  | AttributeError
  | AssertionError
  | LayoutModificationImpossible.

(** The outcome of an expression that may raise. *)
Definition result (A : Type) : Type := exn + A.

Definition rbind {A B : Type} (r : result A) (k : A → result B) : result B :=
  match r with
  | inl e => inl e
  | inr a => k a
  end.

(** A computation over a mutable state [S]: on an exception the state
    reached so far stays (Python does not roll objects back). *)
Definition M (S A : Type) : Type := S → result A * S.

Definition ret {S A : Type} (a : A) : M S A := λ s, (inr a, s).

Definition raise {S A : Type} (e : exn) : M S A := λ s, (inl e, s).

Definition bind {S A B : Type} (m : M S A) (k : A → M S B) : M S B :=
  λ s, match m s with
       | (inl e, s') => (inl e, s')
       | (inr a, s') => k a s'
       end.

Definition lift {S A : Type} (r : result A) : M S A := λ s, (r, s).

Definition gets {S A : Type} (f : S → A) : M S A := λ s, (inr (f s), s).

Definition modify {S : Type} (f : S → S) : M S unit := λ s, (inr (), f s).

(** Run, on the second component of a pair state, a computation over
    that component. *)
Definition on_snd {S1 S2 A : Type} (m : M S2 A) : M (S1 * S2) A :=
  λ '(s1, s2), let '(r, s2') := m s2 in (r, (s1, s2')).

Definition on_fst {S1 S2 A : Type} (m : M S1 A) : M (S1 * S2) A :=
  λ '(s1, s2), let '(r, s1') := m s1 in (r, (s1', s2)).

(** [for x in xs: body(x)]. *)
Fixpoint for_each {S A : Type} (xs : list A) (body : A → M S unit) : M S unit :=
  match xs with
  | [] => ret ()
  | x :: xs' => bind (body x) (λ _, for_each xs' body)
  end.

(** [[f(x) for x in xs]] with a body that may raise. *)
Fixpoint map_result {A B : Type} (f : A → result B) (xs : list A) : result (list B) :=
  match xs with
  | [] => inr []
  | x :: xs' => rbind (f x) (λ y, rbind (map_result f xs') (λ ys, inr (y :: ys)))
  end.

End Py.

Global Instance result_bind : MBind Py.result := λ A B k r, Py.rbind r k.
Global Instance result_ret : MRet Py.result := λ A a, inr a.
Global Instance M_bind {S : Type} : MBind (Py.M S) := λ A B k m, Py.bind m k.
Global Instance M_ret {S : Type} : MRet (Py.M S) := λ A a, Py.ret a.

(** ** Tiles, layouts and the collaborators of the module *)

(** Tile, dashboard, report, owner and layout ids are opaque identifiers. *)
Abbreviation TileId := positive (only parsing).

(** The series specs of [mqe/dataseries.py], which the module only moves
    around and compares through their canonical form. *)
Class SeriesSpecs := {
  SeriesSpec : Type;
  SeriesSpec_eq_dec :: EqDecision SeriesSpec;
  (** [dataseries.series_spec_for_default_options(ss)] *)
  series_spec_for_default_options : SeriesSpec → SeriesSpec
}.

Section model.
Context `{SeriesSpecs}.

(** The values found in a [tile_options] dictionary. *)
Inductive value :=
  | VNone
  | VBool (b : bool)
  | VInt (z : Z)
  | VStr (s : string)
  | VId (i : TileId)
  | VTags (l : list string)
  | VUispec (u : list UispecEntry)
  | VSpec (s : TpcreatorSpec)
  | VSeries (l : list SeriesSpec)
  | VDict (d : gmap string value).

(** Python truthiness. *)
Definition truthy (v : value) : bool :=
  match v with
  | VNone => false
  | VBool b => b
  | VInt z => bool_decide (z ≠ 0)
  | VStr s => bool_decide (s ≠ EmptyString)
  | VId _ => true
  | VTags l => bool_decide (l ≠ [])
  | VUispec u => bool_decide (u ≠ [])
  | VSpec _ => true
  | VSeries l => bool_decide (l ≠ [])
  | VDict d => bool_decide (d ≠ ∅)
  end.

(** [copy.deepcopy(v)]: values are immutable here and have no identity,
    so the copy is the value; no later update of one dictionary can
    reach another. *)
Definition deepcopy {A : Type} (v : A) : A := v.

(** [d[key]] *)
Definition getitem (d : gmap string value) (key : string) : Py.result value :=
  match d !! key with
  | Some v => inr v
  | None => inl (Py.KeyError key)
  end.

(** [d[k1][k2] = v] *)
Definition setitem2 (d : gmap string value) (k1 k2 : string) (v : value)
  : Py.result (gmap string value) :=
  match d !! k1 with
  | Some (VDict sub) => inr (<[k1 := VDict (<[k2 := v]> sub)]> d)
  | Some _ => inl Py.TypeError
  | None => inl (Py.KeyError k1)
  end.

(** A [tpcreator_spec] as a value; a missing spec is [None]. *)
Definition spec_value (tpcreator_spec : option TpcreatorSpec) : value :=
  match tpcreator_spec with
  | Some spec => VSpec spec
  | None => VNone
  end.

Record Tile := mkTile {
  dashboard_id : positive;
  tile_id : TileId;
  tile_options : gmap string value
}.

(** Modelled from the spec: the properties and methods of [Tile]
    ([mqe/tiles.py], not part of the sources at hand) that the module
    calls.  By the data model (3) a tile owns an owner id, a report id,
    a tag set and series specs, all found in its [tile_options]; it is
    a master iff [tpcreator_data] is absent and [tpcreator_uispec] is
    present. *)
Definition Tile_owner_id (t : Tile) : option value := tile_options t !! "owner_id".
Definition Tile_report_id (t : Tile) : option value := tile_options t !! "report_id".

Definition Tile_tags (t : Tile) : list string :=
  match tile_options t !! "tags" with
  | Some (VTags l) => l
  | _ => []
  end.

Definition series_specs (t : Tile) : list SeriesSpec :=
  match tile_options t !! "series_configs" with
  | Some (VSeries l) => l
  | _ => []
  end.

Definition is_master_tile (t : Tile) : bool :=
  bool_decide (tile_options t !! "tpcreator_data" = None) &&
  bool_decide (is_Some (tile_options t !! "tpcreator_uispec")).

(** [tpcreator_data.master_tile_id] of a tile, if any. *)
Definition master_tile_id_of (to : gmap string value) : option value :=
  match to !! "tpcreator_data" with
  | Some (VDict data) => data !! "master_tile_id"
  | _ => None
  end.

(** The [tile_config] argument of [Tile.insert]. *)
Record TileConfig := mkTileConfig {
  cfg_tw_type : value;
  cfg_tags : list string;
  cfg_series_spec_list : list SeriesSpec;
  cfg_tile_options : gmap string value
}.

Definition set_opt (key : string) (v : option value) (d : gmap string value)
  : gmap string value :=
  match v with
  | Some v => <[key := v]> d
  | None => d
  end.

(** Modelled from the spec: the [tile_options] of the tile that
    [Tile.insert(owner_id, report_id, dashboard_id, skip_db=True,
    tile_config=...)] of [mqe/tiles.py] builds without storing it.  By
    4.2 the options given under ['tile_options'] are taken over, as is
    [tw_type]; [tags] is set to the given tags and the series list is
    the given one; by 3 the tile owns the owner and report ids. *)
Definition Tile_insert_tile_options
    (owner_id report_id : option value) (tile_config : TileConfig)
  : gmap string value :=
  <["series_configs" := VSeries (cfg_series_spec_list tile_config)]>
    (<["tags" := VTags (cfg_tags tile_config)]>
       (<["tw_type" := cfg_tw_type tile_config]>
          (set_opt "report_id" report_id
             (set_opt "owner_id" owner_id (cfg_tile_options tile_config))))).

(** The tile table and the index rows of the storage layer. *)
Record LayoutRow := mkLayoutRow {
  row_owner_id : positive;
  row_report_id : positive;
  row_tags : list string;
  row_label : string;
  row_dashboard_id : positive;
  row_layout_id : positive
}.

Global Instance LayoutRow_eq_dec : EqDecision LayoutRow.
Proof. solve_decision. Defined.

Record World := mkWorld {
  tiles : list Tile;
  next_tile_id : TileId;
  layout_by_report : list LayoutRow
}.

(** Modelled from the spec: the tile store of 6 ([selectTile],
    [selectTilesMulti], [insertTileWithOptions] and its bulk variant),
    behind [Tile.select], [Tile.select_multi],
    [Tile.insert_with_tile_options] and
    [Tile.insert_with_tile_options_multi].  A new tile is a new row
    with an id not given out before. *)
Definition Tile_select (w : World) (dashboard : positive) (tid : TileId) : option Tile :=
  head (filter (λ t, dashboard_id t = dashboard ∧ tile_id t = tid) (tiles w)).

Definition Tile_select_multi (w : World) (dashboard : positive) (tids : list TileId)
  : gmap TileId Tile :=
  list_to_map (omap (λ tid, (λ t, (tid, t)) <$> Tile_select w dashboard tid) tids).

Definition insert_with_tile_options (dashboard : positive) (to : gmap string value)
  : Py.M World Tile :=
  λ w, let t := mkTile dashboard (next_tile_id w) to in
       (inr t, {| tiles := tiles w ++ [t];
                  next_tile_id := Pos.succ (next_tile_id w);
                  layout_by_report := layout_by_report w |}).

Fixpoint insert_with_tile_options_multi (dashboard : positive)
    (tos : list (gmap string value)) : Py.M World (list Tile) :=
  match tos with
  | [] => Py.ret []
  | to :: tos' =>
      t ← insert_with_tile_options dashboard to ;
      ts ← insert_with_tile_options_multi dashboard tos' ;
      Py.ret (t :: ts)
  end.

(** [c.dao.LayoutDAO.delete_layout_by_report(...)] *)
Definition delete_layout_by_report (row : LayoutRow) : Py.M World unit :=
  Py.modify (λ w, {| tiles := tiles w;
                     next_tile_id := next_tile_id w;
                     layout_by_report := filter (λ r, r ≠ row) (layout_by_report w) |}).

(** A placement ("visual options") of a tile in the layout. *)
Record VO := mkVO { vo_x : Z; vo_y : Z; vo_width : Z; vo_height : Z }.

(** The property snapshot that a layout keeps for a tile. *)
Record Props := mkProps {
  props_report_id : positive;
  props_is_master : bool;
  props_master_id : option TileId;
  props_tpcreator_spec : option TpcreatorSpec;
  props_tags : list string
}.

Record Layout := mkLayout {
  layout_id : positive;
  layout_dict : gmap TileId VO;
  layout_props : gmap TileId Props
}.

(** Modelled from the spec: the accessors of [layouts.Layout]
    ([mqe/layouts.py], not part of the sources at hand).  By 3 a layout
    resolves the property snapshot of a tile id; the tiles created from
    a master are those whose [master_id] is the master's id (4.5). *)
Definition get_tile_props (layout : Layout) (tid : TileId) : option Props :=
  layout_props layout !! tid.

Definition get_current_props_by_tile_id (layout : Layout) : gmap TileId Props :=
  layout_props layout.

Definition get_tpcreated_tile_ids (layout : Layout) (master_id : TileId) : list TileId :=
  (map_to_list (filter (λ '(_, props), props_master_id props = Some master_id)
                       (layout_props layout))).*1.

(** The mutation context that a mod works on. *)
Record LayoutMod := mkLayoutMod {
  lm_layout : Layout;
  lm_new_tiles : list Tile;
  lm_tile_replacement : list (Tile * Tile)
}.

(** The collaborators taken as they are: widget titles and the mods of
    [mqe/layouts.py]. *)
Class Collaborators := {
  (** [tile.tilewidget.generate_tile_title_postfix()] *)
  generate_tile_title_postfix : Tile → string;
  (** [layouts.place_tile_mod(tile, size_of=tile_id)] *)
  place_tile_mod : Tile → TileId → Py.M LayoutMod unit;
  (** [layouts.repack_mod()] *)
  repack_mod : Py.M LayoutMod unit;
  (** [layouts.pack_upwards_mod()] *)
  pack_upwards_mod : Py.M LayoutMod unit
}.

Context `{Collaborators}.

Record ReportInstance := mkReportInstance {
  ri_report_id : positive;
  ri_report_instance_id : positive;
  ri_all_tags : list string
}.

(** ** TPCreator handling *)

(** [tags_by[key].add(tags)] on a [defaultdict(set)]. *)
Definition add_tags (key : TileId) (tags : list string)
    (tags_by : gmap TileId (gset (list string))) : gmap TileId (gset (list string)) :=
  <[key := default ∅ (tags_by !! key) ∪ {[tags]}]> tags_by.

Definition _get_tpcreator_data (layout_mod : LayoutMod) (report_id : positive)
  : gmap TileId (option TpcreatorSpec) * gmap TileId (gset (list string)) :=
  foldl (λ '(tpcreator_spec_by_master_id, tpcreated_tags_by_master_id) '(tile_id, props),
           if decide (props_report_id props ≠ report_id)
           then (tpcreator_spec_by_master_id, tpcreated_tags_by_master_id)
           else if props_is_master props
           then (<[tile_id := props_tpcreator_spec props]> tpcreator_spec_by_master_id,
                 add_tags tile_id (sorted_str (props_tags props))
                          tpcreated_tags_by_master_id)
           else match props_master_id props with
                | None => (tpcreator_spec_by_master_id, tpcreated_tags_by_master_id)
                | Some master_id =>
                    (tpcreator_spec_by_master_id,
                     add_tags master_id (sorted_str (props_tags props))
                              tpcreated_tags_by_master_id)
                end)
        (∅, ∅)
        (map_to_list (get_current_props_by_tile_id (lm_layout layout_mod))).

Definition _unique_series_specs (ss_list : list SeriesSpec) : list SeriesSpec :=
  uniq_sameorder_key series_spec_for_default_options ss_list.

(** A [str] method called on a value. *)
Definition as_str (v : value) : Py.result string :=
  match v with
  | VStr s => inr s
  | _ => inl Py.AttributeError
  end.

(** [x in v] for a [str] [x]. *)
Definition py_in (x : string) (v : value) : Py.result bool :=
  match v with
  | VStr s => inr (PyStr.contains x s)
  | VTags l => inr (bool_decide (x ∈ l))
  | VDict d => inr (bool_decide (is_Some (d !! x)))
  | VSpec _ => inr (bool_decide (x ∈ ["full_tags"; "prefixes"]))
  | VUispec _ | VSeries _ => inr false
  | VNone | VBool _ | VInt _ | VId _ => inl Py.TypeError
  end.

(** The series specs that [_tile_options_of_tpcreated] gives the tile. *)
Definition series_specs_of_tpcreated (master_tile : Tile) (old_tpcreated : option Tile)
  : list SeriesSpec :=
  match old_tpcreated with
  | Some old_tpcreated =>
      _unique_series_specs (series_specs master_tile ++ series_specs old_tpcreated)
  | None => series_specs master_tile
  end.

Definition _tile_options_of_tpcreated
    (master_tile : Tile) (tpcreator_spec : option TpcreatorSpec)
    (tags : list string) (old_tpcreated : option Tile)
  : Py.result (gmap string value) :=
  let series_specs := series_specs_of_tpcreated master_tile old_tpcreated in
  tw_type ← getitem (tile_options master_tile) "tw_type" ;
  let partial_new_tile_options :=
    Tile_insert_tile_options (Tile_owner_id master_tile) (Tile_report_id master_tile)
      {| cfg_tw_type := tw_type;
         cfg_tags := tags;
         cfg_series_spec_list := series_specs;
         cfg_tile_options :=
           filter (λ '(k, _), k ∉ ["series_configs"; "tags"; "tile_title"])
                  (tile_options master_tile) |} in
  let new_tile_options := partial_new_tile_options in
  let new_tile_options :=
    if decide (new_tile_options !! "tpcreator_data" = None)
    then <["tpcreator_data" := VDict ∅]> new_tile_options
    else new_tile_options in
  new_tile_options ←
    match tile_options master_tile !! "tile_title" with
    | Some tile_title =>
        if truthy tile_title then
          let postfix := generate_tile_title_postfix master_tile in
          tile_title ←
            (if decide (postfix ≠ EmptyString)
             then s ← as_str tile_title ;
                  inr (VStr (PyStr.strip (PyStr.replace s postfix EmptyString)))
             else inr tile_title) ;
          setitem2 new_tile_options "tpcreator_data" "tile_title_base" tile_title
        else inr new_tile_options
    | None => inr new_tile_options
    end ;
  let new_tile_options := delete "tpcreator_uispec" new_tile_options in
  new_tile_options ←
    setitem2 new_tile_options "tpcreator_data" "master_tile_id"
             (VId (tile_id master_tile)) ;
  master_uispec ← getitem (tile_options master_tile) "tpcreator_uispec" ;
  new_tile_options ←
    setitem2 new_tile_options "tpcreator_data" "master_tpcreator_uispec"
             (deepcopy master_uispec) ;
  new_tile_options ←
    setitem2 new_tile_options "tpcreator_data" "master_tpcreator_spec"
             (spec_value tpcreator_spec) ;
  inr new_tile_options.

Definition _sync_tpcreator_data
    (master_tile tpcreated : Tile) (tpcreator_spec : option TpcreatorSpec)
  : Py.result (gmap string value) :=
  let new_tile_options := deepcopy (tile_options tpcreated) in
  let new_tile_options :=
    if decide (new_tile_options !! "tpcreator_data" = None)
    then <["tpcreator_data" := VDict ∅]> new_tile_options
    else new_tile_options in
  new_tile_options ←
    setitem2 new_tile_options "tpcreator_data" "master_tile_id"
             (VId (tile_id master_tile)) ;
  master_uispec ← getitem (tile_options master_tile) "tpcreator_uispec" ;
  new_tile_options ←
    setitem2 new_tile_options "tpcreator_data" "master_tpcreator_uispec"
             (deepcopy master_uispec) ;
  new_tile_options ←
    setitem2 new_tile_options "tpcreator_data" "master_tpcreator_spec"
             (spec_value tpcreator_spec) ;
  inr new_tile_options.

(** The body of the loop of [do_tpcreator_mod] for one master. *)
Definition tpcreator_mod_master
    (report_instance : ReportInstance) (layout_row : LayoutRow) (max_tpcreated : Z)
    (tpcreated_tags_by_master_id : gmap TileId (gset (list string)))
    (item : TileId * option TpcreatorSpec) : Py.M (World * LayoutMod) unit :=
  let '(master_id, tpcreator_spec) := item in
  let tpcreated_tags := default ∅ (tpcreated_tags_by_master_id !! master_id) in
  if decide (max_tpcreated ≤ Z.of_nat (size tpcreated_tags)) then Py.ret ()
  else
    let matching_tags :=
      tags_matching_tpcreator_spec tpcreator_spec (ri_all_tags report_instance) in
    match matching_tags with
    | None | Some [] => Py.ret ()
    | Some matching_tags =>
        if decide (matching_tags ∈ tpcreated_tags) then Py.ret ()
        else
          master_tile ←
            Py.gets (λ st, Tile_select st.1 (row_dashboard_id layout_row) master_id) ;
          match master_tile with
          | None => Py.ret ()
          | Some master_tile =>
              new_tile_options ←
                Py.lift (_tile_options_of_tpcreated
                           master_tile tpcreator_spec matching_tags None) ;
              new_tile ←
                Py.on_fst (insert_with_tile_options
                             (dashboard_id master_tile) new_tile_options) ;
              Py.on_snd (place_tile_mod new_tile (tile_id master_tile))
          end
    end.

Definition do_tpcreator_mod
    (report_instance : ReportInstance) (layout_row : LayoutRow) (max_tpcreated : Z)
  : Py.M (World * LayoutMod) unit :=
  data ← Py.gets (λ st, _get_tpcreator_data st.2 (ri_report_id report_instance)) ;
  let '(tpcreator_spec_by_master_id, tpcreated_tags_by_master_id) := data in
  if decide (tpcreator_spec_by_master_id = ∅)
  then Py.on_fst (delete_layout_by_report layout_row)
  else
    Py.for_each (map_to_list tpcreator_spec_by_master_id)
      (tpcreator_mod_master report_instance layout_row max_tpcreated
                            tpcreated_tags_by_master_id).

Definition tpcreator_mod := do_tpcreator_mod.

(** ** Other functions manipulating the master and tpcreated tiles *)

Definition replace_tpcreated
    (layout : Layout) (old_master new_master : Tile)
    (sync_tpcreated : bool) (skip_replacements : gset TileId)
  : Py.M World (list (Tile * Tile)) :=
  tpcreator_spec ←
    Py.lift (match get_tile_props layout (tile_id old_master) with
             | Some props => inr (props_tpcreator_spec props)
             | None => inl Py.TypeError
             end) ;
  let tpcreated_tile_id_list := get_tpcreated_tile_ids layout (tile_id old_master) in
  let tpcreated_tile_id_list :=
    if decide (skip_replacements ≠ ∅)
    then filter (λ tid, tid ∉ skip_replacements) tpcreated_tile_id_list
    else tpcreated_tile_id_list in
  tpcreated_tiles ←
    Py.gets (λ w, Tile_select_multi w (dashboard_id old_master) tpcreated_tile_id_list) ;
  let tpcreated_tiles_values := (map_to_list tpcreated_tiles).*2 in
  tpcreated_tiles_new_tos ←
    Py.lift (Py.map_result
               (λ tile,
                  if sync_tpcreated
                  then _tile_options_of_tpcreated
                         new_master tpcreator_spec (Tile_tags tile) (Some tile)
                  else _sync_tpcreator_data new_master tile tpcreator_spec)
               tpcreated_tiles_values) ;
  tpcreated_tiles_repl ←
    insert_with_tile_options_multi (dashboard_id old_master) tpcreated_tiles_new_tos ;
  Py.ret (zip tpcreated_tiles_values tpcreated_tiles_repl).

(** [del d[key]] *)
Definition delitem (d : gmap string value) (key : string)
  : Py.result (gmap string value) :=
  match d !! key with
  | Some _ => inr (delete key d)
  | None => inl (Py.KeyError key)
  end.

(** [d.get(key)] followed by a truth test. *)
Definition get_truthy (d : gmap string value) (key : string) : bool :=
  match d !! key with
  | Some v => truthy v
  | None => false
  end.

Definition make_master_from_tpcreated (old_master tpcreated : Tile) : Py.M World Tile :=
  if negb (is_master_tile old_master) then Py.raise Py.AssertionError
  else if is_master_tile tpcreated then Py.raise Py.AssertionError
  else
    new_master_to ←
      Py.lift
        (let new_master_to := deepcopy (tile_options tpcreated) in
         uispec ← getitem (tile_options old_master) "tpcreator_uispec" ;
         let new_master_to := <["tpcreator_uispec" := uispec]> new_master_to in
         new_master_to ← delitem new_master_to "tpcreator_data" ;
         _ ←
           (if get_truthy new_master_to "tile_title" then
              let postfix := generate_tile_title_postfix tpcreated in
              if decide (postfix ≠ EmptyString) then
                tile_title ← getitem new_master_to "tile_title" ;
                found ← py_in postfix tile_title ;
                if found : bool then
                  (* the value of the expression is dropped *)
                  s ← as_str tile_title ;
                  let _ := PyStr.strip (PyStr.replace s postfix EmptyString) in
                  inr ()
                else inr ()
              else inr ()
            else inr ()) ;
         let old_master_title := tile_options old_master !! "tile_title" in
         match old_master_title with
         | Some old_master_title =>
             if truthy old_master_title && negb (get_truthy new_master_to "tile_title")
             then
               let old_postfix := generate_tile_title_postfix old_master in
               found ← py_in old_postfix old_master_title ;
               old_master_title ←
                 (if found : bool then
                    let new_postfix := generate_tile_title_postfix tpcreated in
                    s ← as_str old_master_title ;
                    inr (VStr (PyStr.replace s old_postfix new_postfix))
                  else inr old_master_title) ;
               inr (<["tile_title" := old_master_title]> new_master_to)
             else inr new_master_to
         | None => inr new_master_to
         end) ;
    insert_with_tile_options (dashboard_id old_master) new_master_to.

(** Iterating a value as a [tpcreator_uispec]. *)
Definition as_uispec (v : value) : Py.result (list UispecEntry) :=
  match v with
  | VUispec u => inr u
  | VTags [] | VSeries [] => inr []
  | VDict d => if decide (d = ∅) then inr [] else inl Py.TypeError
  | _ => inl Py.TypeError
  end.

Definition make_tpcreated_from_master (old_master new_master : Tile) : Py.M World Tile :=
  if negb (is_master_tile old_master) then Py.raise Py.AssertionError
  else if negb (is_master_tile new_master) then Py.raise Py.AssertionError
  else
    to ←
      Py.lift
        (uispec_value ← getitem (tile_options new_master) "tpcreator_uispec" ;
         uispec ← as_uispec uispec_value ;
         let tpcreator_spec := tpcreator_spec_from_tpcreator_uispec uispec in
         _tile_options_of_tpcreated
           new_master (Some tpcreator_spec) (Tile_tags old_master) (Some old_master)) ;
    insert_with_tile_options (dashboard_id old_master) to.

(** [vo['width'] = w] and [vo['height'] = h] for the placement of a tile
    in [layout_mod.layout.layout_dict]. *)
Definition set_vo (f : VO → VO) (tid : TileId) : Py.M LayoutMod unit :=
  Py.modify (λ lm,
    {| lm_layout :=
         {| layout_id := layout_id (lm_layout lm);
            layout_dict := alter f tid (layout_dict (lm_layout lm));
            layout_props := layout_props (lm_layout lm) |};
       lm_new_tiles := lm_new_tiles lm;
       lm_tile_replacement := lm_tile_replacement lm |}).

Definition with_width (w : Z) (vo : VO) : VO :=
  {| vo_x := vo_x vo; vo_y := vo_y vo; vo_width := w; vo_height := vo_height vo |}.

Definition with_height (h : Z) (vo : VO) : VO :=
  {| vo_x := vo_x vo; vo_y := vo_y vo; vo_width := vo_width vo; vo_height := h |}.

(** The loop of [do_synchronize] over [layout_dict.iteritems()], with
    the flag [changed]. *)
(** [props.get('master_id')] on the answer of [get_tile_props], which is
    [None] for a tile without props. *)
Definition props_get_master_id (props : option Props) : Py.result (option TileId) :=
  match props with
  | Some props => inr (props_master_id props)
  | None => inl Py.AttributeError
  end.

Fixpoint synchronize_loop (master_id : TileId) (master_vo : VO)
    (items : list (TileId * VO)) (changed : bool) : Py.M LayoutMod bool :=
  match items with
  | [] => Py.ret changed
  | (tile_id, vo) :: items' =>
      props ← Py.gets (λ lm, get_tile_props (lm_layout lm) tile_id) ;
      (* [tile_id != master_tile.tile_id and props.get('master_id') == ...]:
         the right operand is evaluated only when the left one holds *)
      is_tpcreated ←
        (if decide (tile_id ≠ master_id)
         then props_master_id ← Py.lift (props_get_master_id props) ;
              Py.ret (bool_decide (props_master_id = Some master_id))
         else Py.ret false) ;
      if is_tpcreated : bool
      then
        changed ←
          (if decide (vo_width vo ≠ vo_width master_vo)
           then set_vo (with_width (vo_width master_vo)) tile_id ;; Py.ret true
           else Py.ret changed) ;
        changed ←
          (if decide (vo_height vo ≠ vo_height master_vo)
           then set_vo (with_height (vo_height master_vo)) tile_id ;; Py.ret true
           else Py.ret changed) ;
        synchronize_loop master_id master_vo items' changed
      else synchronize_loop master_id master_vo items' changed
  end.

Definition do_synchronize (master_tile : Tile) : Py.M LayoutMod unit :=
  master_vo ← Py.gets (λ lm, layout_dict (lm_layout lm) !! tile_id master_tile) ;
  match master_vo with
  | None => Py.raise Py.LayoutModificationImpossible
  | Some master_vo =>
      items ← Py.gets (λ lm, map_to_list (layout_dict (lm_layout lm))) ;
      changed ← synchronize_loop (tile_id master_tile) master_vo items false ;
      if changed : bool then repack_mod ;; pack_upwards_mod
      else Py.raise Py.LayoutModificationImpossible
  end.

Definition synchronize_sizes_of_tpcreated_mod := do_synchronize.

End model.

(** ** Selecting the tiles created from a master *)

(** The collaborators of [select_tpcreated_tile_ids], taken as they
    are: the layout that [layouts.Layout.select(owner_id, dashboard_id)]
    reads, and the order of the sort keys [layouts.TagsSortKey(tags)],
    a total preorder as [list.sort] needs it. *)
Class LayoutStore `{SeriesSpecs} := {
  Layout_select : option value → positive → Layout;
  TagsSortKey_le : relation (list string);
  TagsSortKey_le_dec :: RelDecision TagsSortKey_le;
  TagsSortKey_le_total :: Total TagsSortKey_le
}.

Section select.
Context `{LayoutStore}.

(** The comparison that [sort(key=lambda (tile_id, tags):
    layouts.TagsSortKey(tags))] makes. *)
Definition ids_tags_le : relation (TileId * list string) :=
  λ a b, TagsSortKey_le a.2 b.2.

Global Instance ids_tags_le_dec : RelDecision ids_tags_le.
Proof. intros a b. unfold ids_tags_le. apply _. Defined.

Definition select_tpcreated_tile_ids (master_tile : Tile)
    (for_layout_id : option positive) (sort : bool) : option (list TileId) :=
  let layout := Layout_select (Tile_owner_id master_tile) (dashboard_id master_tile) in
  (* [for_layout_id and layout.layout_id != for_layout_id] *)
  if match for_layout_id with
     | Some lid => bool_decide (layout_id layout ≠ lid)
     | None => false
     end
  then None
  else
    let tile_ids := get_tpcreated_tile_ids layout (tile_id master_tile) in
    if negb sort then Some tile_ids
    else
      let tpcreated_ids_tags :=
        omap (λ tile_id,
                match get_tile_props layout tile_id with
                | Some props => Some (tile_id, props_tags props)
                | None => None
                end)
             (get_tpcreated_tile_ids layout (tile_id master_tile)) in
      if decide (tpcreated_ids_tags = []) then None
      else
        Some (list_sort ids_tags_le tpcreated_ids_tags).*1.

End select.

(** * Properties *)

(** ** Sorting and deduplication *)

Section stable_sort_facts.
Context {A : Type} (R : relation A) `{!RelDecision R}.

Lemma sort_insert_Permutation (x : A) (l : list A) : sort_insert R x l ≡ₚ x :: l.
Proof.
  induction l as [|y l IH]; simpl; [done|].
  case_decide; [done|]. rewrite IH. apply perm_swap.
Qed.

Lemma list_sort_Permutation (l : list A) : list_sort R l ≡ₚ l.
Proof.
  induction l as [|x l IH]; simpl; [done|].
  rewrite sort_insert_Permutation. by f_equiv.
Qed.

Lemma elem_of_list_sort (x : A) (l : list A) : x ∈ list_sort R l ↔ x ∈ l.
Proof. by rewrite list_sort_Permutation. Qed.

Context `{!Total R}.

Lemma HdRel_sort_insert (a x : A) (l : list A) :
  R a x → HdRel R a l → HdRel R a (sort_insert R x l).
Proof.
  intros Hax Hal. destruct l as [|y l]; simpl; [by constructor|].
  case_decide; constructor; [done|]. by inversion Hal.
Qed.

Lemma Sorted_sort_insert (x : A) (l : list A) :
  Sorted R l → Sorted R (sort_insert R x l).
Proof.
  induction 1 as [|y l Hl IH Hhd]; simpl; [by repeat constructor|].
  case_decide as Hxy.
  - constructor; [by constructor|by constructor].
  - constructor; [done|]. apply HdRel_sort_insert; [|done].
    by destruct (total R x y).
Qed.

Lemma Sorted_list_sort (l : list A) : Sorted R (list_sort R l).
Proof.
  induction l as [|x l IH]; simpl; [constructor|]. by apply Sorted_sort_insert.
Qed.
End stable_sort_facts.

Lemma Sorted_sorted_str (l : list string) : Sorted String.le (sorted_str l).
Proof. apply Sorted_list_sort, _. Qed.

Lemma elem_of_sorted_str (x : string) (l : list string) : x ∈ sorted_str l ↔ x ∈ l.
Proof. apply elem_of_list_sort. Qed.

Lemma NoDup_sorted_str (l : list string) : NoDup l → NoDup (sorted_str l).
Proof. intros Hl. unfold sorted_str. by rewrite list_sort_Permutation. Qed.

Section uniq_facts.
Context {A K : Type} `{EqDecision K} (key : A → K).

Lemma elem_of_uniq_sameorder_go (seen : list K) (seq : list A) (x : A) :
  x ∈ uniq_sameorder_go key seen seq → x ∈ seq ∧ key x ∉ seen.
Proof.
  revert seen. induction seq as [|y seq IH]; intros seen; simpl.
  - by intros ?%elem_of_nil.
  - case_decide as Hy.
    + intros [? ?]%IH. split; [by right|done].
    + intros [->|[? Hx]%IH]%elem_of_cons; [split; [by left|done]|].
      split; [by right|]. intros ?. apply Hx. by right.
Qed.

Lemma key_elem_of_uniq_sameorder_go (seen : list K) (seq : list A) (x : A) :
  x ∈ seq → key x ∉ seen → key x ∈ key <$> uniq_sameorder_go key seen seq.
Proof.
  revert seen. induction seq as [|y seq IH]; intros seen; simpl.
  - by intros ?%elem_of_nil.
  - intros [->|Hx]%elem_of_cons Hseen.
    + rewrite decide_False by done. by left.
    + case_decide as Hy; [by apply IH|]. rewrite fmap_cons.
      destruct (decide (key x = key y)) as [->|Hne]; [by left|].
      right. apply IH; [done|]. by intros [?|?]%elem_of_cons.
Qed.

Lemma NoDup_uniq_sameorder_go (seen : list K) (seq : list A) :
  NoDup (key <$> uniq_sameorder_go key seen seq).
Proof.
  revert seen. induction seq as [|y seq IH]; intros seen; simpl; [constructor|].
  case_decide as Hy; [done|]. rewrite fmap_cons. constructor; [|done].
  intros (z & Hz & [_ Hin]%elem_of_uniq_sameorder_go)%list_elem_of_fmap.
  apply Hin. rewrite <-Hz. by left.
Qed.

Lemma sublist_uniq_sameorder_go (seen : list K) (seq : list A) :
  uniq_sameorder_go key seen seq `sublist_of` seq.
Proof.
  revert seen. induction seq as [|y seq IH]; intros seen; simpl; [done|].
  case_decide; [by apply sublist_cons|by apply sublist_skip].
Qed.
End uniq_facts.

Lemma elem_of_uniq_sameorder `{EqDecision A} (l : list A) (x : A) :
  x ∈ uniq_sameorder l ↔ x ∈ l.
Proof.
  unfold uniq_sameorder, uniq_sameorder_key. split.
  - by intros [? _]%elem_of_uniq_sameorder_go.
  - intros Hx.
    pose proof (key_elem_of_uniq_sameorder_go (λ y : A, y) [] l x Hx) as Hk.
    rewrite list_fmap_id in Hk. apply Hk. by intros ?%elem_of_nil.
Qed.

Lemma NoDup_uniq_sameorder `{EqDecision A} (l : list A) : NoDup (uniq_sameorder l).
Proof.
  pose proof (NoDup_uniq_sameorder_go (λ y : A, y) [] l) as Hk.
  by rewrite list_fmap_id in Hk.
Qed.

(** Two lists with the same members deduplicate and sort to the same list. *)
Lemma sorted_uniq_ext (l1 l2 : list string) :
  (∀ x, x ∈ l1 ↔ x ∈ l2) →
  sorted_str (uniq_sameorder l1) = sorted_str (uniq_sameorder l2).
Proof.
  intros Hext. apply (Sorted_unique String.le); try apply Sorted_sorted_str.
  unfold sorted_str. rewrite !list_sort_Permutation.
  apply NoDup_Permutation; try apply NoDup_uniq_sameorder.
  intros x. by rewrite !elem_of_uniq_sameorder.
Qed.

(** ** The matching loops *)

Lemma match_full_tags_spec (fts tags res : list string) :
  match_full_tags fts tags res =
    if decide (Forall (λ ft, ft ∈ tags) fts) then Some (res ++ fts) else None.
Proof.
  revert res. induction fts as [|ft fts IH]; intros res; cbn [match_full_tags].
  - rewrite decide_True by constructor. by rewrite app_nil_r.
  - destruct (decide (ft ∈ tags)) as [Hft|Hft].
    + rewrite IH. destruct (decide (Forall (λ ft, ft ∈ tags) fts)) as [Hfts|Hfts].
      * rewrite decide_True by (by constructor). by rewrite <-app_assoc.
      * rewrite decide_False; [done|]. by intros [_ ?]%Forall_cons.
    + rewrite decide_False; [done|]. by intros [? _]%Forall_cons.
Qed.

(** The tags that a prefix selects, in the order of [tags]. *)
Definition prefix_hits (prefix : string) (tags : list string) : list string :=
  filter (λ tag, PyStr.startswith tag prefix = true) tags.

Lemma match_one_prefix_go (prefix : string) (tags res : list string) (b : bool) :
  foldl (λ '(res, prefix_matched) tag,
           if PyStr.startswith tag prefix then (res ++ [tag], true)
           else (res, prefix_matched))
        (res, b) tags
  = (res ++ prefix_hits prefix tags,
     b || bool_decide (prefix_hits prefix tags ≠ [])).
Proof.
  revert res b. induction tags as [|t tags IH]; intros res b.
  - simpl. by rewrite app_nil_r, orb_false_r.
  - cbn [foldl]. unfold prefix_hits in *. rewrite filter_cons.
    destruct (PyStr.startswith t prefix) eqn:Ht.
    + rewrite IH, decide_True by done. rewrite <-app_assoc. simpl.
      by rewrite orb_true_r.
    + rewrite IH, decide_False by done. done.
Qed.

Lemma match_one_prefix_spec (prefix : string) (tags res : list string) :
  match_one_prefix prefix tags res =
    (res ++ prefix_hits prefix tags, bool_decide (prefix_hits prefix tags ≠ [])).
Proof. unfold match_one_prefix. by rewrite match_one_prefix_go. Qed.

Lemma prefix_hits_nonempty (prefix : string) (tags : list string) :
  prefix_hits prefix tags ≠ [] ↔ ∃ t, t ∈ tags ∧ PyStr.startswith t prefix = true.
Proof.
  unfold prefix_hits. split.
  - intros Hne. destruct (filter _ tags) as [|t l] eqn:Hf; [done|].
    exists t.
    assert (t ∈ filter (λ tag, PyStr.startswith tag prefix = true) tags) as Hin
      by (rewrite Hf; by left).
    apply list_elem_of_filter in Hin as [? ?]. done.
  - intros (t & Ht & Hp) Hnil.
    assert (t ∈ filter (λ tag, PyStr.startswith tag prefix = true) tags) as Hin
      by (by apply list_elem_of_filter).
    rewrite Hnil in Hin. by apply elem_of_nil in Hin.
Qed.

Lemma match_prefixes_spec (ps tags res : list string) :
  match_prefixes ps tags res =
    if decide (Forall (λ p, prefix_hits p tags ≠ []) ps)
    then Some (res ++ concat ((λ p, prefix_hits p tags) <$> ps)) else None.
Proof.
  revert res. induction ps as [|p ps IH]; intros res; cbn [match_prefixes].
  - rewrite decide_True by constructor. simpl. by rewrite app_nil_r.
  - rewrite match_one_prefix_spec. case_bool_decide as Hp.
    + rewrite IH. destruct (decide (Forall (λ p, prefix_hits p tags ≠ []) ps)) as [Hps|Hps].
      * rewrite decide_True by (by constructor). by rewrite <-app_assoc.
      * rewrite decide_False; [done|]. by intros [_ ?]%Forall_cons.
    + rewrite decide_False; [done|]. by intros [? _]%Forall_cons.
Qed.

(** The conditions under which the spec of 4.1 says there is no match. *)
Definition no_match (tpcreator_spec : option TpcreatorSpec) (tags : list string) : Prop :=
  tpcreator_spec = None ∨ tags = [] ∨
  ∃ spec, tpcreator_spec = Some spec ∧
    ((∃ ft, ft ∈ full_tags spec ∧ ft ∉ tags) ∨
     (∃ p, p ∈ prefixes spec ∧ ∀ t, t ∈ tags → PyStr.startswith t p = false)).

(** What a successful match returns: for the spec [spec], a list [r] with
    exactly the full tags and the tags selected by a prefix, sorted,
    without duplicates. *)
Definition is_matched_tags (spec : TpcreatorSpec) (tags r : list string) : Prop :=
  Sorted String.le r ∧ NoDup r ∧
  ∀ t, t ∈ r ↔
       t ∈ full_tags spec ∨
       (t ∈ tags ∧ ∃ p, p ∈ prefixes spec ∧ PyStr.startswith t p = true).

Lemma tags_matching_Some_eq (spec : TpcreatorSpec) (tags : list string) :
  tags ≠ [] →
  Forall (λ ft, ft ∈ tags) (full_tags spec) →
  Forall (λ p, prefix_hits p tags ≠ []) (prefixes spec) →
  tags_matching_tpcreator_spec (Some spec) tags =
    Some (sorted_str (uniq_sameorder
            (full_tags spec ++ concat ((λ p, prefix_hits p tags) <$> prefixes spec)))).
Proof.
  intros Htags Hft Hps. unfold tags_matching_tpcreator_spec.
  destruct tags as [|t0 tags']; [done|].
  rewrite match_full_tags_spec, decide_True by done. simpl.
  rewrite match_prefixes_spec, decide_True by done. done.
Qed.

Lemma elem_of_concat {A : Type} (x : A) (ls : list (list A)) :
  x ∈ concat ls ↔ ∃ l, x ∈ l ∧ l ∈ ls.
Proof.
  induction ls as [|l ls IH]; simpl.
  - split; [by intros ?%elem_of_nil|by intros (? & _ & ?%elem_of_nil)].
  - rewrite elem_of_app, IH. split.
    + intros [?|(l' & ? & ?)]; [exists l; split; [done|by left]|].
      exists l'. split; [done|by right].
    + intros (l' & ? & [->|?]%elem_of_cons); [by left|right; eauto].
Qed.

Lemma elem_of_prefix_hits_concat (ps tags : list string) (t : string) :
  t ∈ concat ((λ p, prefix_hits p tags) <$> ps) ↔
  t ∈ tags ∧ ∃ p, p ∈ ps ∧ PyStr.startswith t p = true.
Proof.
  rewrite elem_of_concat. split.
  - intros (l & Ht & (p & -> & Hp)%list_elem_of_fmap).
    apply list_elem_of_filter in Ht as [? ?]. eauto.
  - intros (Ht & p & Hp & Hs). exists (prefix_hits p tags). split.
    + by apply list_elem_of_filter.
    + apply list_elem_of_fmap. eauto.
Qed.

Lemma tags_matching_cases (tpcreator_spec : option TpcreatorSpec) (tags : list string) :
  match tags_matching_tpcreator_spec tpcreator_spec tags with
  | None => no_match tpcreator_spec tags
  | Some r =>
      ¬ no_match tpcreator_spec tags ∧
      ∃ spec, tpcreator_spec = Some spec ∧ is_matched_tags spec tags r
  end.
Proof.
  destruct tpcreator_spec as [spec|]; [|by left].
  destruct tags as [|t0 tags'] eqn:Htags; [by right; left|]. rewrite <-Htags.
  assert (tags ≠ []) as Hne by (by rewrite Htags).
  destruct (decide (Forall (λ ft, ft ∈ tags) (full_tags spec))) as [Hft|Hft].
  - destruct (decide (Forall (λ p, prefix_hits p tags ≠ []) (prefixes spec)))
      as [Hps|Hps].
    + rewrite tags_matching_Some_eq by done. split.
      * intros [?|[?|(spec' & [= <-] & [(ft & Hin & Hnot)|(p & Hin & Hnone)])]];
          [done..| |].
        -- rewrite Forall_forall in Hft. by apply Hnot, Hft.
        -- rewrite Forall_forall in Hps.
           apply Hps in Hin. apply prefix_hits_nonempty in Hin as (t & Ht & Hs).
           rewrite Hnone in Hs; done.
      * exists spec. split; [done|]. split; [apply Sorted_sorted_str|].
        split; [apply NoDup_sorted_str, NoDup_uniq_sameorder|].
        intros t. rewrite elem_of_sorted_str, elem_of_uniq_sameorder, elem_of_app.
        by rewrite elem_of_prefix_hits_concat.
    + replace (tags_matching_tpcreator_spec (Some spec) tags) with (@None (list string)).
      * right; right. exists spec. split; [done|]. right.
        apply not_Forall_Exists in Hps; [|apply _].
        apply Exists_exists in Hps as (p & Hin & Hp). exists p. split; [done|].
        intros t Ht. destruct (PyStr.startswith t p) eqn:Hs; [|done].
        exfalso. simpl in Hp. apply Hp. apply prefix_hits_nonempty; eauto.
      * rewrite Htags. simpl. rewrite <-Htags.
        rewrite match_full_tags_spec, decide_True by done. simpl.
        by rewrite match_prefixes_spec, decide_False.
  - replace (tags_matching_tpcreator_spec (Some spec) tags) with (@None (list string)).
    + right; right. exists spec. split; [done|]. left.
      apply not_Forall_Exists in Hft; [|apply _].
      apply Exists_exists in Hft as (ft & Hin & Hp). eauto.
    + rewrite Htags. simpl. rewrite <-Htags.
      by rewrite match_full_tags_spec, decide_False.
Qed.

Lemma is_matched_tags_unique (spec : TpcreatorSpec) (tags r1 r2 : list string) :
  is_matched_tags spec tags r1 → is_matched_tags spec tags r2 → r1 = r2.
Proof.
  intros (Hs1 & Hn1 & He1) (Hs2 & Hn2 & He2).
  apply (Sorted_unique String.le); [done..|].
  apply NoDup_Permutation; [done..|]. intros t. by rewrite He1, He2.
Qed.

Lemma no_match_Permutation (tpcreator_spec : option TpcreatorSpec) (tags1 tags2 : list string) :
  tags1 ≡ₚ tags2 → no_match tpcreator_spec tags1 → no_match tpcreator_spec tags2.
Proof.
  intros Hp [?|[->|(spec & -> & H)]]; [by left| |].
  - apply Permutation_nil_l in Hp. subst tags2. by right; left.
  - right; right. exists spec. split; [done|].
    destruct H as [(ft & ? & ?)|(p & ? & Hnone)].
    + left. exists ft. by rewrite <-Hp.
    + right. exists p. split; [done|]. intros t Ht. apply Hnone. by rewrite Hp.
Qed.

Lemma is_matched_tags_Permutation (spec : TpcreatorSpec) (tags1 tags2 r : list string) :
  tags1 ≡ₚ tags2 → is_matched_tags spec tags1 r → is_matched_tags spec tags2 r.
Proof.
  intros Hp (Hs & Hn & He). split; [done|]. split; [done|].
  intros t. rewrite He. by rewrite Hp.
Qed.

(** C2: [tags_matching_tpcreator_spec] returns [None] exactly when the
    spec is empty, the tag list is empty, a full tag is absent from the
    tags, or a prefix is a prefix of no tag; in every other case it
    returns the sorted, duplicate-free list whose members are the full
    tags and the tags that start with one of the prefixes. *)
Theorem tags_matching_tpcreator_spec_None_iff
    (tpcreator_spec : option TpcreatorSpec) (tags : list string) :
  (tags_matching_tpcreator_spec tpcreator_spec tags = None ↔
     no_match tpcreator_spec tags) ∧
  (∀ r, tags_matching_tpcreator_spec tpcreator_spec tags = Some r →
        ∃ spec, tpcreator_spec = Some spec ∧ is_matched_tags spec tags r) ∧
  (¬ no_match tpcreator_spec tags →
     ∃ r, tags_matching_tpcreator_spec tpcreator_spec tags = Some r).
Proof.
  pose proof (tags_matching_cases tpcreator_spec tags) as H.
  destruct (tags_matching_tpcreator_spec tpcreator_spec tags) as [r|].
  - destruct H as [Hno Hr]. split; [split; [done|by intros ?]|].
    split; [by intros r' [= <-]|]. eauto.
  - split; [done|]. split; [done|]. by intros [].
Qed.

(** C8: the result does not depend on the order of the tags, and a
    result other than [None] is sorted and has no duplicates. *)
Theorem tags_matching_tpcreator_spec_Permutation
    (tpcreator_spec : option TpcreatorSpec) (tags1 tags2 : list string) :
  tags1 ≡ₚ tags2 →
  tags_matching_tpcreator_spec tpcreator_spec tags1 =
    tags_matching_tpcreator_spec tpcreator_spec tags2 ∧
  ∀ r, tags_matching_tpcreator_spec tpcreator_spec tags1 = Some r →
       Sorted String.le r ∧ NoDup r.
Proof.
  intros Hp.
  pose proof (tags_matching_cases tpcreator_spec tags1) as H1.
  pose proof (tags_matching_cases tpcreator_spec tags2) as H2.
  destruct (tags_matching_tpcreator_spec tpcreator_spec tags1) as [r1|],
    (tags_matching_tpcreator_spec tpcreator_spec tags2) as [r2|].
  - destruct H1 as (_ & spec & -> & Hr1), H2 as (_ & spec' & [= <-] & Hr2).
    split.
    + f_equal. eapply is_matched_tags_unique; [|done].
      by eapply is_matched_tags_Permutation.
    + intros r [= <-]. destruct Hr1 as (? & ? & _). done.
  - destruct H1 as [Hno _]. exfalso. apply Hno.
    by eapply no_match_Permutation.
  - destruct H2 as [Hno _]. exfalso. apply Hno.
    by eapply no_match_Permutation.
  - split; [done|]. by intros r.
Qed.

Lemma tags_matching_tpcreator_spec_Permutation_witness :
  ["b"; "a:1"; "a:2"] ≡ₚ ["a:2"; "b"; "a:1"] ∧
  tags_matching_tpcreator_spec (Some (mkTpcreatorSpec ["b"] ["a:"])) ["b"; "a:1"; "a:2"] =
    tags_matching_tpcreator_spec (Some (mkTpcreatorSpec ["b"] ["a:"])) ["a:2"; "b"; "a:1"].
Proof.
  assert (["b"; "a:1"; "a:2"] ≡ₚ ["a:2"; "b"; "a:1"]) as Hp.
  { change ((["b"; "a:1"] ++ ["a:2"]) ≡ₚ (["a:2"] ++ ["b"; "a:1"])).
    apply Permutation_app_comm. }
  split; [exact Hp|].
  exact (proj1 (tags_matching_tpcreator_spec_Permutation
                  (Some (mkTpcreatorSpec ["b"] ["a:"])) _ _ Hp)).
Defined.

(** ** Suggested UISpecs, compilation and the round trip *)

(** The entry that [suggested_tpcreator_uispec] appends for one tag. *)
Definition suggested_entry (tag : string) : UispecEntry :=
  if PyStr.contains_char TPCREATOR_SEPARATOR tag
  then mkUispecEntry tag (_tpcreator_prefix tag)
  else mkUispecEntry tag tag.

Lemma suggested_tpcreator_uispec_fmap (tags : list string) :
  suggested_tpcreator_uispec tags = suggested_entry <$> tags.
Proof.
  unfold suggested_tpcreator_uispec.
  enough (∀ res, foldl (λ res tag,
             if PyStr.contains_char TPCREATOR_SEPARATOR tag
             then res ++ [mkUispecEntry tag (_tpcreator_prefix tag)]
             else res ++ [mkUispecEntry tag tag]) res tags
           = res ++ (suggested_entry <$> tags)) as H by apply H.
  induction tags as [|t tags IH]; intros res; cbn [foldl].
  - by rewrite app_nil_r.
  - rewrite IH, fmap_cons. unfold suggested_entry at 2.
    destruct (PyStr.contains_char TPCREATOR_SEPARATOR t); by rewrite <-app_assoc.
Qed.

Lemma suggested_tpcreator_uispec_tags (tags : list string) :
  uis_tag <$> suggested_tpcreator_uispec tags = tags.
Proof.
  rewrite suggested_tpcreator_uispec_fmap, <-list_fmap_compose.
  rewrite <-(list_fmap_id tags) at 2. apply list_fmap_ext. intros _ t _.
  unfold suggested_entry. simpl. by destruct (PyStr.contains_char _ t).
Qed.

Lemma startswith_refl (s : string) : PyStr.startswith s s = true.
Proof.
  unfold PyStr.startswith. induction s as [|a s IH]; simpl; [done|].
  by destruct (ascii_dec a a).
Qed.

Lemma startswith_tpcreator_prefix (tag : string) :
  PyStr.contains_char TPCREATOR_SEPARATOR tag = true →
  PyStr.startswith tag (_tpcreator_prefix tag) = true.
Proof.
  unfold PyStr.startswith, _tpcreator_prefix.
  induction tag as [|a s IH]; simpl; [done|].
  case_decide as Ha; simpl.
  - intros _. subst a. unfold String.app. simpl.
    destruct (ascii_dec TPCREATOR_SEPARATOR TPCREATOR_SEPARATOR); [|done].
    by destruct s.
  - intros Hs. unfold String.app in *. simpl.
    destruct (ascii_dec a a); [|done]. by apply IH.
Qed.

(** An entry whose prefix is a prefix of its tag: what the suggestion
    produces and what [suggested_tpcreator_prefixes] offers for a tag. *)
Definition uispec_entry_wf (d : UispecEntry) : Prop :=
  PyStr.startswith (uis_tag d) (uis_prefix d) = true.

Lemma suggested_tpcreator_uispec_wf (tags : list string) :
  Forall uispec_entry_wf (suggested_tpcreator_uispec tags).
Proof.
  rewrite suggested_tpcreator_uispec_fmap. apply Forall_fmap, Forall_forall.
  intros t _. unfold uispec_entry_wf, suggested_entry. simpl.
  destruct (PyStr.contains_char TPCREATOR_SEPARATOR t) eqn:Hc; simpl.
  - by apply startswith_tpcreator_prefix.
  - apply startswith_refl.
Qed.

Lemma elem_of_compiled_full_tags (uispec : list UispecEntry) (t : string) :
  t ∈ full_tags (tpcreator_spec_from_tpcreator_uispec uispec) ↔
  ∃ d, d ∈ uispec ∧ uis_tag d = t ∧ uis_tag d = uis_prefix d.
Proof.
  simpl. rewrite list_elem_of_fmap. split.
  - intros (d & -> & [? ?]%list_elem_of_filter). eauto.
  - intros (d & ? & <- & ?). exists d. split; [done|]. by apply list_elem_of_filter.
Qed.

Lemma elem_of_compiled_prefixes (uispec : list UispecEntry) (p : string) :
  p ∈ prefixes (tpcreator_spec_from_tpcreator_uispec uispec) ↔
  ∃ d, d ∈ uispec ∧ uis_prefix d = p ∧ uis_tag d ≠ uis_prefix d.
Proof.
  simpl. unfold sort_by_len.
  rewrite elem_of_list_sort, elem_of_uniq_sameorder, list_elem_of_fmap. split.
  - intros (d & -> & [? ?]%list_elem_of_filter). eauto.
  - intros (d & ? & <- & ?). exists d. split; [done|]. by apply list_elem_of_filter.
Qed.

Lemma compile_match_roundtrip (uispec : list UispecEntry) :
  uispec ≠ [] →
  Forall uispec_entry_wf uispec →
  tags_matching_tpcreator_spec
    (Some (tpcreator_spec_from_tpcreator_uispec uispec)) (uis_tag <$> uispec)
  = Some (sorted_str (uniq_sameorder (uis_tag <$> uispec))).
Proof.
  intros Hne Hwf. rewrite Forall_forall in Hwf.
  rewrite tags_matching_Some_eq.
  - f_equal. apply sorted_uniq_ext. intros t.
    rewrite elem_of_app, elem_of_prefix_hits_concat, elem_of_compiled_full_tags.
    split.
    + intros [(d & ? & <- & _)|[? _]]; [|done]. by apply list_elem_of_fmap_2.
    + intros (d & -> & Hd)%list_elem_of_fmap.
      destruct (decide (uis_tag d = uis_prefix d)) as [Heq|Hneq]; [left; eauto|].
      right. split; [by apply list_elem_of_fmap_2|].
      exists (uis_prefix d). split; [|by apply Hwf].
      apply elem_of_compiled_prefixes. eauto.
  - destruct uispec; [done|]. by rewrite fmap_cons.
  - apply Forall_forall. intros t (d & ? & <- & _)%elem_of_compiled_full_tags.
    by apply list_elem_of_fmap_2.
  - apply Forall_forall. intros p (d & Hd & <- & _)%elem_of_compiled_prefixes.
    apply prefix_hits_nonempty. exists (uis_tag d).
    split; [by apply list_elem_of_fmap_2|by apply Hwf].
Qed.

(** C4, as amended: for a UISpec in which every prefix is a prefix of its
    tag, compiling it and matching the compiled spec against the list of
    its tag values returns [None] for the empty UISpec and otherwise the
    tag values without duplicates and in lexicographic order. *)
Theorem compile_then_match_roundtrip (uispec : list UispecEntry) :
  Forall uispec_entry_wf uispec →
  tags_matching_tpcreator_spec
    (Some (tpcreator_spec_from_tpcreator_uispec uispec)) (uis_tag <$> uispec)
  = match uispec with
    | [] => None
    | _ :: _ => Some (sorted_str (uniq_sameorder (uis_tag <$> uispec)))
    end.
Proof.
  intros Hwf. destruct uispec as [|d u] eqn:Hu; [done|].
  rewrite <-Hu in *. apply compile_match_roundtrip; [by rewrite Hu|done].
Qed.

Lemma compile_then_match_roundtrip_witness :
  Forall uispec_entry_wf (suggested_tpcreator_uispec ["region:us"; "env:prod"; "host"]) ∧
  tags_matching_tpcreator_spec
    (Some (tpcreator_spec_from_tpcreator_uispec
             (suggested_tpcreator_uispec ["region:us"; "env:prod"; "host"])))
    (uis_tag <$> suggested_tpcreator_uispec ["region:us"; "env:prod"; "host"])
  = Some ["env:prod"; "host"; "region:us"].
Proof.
  split; [apply suggested_tpcreator_uispec_wf|].
  exact (compile_then_match_roundtrip
           (suggested_tpcreator_uispec ["region:us"; "env:prod"; "host"])
           (suggested_tpcreator_uispec_wf ["region:us"; "env:prod"; "host"])).
Defined.

(** C4 as stated fails: for the empty UISpec the match is [None], not the
    empty list of tag values; and the match is sorted, which the tag
    values need not be. *)
Lemma compile_then_match_not_verbatim :
  tags_matching_tpcreator_spec
    (Some (tpcreator_spec_from_tpcreator_uispec (suggested_tpcreator_uispec [])))
    []
  ≠ Some (uis_tag <$> suggested_tpcreator_uispec []) ∧
  tags_matching_tpcreator_spec
    (Some (tpcreator_spec_from_tpcreator_uispec (suggested_tpcreator_uispec ["b"; "a"])))
    ["b"; "a"]
  ≠ Some (uis_tag <$> suggested_tpcreator_uispec ["b"; "a"]).
Proof. split; vm_compute; intros [=]. Qed.

(** ** Deduplication by key keeps first occurrences *)

Section uniq_first.
Context {A K : Type} `{EqDecision K} (key : A → K).

Lemma uniq_sameorder_go_first (seen : list K) (seq : list A) (x : A) :
  x ∈ uniq_sameorder_go key seen seq →
  ∃ l1 l2, seq = l1 ++ (x :: l2) ∧ (key x ∉ (key <$> l1)) ∧ (key x ∉ seen).
Proof.
  revert seen. induction seq as [|y seq IH]; intros seen; simpl.
  - by intros ?%elem_of_nil.
  - case_decide as Hy.
    + intros (l1 & l2 & -> & Hl1 & Hseen)%IH. exists (y :: l1), l2.
      split; [done|]. split; [|done]. rewrite fmap_cons.
      intros [Heq|?]%elem_of_cons; [|done]. apply Hseen. by rewrite Heq.
    + intros [->|(l1 & l2 & -> & Hl1 & Hseen)%IH]%elem_of_cons.
      * exists [], seq. split; [done|]. split; [|done]. by intros ?%elem_of_nil.
      * exists (y :: l1), l2. split; [done|]. split.
        -- rewrite fmap_cons. intros [Heq|?]%elem_of_cons; [|done].
           apply Hseen. rewrite Heq. by left.
        -- intros ?. apply Hseen. by right.
Qed.

Lemma uniq_sameorder_go_app (seen : list K) (l1 l2 : list A) :
  ∃ seen', uniq_sameorder_go key seen (l1 ++ l2)
           = uniq_sameorder_go key seen l1 ++ uniq_sameorder_go key seen' l2.
Proof.
  revert seen. induction l1 as [|x l1 IH]; intros seen; simpl.
  - by exists seen.
  - case_decide.
    + apply IH.
    + destruct (IH (key x :: seen)) as [seen' ->]. by exists seen'.
Qed.
End uniq_first.

(** ** Tile derivation *)

Section derivation.
Context `{SS : SeriesSpecs} `{!Collaborators}.

Lemma result_bind_inr {A B : Type} (a : A) (k : A → Py.result B) :
  (inr a ≫= k) = k a.
Proof. done. Qed.

Lemma result_bind_inl {A B : Type} (e : Py.exn) (k : A → Py.result B) :
  (@inl Py.exn A e ≫= k) = inl e.
Proof. done. Qed.

Lemma bind_inr_inv {A B : Type} (r : Py.result A) (k : A → Py.result B) (b : B) :
  (r ≫= k) = inr b → ∃ a, r = inr a ∧ k a = inr b.
Proof. destruct r as [e|a]; [done|]. intros ?. by exists a. Qed.

Lemma getitem_Some (d : gmap string value) (key : string) (v : value) :
  d !! key = Some v → getitem d key = inr v.
Proof. unfold getitem. by intros ->. Qed.

Lemma setitem2_Some (d sub : gmap string value) (k1 k2 : string) (v : value) :
  d !! k1 = Some (VDict sub) →
  setitem2 d k1 k2 v = inr (<[k1 := VDict (<[k2 := v]> sub)]> d).
Proof. unfold setitem2. by intros ->. Qed.

(** The options that stay after the keys owned by a tile are left out. *)
Definition inherited_options (to : gmap string value) : gmap string value :=
  filter (λ '(k, _), k ∉ ["series_configs"; "tags"; "tile_title"]) to.

Lemma inherited_options_lookup (to : gmap string value) (k : string) :
  inherited_options to !! k =
    if decide (k ∈ ["series_configs"; "tags"; "tile_title"]) then None else to !! k.
Proof.
  unfold inherited_options. case_decide as Hk.
  - apply map_lookup_filter_None. right. intros v _. by intros Hn.
  - destruct (to !! k) as [v|] eqn:Hv.
    + by apply map_lookup_filter_Some.
    + apply map_lookup_filter_None. by left.
Qed.

Lemma set_opt_lookup (key k : string) (v : option value) (d : gmap string value) :
  set_opt key v d !! k = if decide (key = k) then from_option Some (d !! k) v else d !! k.
Proof.
  unfold set_opt. destruct v as [v|]; simpl.
  - by rewrite lookup_insert.
  - by case_decide.
Qed.

(** What the collaborator [Tile.insert] answers for the configuration
    that [_tile_options_of_tpcreated] hands over. *)
Lemma partial_new_tile_options_lookup
    (master_tile : Tile) (tw : value) (tags : list string) (ss : list SeriesSpec)
    (k : string) :
  tile_options master_tile !! "tw_type" = Some tw →
  Tile_insert_tile_options (Tile_owner_id master_tile) (Tile_report_id master_tile)
    {| cfg_tw_type := tw; cfg_tags := tags; cfg_series_spec_list := ss;
       cfg_tile_options := inherited_options (tile_options master_tile) |} !! k
  = if decide (k = "series_configs") then Some (VSeries ss)
    else if decide (k = "tags") then Some (VTags tags)
    else if decide (k = "tile_title") then None
    else tile_options master_tile !! k.
Proof.
  intros Htw. unfold Tile_insert_tile_options, Tile_owner_id, Tile_report_id.
  cbn [cfg_tw_type cfg_tags cfg_series_spec_list cfg_tile_options].
  rewrite !lookup_insert, !set_opt_lookup, inherited_options_lookup.
  destruct (decide (k = "series_configs")) as [->|Hs];
    [by rewrite decide_True|rewrite (decide_False (P := "series_configs" = k)) by done].
  destruct (decide (k = "tags")) as [->|Ht];
    [by rewrite decide_True|rewrite (decide_False (P := "tags" = k)) by done].
  destruct (decide (k = "tile_title")) as [->|Htt].
  - rewrite !decide_False by done. rewrite decide_True; [done|].
    by repeat constructor.
  - assert (k ∉ ["series_configs"; "tags"; "tile_title"]) as Hk.
    { intros Hin. repeat (apply elem_of_cons in Hin as [?|Hin]; [done|]).
      by apply elem_of_nil in Hin. }
    rewrite (decide_False (P := k ∈ _)) by done.
    destruct (decide ("tw_type" = k)) as [<-|Hw]; [done|].
    destruct (decide ("report_id" = k)) as [<-|Hr].
    { rewrite decide_False by done. by destruct (_ !! "report_id"). }
    destruct (decide ("owner_id" = k)) as [<-|Ho]; [by destruct (_ !! "owner_id")|].
    done.
Qed.

(** A tile whose title, when it has one, is a [str]. *)
Definition title_is_str (t : Tile) : Prop :=
  ∀ v, tile_options t !! "tile_title" = Some v → ∃ s, v = VStr s.

(** The [tile_title_base] entry that the title of the master leads to. *)
Definition title_base_data (master_tile : Tile) : gmap string value :=
  match tile_options master_tile !! "tile_title" with
  | Some (VStr s) =>
      if decide (s ≠ EmptyString) then
        let postfix := generate_tile_title_postfix master_tile in
        {[ "tile_title_base" :=
             if decide (postfix ≠ EmptyString)
             then VStr (PyStr.strip (PyStr.replace s postfix EmptyString))
             else VStr s ]}
      else ∅
  | _ => ∅
  end.

(** The [tpcreator_data] block written for a tile created from
    [master_tile]. *)
Definition master_link (master_tile : Tile) (uispec : value)
    (tpcreator_spec : option TpcreatorSpec) (data : gmap string value)
  : gmap string value :=
  <["master_tpcreator_spec" := spec_value tpcreator_spec]>
    (<["master_tpcreator_uispec" := uispec]>
       (<["master_tile_id" := VId (tile_id master_tile)]> data)).

Lemma master_link_steps (master_tile : Tile) (uispec : value)
    (tpcreator_spec : option TpcreatorSpec) (to data : gmap string value) :
  to !! "tpcreator_data" = Some (VDict data) →
  tile_options master_tile !! "tpcreator_uispec" = Some uispec →
  (new_tile_options ←
     setitem2 to "tpcreator_data" "master_tile_id" (VId (tile_id master_tile));
   master_uispec ← getitem (tile_options master_tile) "tpcreator_uispec";
   new_tile_options ←
     setitem2 new_tile_options "tpcreator_data" "master_tpcreator_uispec"
              (deepcopy master_uispec);
   new_tile_options ←
     setitem2 new_tile_options "tpcreator_data" "master_tpcreator_spec"
              (spec_value tpcreator_spec);
   inr new_tile_options)
  = inr (<["tpcreator_data" := VDict (master_link master_tile uispec tpcreator_spec data)]> to).
Proof.
  intros Hdata Hu.
  rewrite (setitem2_Some _ data) by done. rewrite result_bind_inr.
  rewrite (getitem_Some _ "tpcreator_uispec" uispec) by done. rewrite result_bind_inr.
  erewrite setitem2_Some by apply lookup_insert_eq. rewrite result_bind_inr.
  erewrite setitem2_Some by apply lookup_insert_eq. rewrite result_bind_inr.
  by rewrite !insert_insert_eq.
Qed.

Lemma tile_options_of_tpcreated_eq
    (master_tile : Tile) (tpcreator_spec : option TpcreatorSpec)
    (tags : list string) (old_tpcreated : option Tile) (tw uispec : value) :
  tile_options master_tile !! "tw_type" = Some tw →
  tile_options master_tile !! "tpcreator_uispec" = Some uispec →
  tile_options master_tile !! "tpcreator_data" = None →
  title_is_str master_tile →
  _tile_options_of_tpcreated master_tile tpcreator_spec tags old_tpcreated
  = inr (<["tpcreator_data" :=
             VDict (master_link master_tile uispec tpcreator_spec
                                (title_base_data master_tile))]>
           (delete "tpcreator_uispec"
              (Tile_insert_tile_options
                 (Tile_owner_id master_tile) (Tile_report_id master_tile)
                 {| cfg_tw_type := tw; cfg_tags := tags;
                    cfg_series_spec_list :=
                      series_specs_of_tpcreated master_tile old_tpcreated;
                    cfg_tile_options := inherited_options (tile_options master_tile) |}))).
Proof.
  intros Htw Hu Hdata Htitle. unfold _tile_options_of_tpcreated.
  rewrite (getitem_Some _ "tw_type" tw) by done. rewrite result_bind_inr.
  fold (inherited_options (tile_options master_tile)).
  set (partial := Tile_insert_tile_options _ _ _).
  assert (partial !! "tpcreator_data" = None) as Hpd.
  { unfold partial. rewrite (partial_new_tile_options_lookup _ tw) by done.
    by rewrite !decide_False by done. }
  rewrite decide_True by done.
  set (to0 := <["tpcreator_data" := VDict ∅]> partial).
  assert (∀ d, <["tpcreator_data" := VDict d]>
                 (delete "tpcreator_uispec" to0)
               = <["tpcreator_data" := VDict d]> (delete "tpcreator_uispec" partial))
    as Hto0.
  { intros d. unfold to0. rewrite delete_insert_ne by done.
    by rewrite insert_insert_eq. }
  assert (to0 !! "tpcreator_data" = Some (VDict ∅)) as H0
    by apply lookup_insert_eq.
  unfold title_base_data.
  destruct (tile_options master_tile !! "tile_title") as [title|] eqn:Ht.
  - destruct (Htitle title Ht) as [s ->]. cbn [truthy].
    case_bool_decide as Hs.
    + rewrite (decide_True (P := s ≠ EmptyString)) by done.
      assert (∀ v, (new_tile_options ←
                      setitem2 to0 "tpcreator_data" "tile_title_base" v;
                    let new_tile_options := delete "tpcreator_uispec" new_tile_options in
                    new_tile_options ←
                      setitem2 new_tile_options "tpcreator_data" "master_tile_id"
                               (VId (tile_id master_tile));
                    master_uispec ← getitem (tile_options master_tile) "tpcreator_uispec";
                    new_tile_options ←
                      setitem2 new_tile_options "tpcreator_data" "master_tpcreator_uispec"
                               (deepcopy master_uispec);
                    new_tile_options ←
                      setitem2 new_tile_options "tpcreator_data" "master_tpcreator_spec"
                               (spec_value tpcreator_spec);
                    inr new_tile_options)
                   = inr (<["tpcreator_data" :=
                              VDict (master_link master_tile uispec tpcreator_spec
                                       {[ "tile_title_base" := v ]})]>
                            (delete "tpcreator_uispec" partial))) as Hgo.
      { intros v. erewrite setitem2_Some by apply lookup_insert_eq.
        rewrite result_bind_inr. cbv zeta.
        erewrite master_link_steps; [|by rewrite lookup_delete_ne, lookup_insert_eq|done].
        unfold to0. rewrite insert_insert_eq, delete_insert_ne by done.
        by rewrite insert_insert_eq, insert_empty. }
      case_decide as Hp.
      * cbn [as_str]. rewrite !result_bind_inr. apply Hgo.
      * rewrite !result_bind_inr. apply Hgo.
    + rewrite (decide_False (P := s ≠ EmptyString)) by (by intros ?).
      rewrite result_bind_inr. cbv zeta.
      erewrite master_link_steps; [|by rewrite lookup_delete_ne, H0|done].
      by rewrite Hto0.
  - rewrite result_bind_inr. cbv zeta.
    erewrite master_link_steps; [|by rewrite lookup_delete_ne, H0|done].
    by rewrite Hto0.
Qed.

Lemma is_master_tile_true (t : Tile) :
  is_master_tile t = true →
  tile_options t !! "tpcreator_data" = None ∧
  ∃ uispec, tile_options t !! "tpcreator_uispec" = Some uispec.
Proof.
  unfold is_master_tile. intros [Hd Hu]%andb_true_iff.
  apply bool_decide_eq_true in Hd. apply bool_decide_eq_true in Hu as [u Hu]. eauto.
Qed.

Lemma derived_options_lookup
    (master_tile : Tile) (tw : value) (tags : list string) (ss : list SeriesSpec)
    (data : gmap string value) (k : string) :
  tile_options master_tile !! "tw_type" = Some tw →
  <["tpcreator_data" := VDict data]>
    (delete "tpcreator_uispec"
       (Tile_insert_tile_options
          (Tile_owner_id master_tile) (Tile_report_id master_tile)
          {| cfg_tw_type := tw; cfg_tags := tags; cfg_series_spec_list := ss;
             cfg_tile_options := inherited_options (tile_options master_tile) |})) !! k
  = if decide (k = "tpcreator_data") then Some (VDict data)
    else if decide (k = "tpcreator_uispec") then None
    else if decide (k = "series_configs") then Some (VSeries ss)
    else if decide (k = "tags") then Some (VTags tags)
    else if decide (k = "tile_title") then None
    else tile_options master_tile !! k.
Proof.
  intros Htw. rewrite lookup_insert.
  destruct (decide (k = "tpcreator_data")) as [->|Hd];
    [by rewrite decide_True|rewrite (decide_False (P := "tpcreator_data" = k)) by done].
  rewrite lookup_delete.
  destruct (decide (k = "tpcreator_uispec")) as [->|Hu];
    [by rewrite decide_True|rewrite (decide_False (P := "tpcreator_uispec" = k)) by done].
  by apply partial_new_tile_options_lookup.
Qed.

(** C3: the options derived for a new tile of a master (no existing
    derived tile) take over [tw_type] and every option of the master but
    [series_configs], [tags] and [tile_title]; [tags] is the matched tag
    list; there is no [tpcreator_uispec]; [tpcreator_data] holds the
    master's tile id, a copy of the master's [tpcreator_uispec] and the
    given match spec. *)
Theorem tile_options_of_tpcreated_new
    (master_tile : Tile) (tpcreator_spec : option TpcreatorSpec)
    (tags : list string) (tw : value) :
  is_master_tile master_tile = true →
  tile_options master_tile !! "tw_type" = Some tw →
  title_is_str master_tile →
  ∃ (to : gmap string value) (uispec : value) (data : gmap string value),
    _tile_options_of_tpcreated master_tile tpcreator_spec tags None = inr to ∧
    tile_options master_tile !! "tpcreator_uispec" = Some uispec ∧
    to !! "tw_type" = Some tw ∧
    (∀ k, k ∉ ["series_configs"; "tags"; "tile_title";
               "tpcreator_uispec"; "tpcreator_data"] →
          to !! k = tile_options master_tile !! k) ∧
    to !! "tile_title" = None ∧
    to !! "series_configs" = Some (VSeries (series_specs master_tile)) ∧
    to !! "tags" = Some (VTags tags) ∧
    to !! "tpcreator_uispec" = None ∧
    to !! "tpcreator_data" = Some (VDict data) ∧
    data !! "master_tile_id" = Some (VId (tile_id master_tile)) ∧
    data !! "master_tpcreator_uispec" = Some (deepcopy uispec) ∧
    data !! "master_tpcreator_spec" = Some (spec_value tpcreator_spec).
Proof.
  intros (Hd & uispec & Hu)%is_master_tile_true Htw Htitle.
  pose proof (tile_options_of_tpcreated_eq
                master_tile tpcreator_spec tags None tw uispec Htw Hu Hd Htitle) as Heq.
  pose proof (λ k, derived_options_lookup master_tile tw tags
                     (series_specs_of_tpcreated master_tile None)
                     (master_link master_tile uispec tpcreator_spec
                                  (title_base_data master_tile)) k Htw) as Hlk.
  eexists _, uispec,
    (master_link master_tile uispec tpcreator_spec (title_base_data master_tile)).
  split; [exact Heq|]. split; [done|].
  split; [by rewrite Hlk, !decide_False by done|].
  split.
  { intros k Hk. rewrite Hlk.
    rewrite !decide_False; [done|intros ->; apply Hk..].
    - do 2 right. by left.
    - do 1 right. by left.
    - by left.
    - do 3 right. by left.
    - do 4 right. by left. }
  split; [by rewrite Hlk, !decide_False by done|].
  split; [by rewrite Hlk, !decide_False by done|].
  split; [by rewrite Hlk, !decide_False by done|].
  split; [by rewrite Hlk, !decide_False by done|].
  split; [by rewrite Hlk, decide_True|].
  unfold master_link. split; [|split].
  - rewrite lookup_insert_ne, lookup_insert_ne by done. apply lookup_insert_eq.
  - rewrite lookup_insert_ne by done. apply lookup_insert_eq.
  - apply lookup_insert_eq.
Qed.

(** C6: with an existing derived tile, the series specs are those of the
    master followed by those of the derived tile, where of the specs with
    one canonical form only the first stays; the specs of the master come
    first. *)
Theorem series_specs_of_tpcreated_old
    (master_tile old_tpcreated : Tile) (tpcreator_spec : option TpcreatorSpec)
    (tags : list string) (to : gmap string value) :
  _tile_options_of_tpcreated master_tile tpcreator_spec tags (Some old_tpcreated)
    = inr to →
  let all := series_specs master_tile ++ series_specs old_tpcreated in
  ∃ r, to !! "series_configs" = Some (VSeries r) ∧
       r = series_specs_of_tpcreated master_tile (Some old_tpcreated) ∧
       r `sublist_of` all ∧
       NoDup (series_spec_for_default_options <$> r) ∧
       (∀ ss, ss ∈ all →
              series_spec_for_default_options ss
                ∈ (series_spec_for_default_options <$> r)) ∧
       (∀ ss, ss ∈ r →
              ∃ l1 l2, all = l1 ++ (ss :: l2) ∧
                       series_spec_for_default_options ss
                         ∉ (series_spec_for_default_options <$> l1)) ∧
       _unique_series_specs (series_specs master_tile) `prefix_of` r.
Proof.
  intros Hto all.
  exists (series_specs_of_tpcreated master_tile (Some old_tpcreated)).
  split; [|split; [done|]].
  - revert Hto. unfold _tile_options_of_tpcreated.
    destruct (getitem (tile_options master_tile) "tw_type") as [e|tw]; [done|].
    rewrite result_bind_inr.
    set (partial := Tile_insert_tile_options _ _ _).
    assert (partial !! "series_configs"
            = Some (VSeries (series_specs_of_tpcreated master_tile (Some old_tpcreated))))
      as Hp by apply lookup_insert_eq.
    set (to0 := if decide (partial !! "tpcreator_data" = None) then _ else _).
    assert (to0 !! "series_configs"
            = Some (VSeries (series_specs_of_tpcreated master_tile (Some old_tpcreated))))
      as H0.
    { unfold to0. case_decide; [by rewrite lookup_insert_ne|done]. }
    assert (∀ (d d' : gmap string value) k2 v,
              setitem2 d "tpcreator_data" k2 v = inr d' →
              d' !! "series_configs" = d !! "series_configs") as Hset.
    { intros d d' k2 v. unfold setitem2.
      destruct (d !! "tpcreator_data") as [[]|]; intros [= <-].
      by rewrite lookup_insert_ne. }
    intros Hto.
    apply bind_inr_inv in Hto as (to1 & H1 & Hto).
    assert (to1 !! "series_configs" = to0 !! "series_configs") as H1'.
    { destruct (tile_options master_tile !! "tile_title") as [title|]; [|by inversion H1].
      destruct (truthy title); [|by inversion H1].
      apply bind_inr_inv in H1 as (v & _ & H1). by eapply Hset. }
    cbv zeta in Hto.
    apply bind_inr_inv in Hto as (to2 & H2%Hset & Hto).
    apply bind_inr_inv in Hto as (mu & _ & Hto).
    apply bind_inr_inv in Hto as (to3 & H3%Hset & Hto).
    apply bind_inr_inv in Hto as (to4 & H4%Hset & [= <-]).
    rewrite H4, H3, H2, lookup_delete_ne by done. by rewrite H1'.
  - unfold series_specs_of_tpcreated, _unique_series_specs, uniq_sameorder_key.
    fold all. split; [apply sublist_uniq_sameorder_go|].
    split; [apply NoDup_uniq_sameorder_go|].
    split; [|split].
    + intros ss Hss. apply key_elem_of_uniq_sameorder_go; [done|].
      by intros ?%elem_of_nil.
    + intros ss (l1 & l2 & ? & ? & _)%uniq_sameorder_go_first. eauto.
    + unfold all.
      destruct (uniq_sameorder_go_app series_spec_for_default_options []
                  (series_specs master_tile) (series_specs old_tpcreated))
        as [seen' ->].
      by eexists.
Qed.

End derivation.

(** ** Promotion of a derived tile *)

Section promotion.
Context `{SS : SeriesSpecs} `{!Collaborators}.

Lemma M_bind_lift_inr {S A B : Type} (a : A) (k : A → Py.M S B) (s : S) :
  (Py.lift (inr a) ≫= k) s = k a s.
Proof. done. Qed.

Lemma M_bind_run {S A B : Type} (m : Py.M S A) (k : A → Py.M S B) (s : S) :
  (m ≫= k) s = match m s with
               | (inl e, s') => (inl e, s')
               | (inr a, s') => k a s'
               end.
Proof. done. Qed.

Lemma is_master_tile_false (t : Tile) (data : value) :
  tile_options t !! "tpcreator_data" = Some data → is_master_tile t = false.
Proof.
  intros Hd. unfold is_master_tile. rewrite Hd.
  by rewrite bool_decide_eq_false_2.
Qed.

(** C9: a derived tile with a non-empty title of its own keeps that title
    verbatim when it is made the master, whatever the generated postfix:
    the stripped title that the function computes is not stored. *)
Theorem make_master_from_tpcreated_keeps_title
    (old_master tpcreated : Tile) (w : World) (data : value) (title : string) :
  is_master_tile old_master = true →
  tile_options tpcreated !! "tpcreator_data" = Some data →
  tile_options tpcreated !! "tile_title" = Some (VStr title) →
  title ≠ EmptyString →
  ∃ new_master w',
    make_master_from_tpcreated old_master tpcreated w = (inr new_master, w') ∧
    tile_options new_master !! "tile_title" = Some (VStr title) ∧
    tiles w' = tiles w ++ [new_master].
Proof.
  intros Hold Hdata Htitle Hne.
  pose proof (is_master_tile_false _ _ Hdata) as Hnot.
  destruct (is_master_tile_true _ Hold) as (_ & uispec & Hu).
  unfold make_master_from_tpcreated. rewrite Hold, Hnot. cbn [negb].
  set (to := delete "tpcreator_data"
               (<["tpcreator_uispec" := uispec]> (tile_options tpcreated))).
  assert (to !! "tile_title" = Some (VStr title)) as Hto.
  { unfold to. by rewrite lookup_delete_ne, lookup_insert_ne by done. }
  assert (get_truthy to "tile_title" = true) as Htruthy.
  { unfold get_truthy. rewrite Hto. cbn [truthy]. by apply bool_decide_eq_true. }
  match goal with
  | |- context [Py.lift ?r] =>
      assert (r = inr to) as ->
  end.
  { unfold deepcopy. rewrite (getitem_Some _ "tpcreator_uispec" uispec) by done.
    rewrite result_bind_inr. cbv zeta.
    unfold delitem at 1. rewrite lookup_insert_ne, Hdata by done.
    rewrite result_bind_inr. fold to. rewrite Htruthy.
    assert (∀ r : Py.result (),
              r = inr () →
              (r ≫= λ _, match tile_options old_master !! "tile_title" with
                         | Some old_master_title =>
                             if truthy old_master_title && negb true
                             then
                               found ← py_in (generate_tile_title_postfix old_master)
                                             old_master_title;
                               old_master_title ←
                                 (if found : bool then
                                    s ← as_str old_master_title;
                                    inr (VStr (PyStr.replace s
                                                 (generate_tile_title_postfix old_master)
                                                 (generate_tile_title_postfix tpcreated)))
                                  else inr old_master_title);
                               inr (<["tile_title" := old_master_title]> to)
                             else inr to
                         | None => inr to
                         end) = inr to) as Hrest.
    { intros r ->. rewrite result_bind_inr.
      destruct (tile_options old_master !! "tile_title") as [v|]; [|done].
      by rewrite andb_false_r. }
    apply Hrest. case_decide; [|done].
    rewrite (getitem_Some _ "tile_title" (VStr title)) by done.
    rewrite result_bind_inr. cbn [py_in]. rewrite result_bind_inr.
    by destruct (PyStr.contains _ _). }
  rewrite M_bind_lift_inr. unfold insert_with_tile_options.
  eexists _, _. split; [done|].
  cbn [tile_options tiles]. by split.
Qed.

End promotion.

(** ** The TPCreator mod *)

Section tpcreator.
Context `{SS : SeriesSpecs} `{!Collaborators}.

Lemma setitem2_inv (d d' : gmap string value) (k1 k2 : string) (v : value) :
  setitem2 d k1 k2 v = inr d' →
  ∃ sub, d !! k1 = Some (VDict sub) ∧ d' = <[k1 := VDict (<[k2 := v]> sub)]> d.
Proof.
  unfold setitem2. destruct (d !! k1) as [[]|]; intros [= <-]. eauto.
Qed.

Lemma getitem_inv (d : gmap string value) (key : string) (v : value) :
  getitem d key = inr v → d !! key = Some v.
Proof. unfold getitem. destruct (d !! key); by intros [= <-]. Qed.

(** Two dictionaries that differ at most at [key]. *)
Definition agree_off (key : string) (a b : gmap string value) : Prop :=
  ∀ k, k ≠ key → a !! k = b !! k.

Lemma agree_off_insert (key : string) (a b : gmap string value) (x : value) :
  agree_off key a b → <[key := x]> a = <[key := x]> b.
Proof.
  intros Hab. apply map_eq. intros k. rewrite !lookup_insert.
  case_decide; [done|]. by apply Hab.
Qed.

Lemma agree_off_delete (key k' : string) (a b : gmap string value) :
  agree_off key a b → agree_off key (delete k' a) (delete k' b).
Proof.
  intros Hab k Hk. rewrite !lookup_delete. case_decide; [done|]. by apply Hab.
Qed.

Lemma setitem2_agree_off (d d' : gmap string value) (k1 k2 : string) (v : value) :
  setitem2 d k1 k2 v = inr d' → agree_off k1 d' d.
Proof.
  intros (sub & _ & ->)%setitem2_inv k Hk. by rewrite lookup_insert_ne.
Qed.

Lemma tile_options_of_tpcreated_inv
    (master_tile : Tile) (tpcreator_spec : option TpcreatorSpec)
    (tags : list string) (old_tpcreated : option Tile) (to : gmap string value) :
  _tile_options_of_tpcreated master_tile tpcreator_spec tags old_tpcreated = inr to →
  ∃ tw uispec data,
    tile_options master_tile !! "tw_type" = Some tw ∧
    tile_options master_tile !! "tpcreator_uispec" = Some uispec ∧
    to = <["tpcreator_data" := VDict (master_link master_tile uispec tpcreator_spec data)]>
           (delete "tpcreator_uispec"
              (Tile_insert_tile_options
                 (Tile_owner_id master_tile) (Tile_report_id master_tile)
                 {| cfg_tw_type := tw; cfg_tags := tags;
                    cfg_series_spec_list :=
                      series_specs_of_tpcreated master_tile old_tpcreated;
                    cfg_tile_options := inherited_options (tile_options master_tile) |})).
Proof.
  unfold _tile_options_of_tpcreated. intros Hto.
  apply bind_inr_inv in Hto as (tw & Htw%getitem_inv & Hto).
  fold (inherited_options (tile_options master_tile)) in Hto.
  set (partial := Tile_insert_tile_options _ _ _) in *. cbv zeta in Hto.
  set (to0 := if decide (partial !! "tpcreator_data" = None) then _ else _) in *.
  assert (agree_off "tpcreator_data" to0 partial) as H0.
  { intros k Hk. unfold to0.
    destruct (decide (partial !! "tpcreator_data" = None));
      [by rewrite lookup_insert_ne|done]. }
  apply bind_inr_inv in Hto as (to1 & H1 & Hto).
  assert (agree_off "tpcreator_data" to1 partial) as H1'.
  { destruct (tile_options master_tile !! "tile_title") as [title|];
      [|by inversion H1; subst].
    destruct (truthy title); [|by inversion H1; subst].
    apply bind_inr_inv in H1 as (v & _ & H1%setitem2_agree_off).
    intros k Hk. by rewrite H1, H0. }
  apply bind_inr_inv in Hto as (to2 & (d1 & Hd1 & ->)%setitem2_inv & Hto).
  apply bind_inr_inv in Hto as (uispec & Hu%getitem_inv & Hto).
  erewrite setitem2_Some in Hto by apply lookup_insert_eq.
  rewrite result_bind_inr in Hto.
  erewrite setitem2_Some in Hto by apply lookup_insert_eq.
  rewrite result_bind_inr in Hto. injection Hto as <-.
  exists tw, uispec, d1. split; [done|]. split; [done|].
  rewrite !insert_insert_eq. apply agree_off_insert. by apply agree_off_delete.
Qed.

Lemma tile_options_of_tpcreated_facts
    (master_tile : Tile) (tpcreator_spec : option TpcreatorSpec)
    (tags : list string) (old_tpcreated : option Tile) (to : gmap string value) :
  _tile_options_of_tpcreated master_tile tpcreator_spec tags old_tpcreated = inr to →
  to !! "tags" = Some (VTags tags) ∧
  master_tile_id_of to = Some (VId (tile_id master_tile)).
Proof.
  intros (tw & uispec & data & Htw & Hu & ->)%tile_options_of_tpcreated_inv. split.
  - rewrite (derived_options_lookup _ tw) by done. by rewrite !decide_False by done.
  - unfold master_tile_id_of. rewrite lookup_insert_eq. unfold master_link.
    rewrite lookup_insert_ne, lookup_insert_ne by done. apply lookup_insert_eq.
Qed.


Lemma Tile_select_Some (w : World) (dashboard : positive) (tid : TileId) (t : Tile) :
  Tile_select w dashboard tid = Some t →
  dashboard_id t = dashboard ∧ tile_id t = tid ∧ t ∈ tiles w.
Proof.
  unfold Tile_select. intros Hh%head_Some_elem_of.
  apply list_elem_of_filter in Hh as [[? ?] ?]. done.
Qed.




Lemma for_each_cons {S A : Type} (x : A) (xs : list A) (body : A → Py.M S ()) (s : S) :
  Py.for_each (x :: xs) body s =
    match body x s with
    | (inl e, s') => (inl e, s')
    | (inr _, s') => Py.for_each xs body s'
    end.
Proof. done. Qed.


Lemma add_tags_lookup (key m : TileId) (tags : list string)
    (tags_by : gmap TileId (gset (list string))) :
  default ∅ (add_tags key tags tags_by !! m) =
    if decide (key = m) then default ∅ (tags_by !! m) ∪ {[tags]}
    else default ∅ (tags_by !! m).
Proof.
  unfold add_tags. rewrite lookup_insert. by case_decide; subst.
Qed.






(** C10: the spec compiled from an empty UISpec is the dictionary with
    two empty lists; against a non-empty tag list it matches with the
    empty list, not [None]; the mod, which tests the match for truth,
    goes on to the next master as for a failed match. *)
Theorem empty_uispec_matches_empty_list :
  tpcreator_spec_from_tpcreator_uispec [] = mkTpcreatorSpec [] [] ∧
  (∀ (tag : string) (tags : list string),
     tags_matching_tpcreator_spec
       (Some (tpcreator_spec_from_tpcreator_uispec [])) (tag :: tags) = Some []) ∧
  (∀ report_instance layout_row max_tpcreated tags_by m (st : World * LayoutMod),
     tpcreator_mod_master report_instance layout_row max_tpcreated tags_by
       (m, Some (tpcreator_spec_from_tpcreator_uispec [])) st = (inr (), st)).
Proof.
  split; [done|]. split; [done|].
  intros ri row max tags_by m st. unfold tpcreator_mod_master.
  case_decide; [done|]. by destruct (ri_all_tags ri).
Qed.

End tpcreator.

(** ** Synchronizing the sizes of the tiles of a master *)

Section synchronize.
Context `{SS : SeriesSpecs} `{!Collaborators}.

(** [tid] is a tile created from the master [mid], by the props of the
    layout. *)
Definition is_tpcreated_of (props : gmap TileId Props) (mid tid : TileId) : Prop :=
  tid ≠ mid ∧ props_master_id <$> props !! tid = Some (Some mid).

Global Instance is_tpcreated_of_dec props mid tid : Decision (is_tpcreated_of props mid tid).
Proof. unfold is_tpcreated_of. apply _. Defined.

Definition same_size (master_vo vo : VO) : Prop :=
  vo_width vo = vo_width master_vo ∧ vo_height vo = vo_height master_vo.

Global Instance same_size_dec master_vo vo : Decision (same_size master_vo vo).
Proof. unfold same_size. apply _. Defined.

(** The placement [vo] with the size of [master_vo]. *)
Definition sized_as (master_vo vo : VO) : VO :=
  {| vo_x := vo_x vo; vo_y := vo_y vo;
     vo_width := vo_width master_vo; vo_height := vo_height master_vo |}.

(** The layout dictionary in which every tile created from [mid] has the
    size of [master_vo] and nothing else differs. *)
Definition synced_layout_dict (props : gmap TileId Props) (mid : TileId) (master_vo : VO)
    (d : gmap TileId VO) : gmap TileId VO :=
  map_imap (λ tid vo, Some (if decide (is_tpcreated_of props mid tid)
                            then sized_as master_vo vo else vo)) d.

Definition set_layout_dict (lm : LayoutMod) (d : gmap TileId VO) : LayoutMod :=
  {| lm_layout :=
       {| layout_id := layout_id (lm_layout lm);
          layout_dict := d;
          layout_props := layout_props (lm_layout lm) |};
     lm_new_tiles := lm_new_tiles lm;
     lm_tile_replacement := lm_tile_replacement lm |}.

Lemma set_layout_dict_id (lm : LayoutMod) :
  set_layout_dict lm (layout_dict (lm_layout lm)) = lm.
Proof. by destruct lm as [[] ? ?]. Qed.

Lemma set_layout_dict_twice (lm : LayoutMod) (d1 d2 : gmap TileId VO) :
  set_layout_dict (set_layout_dict lm d1) d2 = set_layout_dict lm d2.
Proof. done. Qed.

Lemma set_vo_run (f : VO → VO) (tid : TileId) (lm : LayoutMod) :
  set_vo f tid lm = (inr (), set_layout_dict lm (alter f tid (layout_dict (lm_layout lm)))).
Proof. done. Qed.

Lemma sized_as_same (master_vo vo : VO) :
  vo_width vo = vo_width master_vo → vo_height vo = vo_height master_vo →
  sized_as master_vo vo = vo.
Proof. destruct vo. unfold sized_as. cbn. by intros -> ->. Qed.

(** The two assignments to [vo] in the body of the loop. *)
Lemma synchronize_one (tid : TileId) (master_vo vo : VO) (changed : bool)
    (k : bool → Py.M LayoutMod bool) (lm : LayoutMod) :
  layout_dict (lm_layout lm) !! tid = Some vo →
  (changed ←
     (if decide (vo_width vo ≠ vo_width master_vo)
      then set_vo (with_width (vo_width master_vo)) tid ;; Py.ret true
      else Py.ret changed);
   changed ←
     (if decide (vo_height vo ≠ vo_height master_vo)
      then set_vo (with_height (vo_height master_vo)) tid ;; Py.ret true
      else Py.ret changed);
   k changed) lm
  = k (changed || bool_decide (¬ same_size master_vo vo))
      (set_layout_dict lm (<[tid := sized_as master_vo vo]> (layout_dict (lm_layout lm)))).
Proof.
  intros Hvo. destruct lm as [[lid d P] nt tr]. cbn [lm_layout layout_dict] in *.
  assert (∀ f, alter f tid d = <[tid := f vo]> d) as Halter.
  { intros f. apply map_eq. intros j. rewrite lookup_alter, lookup_insert.
    case_decide; [subst; by rewrite Hvo|done]. }
  unfold same_size.
  destruct (decide (vo_width vo ≠ vo_width master_vo)) as [Hw|Hw];
    destruct (decide (vo_height vo ≠ vo_height master_vo)) as [Hh|Hh];
    rewrite !M_bind_run, ?set_vo_run; cbn [Py.ret Py.bind lm_layout layout_dict];
    unfold set_layout_dict; cbn [lm_layout layout_dict layout_id layout_props
                                 lm_new_tiles lm_tile_replacement].
  - rewrite !M_bind_run, ?set_vo_run. cbn [Py.ret lm_layout layout_dict].
    unfold set_layout_dict; cbn [lm_layout layout_dict layout_id layout_props
                                 lm_new_tiles lm_tile_replacement].
    rewrite bool_decide_eq_true_2, orb_true_r by tauto.
    rewrite Halter, alter_insert_eq. done.
  - rewrite bool_decide_eq_true_2, orb_true_r by tauto.
    rewrite Halter. repeat f_equal. unfold with_width, sized_as. f_equal.
    by destruct (decide (vo_height vo = vo_height master_vo)).
  - rewrite !M_bind_run, ?set_vo_run. cbn [Py.ret lm_layout layout_dict].
    unfold set_layout_dict; cbn [lm_layout layout_dict layout_id layout_props
                                 lm_new_tiles lm_tile_replacement].
    rewrite bool_decide_eq_true_2, orb_true_r by tauto.
    rewrite Halter. repeat f_equal. unfold with_height, sized_as. f_equal.
    by destruct (decide (vo_width vo = vo_width master_vo)).
  - rewrite bool_decide_eq_false_2, orb_false_r.
    + rewrite sized_as_same; [by rewrite insert_id| |].
      * by destruct (decide (vo_width vo = vo_width master_vo)).
      * by destruct (decide (vo_height vo = vo_height master_vo)).
    + intros Hn. apply Hn. split.
      * by destruct (decide (vo_width vo = vo_width master_vo)).
      * by destruct (decide (vo_height vo = vo_height master_vo)).
Qed.

(** A tile of [items] that the loop has to resize. *)
Definition to_resize (props : gmap TileId Props) (mid : TileId) (master_vo : VO)
    (item : TileId * VO) : Prop :=
  is_tpcreated_of props mid item.1 ∧ ¬ same_size master_vo item.2.

Global Instance to_resize_dec props mid master_vo item :
  Decision (to_resize props mid master_vo item).
Proof. unfold to_resize. apply _. Defined.

Lemma synchronize_loop_spec (mid : TileId) (master_vo : VO)
    (items : list (TileId * VO)) (changed : bool) (lm : LayoutMod) :
  NoDup items.*1 →
  (∀ tid vo, (tid, vo) ∈ items →
             layout_dict (lm_layout lm) !! tid = Some vo ∧
             (tid ≠ mid → is_Some (layout_props (lm_layout lm) !! tid))) →
  ∃ d', synchronize_loop mid master_vo items changed lm
        = (inr (changed ||
                bool_decide (Exists (to_resize (layout_props (lm_layout lm)) mid master_vo)
                                    items)),
           set_layout_dict lm d') ∧
        ∀ tid, d' !! tid =
                 if decide (tid ∈ items.*1 ∧
                            is_tpcreated_of (layout_props (lm_layout lm)) mid tid)
                 then sized_as master_vo <$> layout_dict (lm_layout lm) !! tid
                 else layout_dict (lm_layout lm) !! tid.
Proof.
  revert changed lm. induction items as [|[tid vo] items IH]; intros changed lm Hnd Hitems.
  - exists (layout_dict (lm_layout lm)). split.
    + cbn [synchronize_loop]. rewrite bool_decide_eq_false_2, orb_false_r
        by (by intros ?%Exists_nil).
      by rewrite set_layout_dict_id.
    + intros tid'. rewrite decide_False; [done|]. by intros [?%elem_of_nil _].
  - rewrite fmap_cons in Hnd. apply NoDup_cons in Hnd as [Hfresh Hnd]. cbn [fst] in Hfresh.
    destruct (Hitems tid vo) as [Hvo Hprops]; [by left|].
    cbn [synchronize_loop]. rewrite M_bind_run. cbn [Py.gets]. unfold get_tile_props.
    set (P := layout_props (lm_layout lm)).
    assert ((if decide (tid ≠ mid)
             then props_master_id ← Py.lift (props_get_master_id (P !! tid));
                  Py.ret (bool_decide (props_master_id = Some mid))
             else Py.ret false) lm
            = (inr (bool_decide (is_tpcreated_of P mid tid)), lm)) as Htest.
    { case_decide as Hne.
      - destruct (Hprops Hne) as [props Hp]. fold P in Hp. rewrite Hp.
        cbn [props_get_master_id]. rewrite M_bind_lift_inr. unfold Py.ret.
        do 2 f_equal. apply bool_decide_ext. unfold is_tpcreated_of.
        rewrite Hp. cbn.
        split; [intros ->; by split|by intros [_ [= ->]]].
      - unfold Py.ret. do 2 f_equal. symmetry. apply bool_decide_eq_false_2.
        unfold is_tpcreated_of. tauto. }
    rewrite M_bind_run, Htest.
    destruct (decide (is_tpcreated_of P mid tid)) as [Hd|Hd].
    + rewrite bool_decide_eq_true_2 by done. rewrite synchronize_one by done.
      set (lm1 := set_layout_dict lm _).
      destruct (IH (changed || bool_decide (¬ same_size master_vo vo)) lm1 Hnd)
        as (d' & Hrun & Hd').
      { intros tid' vo' Hin. unfold lm1. cbn [set_layout_dict lm_layout layout_dict
                                               layout_props].
        destruct (Hitems tid' vo') as [? ?]; [by right|]. split; [|done].
        rewrite lookup_insert_ne; [done|]. intros ->. apply Hfresh.
        apply list_elem_of_fmap. by exists (tid', vo'). }
      exists d'. split.
      * rewrite Hrun. unfold lm1. rewrite set_layout_dict_twice. f_equal. f_equal.
        rewrite <-orb_assoc. f_equal.
        cbn [set_layout_dict lm_layout layout_props]. fold P.
        destruct (decide (same_size master_vo vo)) as [Hs|Hs].
        -- rewrite (bool_decide_eq_false_2 (¬ _)) by tauto. cbn [orb].
           apply bool_decide_ext. rewrite Exists_cons. unfold to_resize at 2.
           cbn [fst snd]. tauto.
        -- rewrite (bool_decide_eq_true_2 (¬ _)) by tauto. cbn [orb].
           symmetry. apply bool_decide_eq_true_2, Exists_cons_hd. by split.
      * intros tid'. rewrite Hd'. unfold lm1.
        cbn [set_layout_dict lm_layout layout_dict layout_props]. fold P.
        rewrite fmap_cons. cbn [fst].
        destruct (decide (tid' = tid)) as [->|Hne].
        -- rewrite decide_False by tauto. rewrite lookup_insert_eq, Hvo.
           rewrite decide_True; [done|]. split; [by left|done].
        -- rewrite lookup_insert_ne by done.
           apply decide_ext. rewrite elem_of_cons.
           split; [intros [? ?]; split; [by right|done]
                  |intros [[?|?] ?]; [done|by split]].
    + rewrite bool_decide_eq_false_2 by done.
      destruct (IH changed lm Hnd) as (d' & Hrun & Hd').
      { intros tid' vo' Hin. apply Hitems. by right. }
      exists d'. split.
      * rewrite Hrun. f_equal. f_equal. f_equal. fold P.
        apply bool_decide_ext. rewrite Exists_cons. unfold to_resize at 2.
        cbn [fst snd]. tauto.
      * intros tid'. rewrite Hd'. fold P. rewrite fmap_cons. cbn [fst].
        destruct (decide (tid' = tid)) as [->|Hne].
        -- rewrite !decide_False; [done|tauto|tauto].
        -- apply decide_ext. rewrite elem_of_cons.
           split; [intros [? ?]; split; [by right|done]
                  |intros [[?|?] ?]; [done|by split]].
Qed.


End synchronize.

(** ** Replacing the tiles created from a master *)

Section replace.
Context `{SS : SeriesSpecs} `{!Collaborators}.

(** A tile whose [tpcreator_data], when it has one, is a dictionary. *)
Definition tpcreator_data_wf (t : Tile) : Prop :=
  ∀ v, tile_options t !! "tpcreator_data" = Some v → ∃ d, v = VDict d.

Lemma sync_tpcreator_data_eq
    (master_tile tpcreated : Tile) (tpcreator_spec : option TpcreatorSpec)
    (uispec : value) :
  tile_options master_tile !! "tpcreator_uispec" = Some uispec →
  tpcreator_data_wf tpcreated →
  ∃ data,
    _sync_tpcreator_data master_tile tpcreated tpcreator_spec
    = inr (<["tpcreator_data" :=
               VDict (master_link master_tile uispec tpcreator_spec data)]>
             (tile_options tpcreated)).
Proof.
  intros Hu Hwf. unfold _sync_tpcreator_data, deepcopy.
  destruct (tile_options tpcreated !! "tpcreator_data") as [v|] eqn:Hd.
  - destruct (Hwf v Hd) as [d ->]. exists d.
    rewrite decide_False by done.
    by erewrite master_link_steps.
  - exists ∅. rewrite decide_True by done.
    erewrite master_link_steps; [|apply lookup_insert_eq|done].
    by rewrite insert_insert_eq.
Qed.

Lemma Tile_select_multi_lookup (w : World) (dashboard : positive)
    (tids : list TileId) (tid : TileId) :
  Tile_select_multi w dashboard tids !! tid =
    if decide (tid ∈ tids) then Tile_select w dashboard tid else None.
Proof.
  unfold Tile_select_multi.
  set (f := λ tid : TileId, (λ t, (tid, t)) <$> Tile_select w dashboard tid).
  induction tids as [|tid' tids IH].
  - rewrite decide_False by (by intros ?%elem_of_nil). apply lookup_empty.
  - change (omap f (tid' :: tids))
      with (match f tid' with Some y => y :: omap f tids | None => omap f tids end).
    unfold f at 1.
    destruct (decide (tid = tid')) as [->|Hne].
    + rewrite decide_True by (by left).
      destruct (Tile_select w dashboard tid') as [t|] eqn:Hsel; cbn [fmap option_fmap option_map].
      * apply lookup_insert_eq.
      * rewrite IH. by case_decide.
    + destruct (Tile_select w dashboard tid') as [t|]; cbn [fmap option_fmap option_map].
      * cbn [list_to_map foldr]. rewrite lookup_insert_ne by done. rewrite IH.
        apply decide_ext. rewrite elem_of_cons.
        split; [by right|by intros [?|?]].
      * rewrite IH. apply decide_ext. rewrite elem_of_cons.
        split; [by right|by intros [?|?]].
Qed.

Lemma map_result_Forall2 {A B : Type} (f : A → Py.result B) (Q : A → B → Prop)
    (xs : list A) :
  (∀ x, x ∈ xs → ∃ y, f x = inr y ∧ Q x y) →
  ∃ ys, Py.map_result f xs = inr ys ∧ Forall2 Q xs ys.
Proof.
  induction xs as [|x xs IH]; intros Hxs; cbn [Py.map_result].
  - exists []. by split.
  - destruct (Hxs x) as (y & -> & Hy); [by left|].
    destruct IH as (ys & -> & Hys); [intros x' ?; apply Hxs; by right|].
    exists (y :: ys). split; [done|]. by constructor.
Qed.

Lemma insert_with_tile_options_multi_run (dashboard : positive)
    (tos : list (gmap string value)) (w : World) :
  ∃ ts w', insert_with_tile_options_multi dashboard tos w = (inr ts, w') ∧
           tile_options <$> ts = tos ∧
           tiles w' = tiles w ++ ts.
Proof.
  revert w. induction tos as [|to tos IH]; intros w; cbn [insert_with_tile_options_multi].
  - exists [], w. split; [done|]. split; [done|]. by rewrite app_nil_r.
  - rewrite M_bind_run. cbn [insert_with_tile_options].
    set (w1 := mkWorld _ _ _). destruct (IH w1) as (ts & w' & Hrun & Hto & Htiles).
    rewrite M_bind_run, Hrun. eexists (_ :: ts), w'. split; [done|].
    split; [by rewrite fmap_cons, Hto|].
    rewrite Htiles. unfold w1. cbn [tiles]. by rewrite <-app_assoc.
Qed.

Lemma Forall2_zip_elem_of {A B : Type} (R : A → B → Prop) (xs : list A) (ys : list B) :
  Forall2 R xs ys →
  (∀ x y, (x, y) ∈ zip xs ys → R x y ∧ y ∈ ys) ∧
  (∀ x, x ∈ xs → ∃ y, (x, y) ∈ zip xs ys).
Proof.
  induction 1 as [|x y xs ys Hxy Hall [IH1 IH2]]; cbn [zip zip_with].
  - split; [by intros x y ?%elem_of_nil|by intros x ?%elem_of_nil].
  - split.
    + intros x' y' [[= -> ->]|Hin]%elem_of_cons; [split; [done|by left]|].
      destruct (IH1 x' y' Hin). split; [done|by right].
    + intros x' [->|Hin]%elem_of_cons; [exists y; by left|].
      destruct (IH2 x' Hin) as [y' ?]. exists y'. by right.
Qed.

(** The tiles of the old master that [replace_tpcreated] replaces. *)
Definition replaced_tile (layout : Layout) (old_master : Tile) (skip : gset TileId)
    (w : World) (t : Tile) : Prop :=
  ∃ tid, tid ∈ get_tpcreated_tile_ids layout (tile_id old_master) ∧
         (tid ∉ skip) ∧
         Tile_select w (dashboard_id old_master) tid = Some t.

(** C5: [replace_tpcreated] returns a mapping that is defined on every
    stored tile created from the old master and not to be skipped; each
    replacement is a new tile, has the new master's tile id in its
    [tpcreator_data], and has the tags of the tile it replaces. *)
Theorem replace_tpcreated_mapping
    (layout : Layout) (old_master new_master : Tile) (sync_tpcreated : bool)
    (skip_replacements : gset TileId) (w : World) (props : Props) (tw : value) :
  get_tile_props layout (tile_id old_master) = Some props →
  is_master_tile new_master = true →
  tile_options new_master !! "tw_type" = Some tw →
  title_is_str new_master →
  Forall tpcreator_data_wf (tiles w) →
  ∃ tile_replacement w',
    replace_tpcreated layout old_master new_master sync_tpcreated skip_replacements w
      = (inr tile_replacement, w') ∧
    tiles w' = tiles w ++ tile_replacement.*2 ∧
    (∀ t, replaced_tile layout old_master skip_replacements w t →
          ∃ r, (t, r) ∈ tile_replacement) ∧
    (∀ t r, (t, r) ∈ tile_replacement →
            replaced_tile layout old_master skip_replacements w t ∧
            master_tile_id_of (tile_options r) = Some (VId (tile_id new_master)) ∧
            Tile_tags r = Tile_tags t).
Proof.
  intros Hprops Hmaster Htw Htitle Hwf.
  destruct (is_master_tile_true _ Hmaster) as (Hnodata & uispec & Hu).
  unfold replace_tpcreated. rewrite Hprops, M_bind_lift_inr. cbv zeta.
  set (ids := if decide (skip_replacements ≠ ∅) then _ else _).
  assert (∀ tid, tid ∈ ids ↔
                 tid ∈ get_tpcreated_tile_ids layout (tile_id old_master) ∧
                 (tid ∉ skip_replacements)) as Hids.
  { intros tid. unfold ids. case_decide as Hskip.
    - rewrite list_elem_of_filter. tauto.
    - assert (skip_replacements = ∅) as ->
        by (by destruct (decide (skip_replacements = ∅))).
      split; [intros ?; split; [done|apply not_elem_of_empty]|by intros [? _]]. }
  rewrite M_bind_run. cbn [Py.gets].
  set (values := (map_to_list (Tile_select_multi w (dashboard_id old_master) ids)).*2).
  assert (∀ t, t ∈ values ↔ replaced_tile layout old_master skip_replacements w t)
    as Hvalues.
  { intros t. unfold values, replaced_tile. rewrite list_elem_of_fmap. split.
    - intros ([tid t'] & -> & Hin%elem_of_map_to_list). cbn [snd].
      rewrite Tile_select_multi_lookup in Hin. case_decide as Hi; [|done].
      apply Hids in Hi as [? ?]. eauto.
    - intros (tid & ? & ? & Hsel). exists (tid, t). split; [done|].
      apply elem_of_map_to_list. rewrite Tile_select_multi_lookup.
      rewrite decide_True; [done|]. by apply Hids. }
  set (derive := λ tile : Tile, if sync_tpcreated then _ else _).
  destruct (map_result_Forall2 derive
              (λ t to, master_tile_id_of to = Some (VId (tile_id new_master)) ∧
                       to !! "tags" = tile_options t !! "tags" ∨
                       master_tile_id_of to = Some (VId (tile_id new_master)) ∧
                       to !! "tags" = Some (VTags (Tile_tags t)))
              values) as (tos & Htos & Hall).
  { intros t Ht. unfold derive. destruct sync_tpcreated.
    - destruct (_tile_options_of_tpcreated new_master (props_tpcreator_spec props)
                  (Tile_tags t) (Some t)) as [e|to] eqn:Hto.
      + by rewrite (tile_options_of_tpcreated_eq _ _ _ _ tw uispec) in Hto.
      + exists to. split; [done|]. right.
        apply tile_options_of_tpcreated_facts in Hto as [? ?]. done.
    - destruct (sync_tpcreator_data_eq new_master t (props_tpcreator_spec props) uispec)
        as [data ->]; [done| |].
      + apply Hvalues in Ht as (tid & _ & _ & (_ & _ & Hin)%Tile_select_Some).
        rewrite Forall_forall in Hwf. by apply Hwf.
      + eexists. split; [done|]. left. split.
        * unfold master_tile_id_of. rewrite lookup_insert_eq. unfold master_link.
          rewrite lookup_insert_ne, lookup_insert_ne by done. apply lookup_insert_eq.
        * by rewrite lookup_insert_ne. }
  rewrite Htos, M_bind_lift_inr.
  destruct (insert_with_tile_options_multi_run (dashboard_id old_master) tos w)
    as (ts & w' & Hrun & Hto & Htiles).
  rewrite M_bind_run, Hrun. exists (zip values ts), w'. split; [done|].
  assert (length values = length ts) as Hlen.
  { apply Forall2_length in Hall. by rewrite Hall, <-Hto, length_fmap. }
  split; [by rewrite snd_zip by lia|].
  assert (Forall2 (λ t r, master_tile_id_of (tile_options r)
                            = Some (VId (tile_id new_master)) ∧
                          Tile_tags r = Tile_tags t) values ts) as Hall'.
  { rewrite <-Hto in Hall. apply Forall2_fmap_r in Hall.
    eapply Forall2_impl; [exact Hall|]. intros t r. cbn beta. unfold Tile_tags.
    by intros [[? ->]|[? ->]]. }
  apply Forall2_zip_elem_of in Hall' as [Hz1 Hz2]. split.
  - intros t Ht%Hvalues. by apply Hz2.
  - intros t r Hin. destruct (Hz1 t r Hin) as [[? ?] _]. split; [|done].
    apply Hvalues. eapply elem_of_zip_l. exact Hin.
Qed.

End replace.

(** ** More on the TagSpec functions *)

Lemma contains_char_split_head (c : ascii) (s : string) :
  PyStr.contains_char c (PyStr.split_head c s) = false.
Proof.
  induction s as [|a s IH]; simpl; [done|].
  case_decide as Ha; simpl; [done|]. by rewrite decide_False.
Qed.

Lemma startswith_split_head (c : ascii) (s : string) :
  PyStr.startswith s (PyStr.split_head c s) = true.
Proof.
  unfold PyStr.startswith. induction s as [|a s IH]; simpl; [done|].
  case_decide; simpl; [done|]. by destruct (ascii_dec a a).
Qed.

Lemma startswith_tpcreator_prefix_inv (tag : string) :
  PyStr.startswith tag (_tpcreator_prefix tag) = true →
  PyStr.contains_char TPCREATOR_SEPARATOR tag = true.
Proof.
  unfold PyStr.startswith, _tpcreator_prefix, String.app.
  induction tag as [|a s IH]; simpl; [done|].
  case_decide as Ha; simpl; [done|].
  destruct (ascii_dec a a); [|done]. apply IH.
Qed.

Lemma split_head_decompose (c : ascii) (s : string) :
  PyStr.contains_char c s = true →
  ∃ rest, s = PyStr.split_head c s +:+ String c rest.
Proof.
  induction s as [|a s IH]; simpl; [done|].
  case_decide as Ha.
  - intros _. exists s. by rewrite Ha.
  - intros [rest Hrest]%IH. exists rest.
    change (String a s = String a (PyStr.split_head c s +:+ String c rest)).
    by f_equal.
Qed.

Lemma split_head_absent (c : ascii) (s : string) :
  PyStr.contains_char c s = false → PyStr.split_head c s = s.
Proof.
  induction s as [|a s IH]; simpl; [done|].
  case_decide; [done|]. intros ?%IH. by f_equal.
Qed.

(** [_tpcreator_prefix(tag)] is the part of the tag before its first
    separator, followed by the separator: for a tag [head:rest] with no
    separator in [head] it is [head:], and for a tag without separator
    it is the tag followed by the separator.  The tag starts with it
    exactly when the tag contains the separator. *)
Theorem tpcreator_prefix_is_prefix_iff (tag : string) :
  PyStr.startswith tag (_tpcreator_prefix tag)
    = PyStr.contains_char TPCREATOR_SEPARATOR tag ∧
  if PyStr.contains_char TPCREATOR_SEPARATOR tag
  then ∃ head rest,
         tag = head +:+ String TPCREATOR_SEPARATOR rest ∧
         PyStr.contains_char TPCREATOR_SEPARATOR head = false ∧
         _tpcreator_prefix tag = head +:+ String TPCREATOR_SEPARATOR EmptyString
  else _tpcreator_prefix tag = tag +:+ String TPCREATOR_SEPARATOR EmptyString.
Proof.
  split.
  - destruct (PyStr.contains_char TPCREATOR_SEPARATOR tag) eqn:Hc.
    + by apply startswith_tpcreator_prefix.
    + destruct (PyStr.startswith tag (_tpcreator_prefix tag)) eqn:Hs; [|done].
      apply startswith_tpcreator_prefix_inv in Hs. congruence.
  - destruct (PyStr.contains_char TPCREATOR_SEPARATOR tag) eqn:Hc.
    + destruct (split_head_decompose _ _ Hc) as [rest Hrest].
      exists (PyStr.split_head TPCREATOR_SEPARATOR tag), rest.
      split; [done|]. split; [apply contains_char_split_head|done].
    + unfold _tpcreator_prefix. by rewrite split_head_absent.
Qed.

(** [suggested_tpcreator_uispec] gives one entry per tag, in the order of
    the tags; the prefix of an entry is a prefix of its tag, it is the
    tag itself for a tag without separator and ends at the first
    separator otherwise. *)
Theorem suggested_tpcreator_uispec_entries (tags : list string) :
  uis_tag <$> suggested_tpcreator_uispec tags = tags ∧
  Forall (λ d, PyStr.startswith (uis_tag d) (uis_prefix d) = true ∧
               uis_prefix d =
                 if PyStr.contains_char TPCREATOR_SEPARATOR (uis_tag d)
                 then _tpcreator_prefix (uis_tag d) else uis_tag d)
         (suggested_tpcreator_uispec tags).
Proof.
  split; [apply suggested_tpcreator_uispec_tags|].
  rewrite suggested_tpcreator_uispec_fmap.
  apply Forall_fmap, Forall_forall. intros t Ht. unfold suggested_entry. cbn.
  destruct (PyStr.contains_char TPCREATOR_SEPARATOR t) eqn:Hc; cbn; rewrite Hc.
  - split; [by apply startswith_tpcreator_prefix|done].
  - split; [apply startswith_refl|done].
Qed.

Global Instance len_le_total : Total len_le.
Proof. intros p q. unfold len_le. lia. Qed.

Global Instance len_le_trans : Transitive len_le.
Proof. intros p q r. unfold len_le. lia. Qed.

Lemma startswith_length (s p : string) :
  PyStr.startswith s p = true → (String.length p ≤ String.length s)%nat.
Proof.
  unfold PyStr.startswith. revert s. induction p as [|a p IH]; intros [|b s]; simpl;
    try done; [lia|]. destruct (ascii_dec a b); [|done]. intros ?%IH. lia.
Qed.

Lemma startswith_nil (s : string) : PyStr.startswith s EmptyString = true.
Proof. by destruct s. Qed.

Lemma suggested_tpcreator_prefixes_startswith (tag p : string) :
  p ∈ suggested_tpcreator_prefixes tag → PyStr.startswith tag p = true.
Proof.
  unfold suggested_tpcreator_prefixes. cbv zeta.
  destruct (PyStr.contains_char TPCREATOR_SEPARATOR tag) eqn:Hc; cbn [app].
  - intros [-> | [-> | ->%list_elem_of_singleton]%elem_of_cons]%elem_of_cons.
    + apply startswith_nil.
    + by apply startswith_tpcreator_prefix.
    + apply startswith_refl.
  - intros [-> | ->%list_elem_of_singleton]%elem_of_cons.
    + apply startswith_nil.
    + apply startswith_refl.
Qed.

(** [suggested_tpcreator_prefixes(tag)] is the empty prefix, then for a
    tag [head:rest] with no separator in [head] the prefix [head:], then
    the tag itself; a tag without separator gets the empty prefix and
    the tag only.  Every suggestion is a prefix of the tag, no longer
    than the next one. *)
Theorem suggested_tpcreator_prefixes_spec (tag : string) :
  (if PyStr.contains_char TPCREATOR_SEPARATOR tag
   then ∃ head rest,
          tag = head +:+ String TPCREATOR_SEPARATOR rest ∧
          PyStr.contains_char TPCREATOR_SEPARATOR head = false ∧
          suggested_tpcreator_prefixes tag
            = [EmptyString; head +:+ String TPCREATOR_SEPARATOR EmptyString; tag]
   else suggested_tpcreator_prefixes tag = [EmptyString; tag]) ∧
  head (suggested_tpcreator_prefixes tag) = Some EmptyString ∧
  last (suggested_tpcreator_prefixes tag) = Some tag ∧
  length (suggested_tpcreator_prefixes tag) =
    (if PyStr.contains_char TPCREATOR_SEPARATOR tag then 3 else 2)%nat ∧
  Forall (λ p, PyStr.startswith tag p = true) (suggested_tpcreator_prefixes tag) ∧
  Sorted len_le (suggested_tpcreator_prefixes tag).
Proof.
  unfold suggested_tpcreator_prefixes. cbv zeta.
  destruct (PyStr.contains_char TPCREATOR_SEPARATOR tag) eqn:Hc; cbn [app].
  - pose proof (startswith_tpcreator_prefix tag Hc) as Hp.
    split.
    { destruct (split_head_decompose _ _ Hc) as [rest Hrest].
      exists (PyStr.split_head TPCREATOR_SEPARATOR tag), rest.
      split; [done|]. split; [apply contains_char_split_head|done]. }
    split; [done|]. split; [done|]. split; [done|]. split.
    + apply Forall_cons; split; [apply startswith_nil|].
      apply Forall_cons; split; [done|].
      apply Forall_cons; split; [apply startswith_refl|constructor].
    + apply Sorted_cons; [apply Sorted_cons; [apply Sorted_cons; constructor|]|].
      * constructor. by apply startswith_length.
      * constructor. unfold len_le. cbn [String.length]. lia.
  - split; [done|]. split; [done|]. split; [done|]. split; [done|]. split.
    + apply Forall_cons; split; [apply startswith_nil|].
      apply Forall_cons; split; [apply startswith_refl|constructor].
    + apply Sorted_cons; [apply Sorted_cons; constructor|].
      constructor. unfold len_le. cbn [String.length]. lia.
Qed.

(** A UISpec in which every entry takes one of the prefixes suggested for
    its tag matches, once compiled, its own tag values: the match is the
    list of the tag values, sorted and without duplicates. *)
Theorem suggested_prefixes_roundtrip (uispec : list UispecEntry) :
  uispec ≠ [] →
  Forall (λ d, uis_prefix d ∈ suggested_tpcreator_prefixes (uis_tag d)) uispec →
  tags_matching_tpcreator_spec
    (Some (tpcreator_spec_from_tpcreator_uispec uispec)) (uis_tag <$> uispec)
  = Some (sorted_str (uniq_sameorder (uis_tag <$> uispec))).
Proof.
  intros Hne Hall. apply compile_match_roundtrip; [done|].
  eapply Forall_impl; [exact Hall|]. intros d Hd. unfold uispec_entry_wf.
  by apply suggested_tpcreator_prefixes_startswith.
Qed.

(** The compiled spec: a tag is a full tag iff some entry has it as tag
    and as prefix; a prefix is listed iff some entry has it as a prefix
    other than its tag; the prefixes are listed once each, shortest
    first. *)
Theorem tpcreator_spec_from_tpcreator_uispec_spec (uispec : list UispecEntry) :
  let spec := tpcreator_spec_from_tpcreator_uispec uispec in
  (∀ t, t ∈ full_tags spec ↔
        ∃ d, d ∈ uispec ∧ uis_tag d = t ∧ uis_prefix d = t) ∧
  (∀ p, p ∈ prefixes spec ↔
        ∃ d, d ∈ uispec ∧ uis_prefix d = p ∧ uis_tag d ≠ p) ∧
  NoDup (prefixes spec) ∧
  Sorted len_le (prefixes spec) ∧
  (length (full_tags spec) + length (prefixes spec) ≤ length uispec)%nat.
Proof.
  intros spec. split; [|split; [|split; [|split]]].
  - intros t. unfold spec. rewrite elem_of_compiled_full_tags. split.
    + intros (d & ? & <- & Heq). exists d. by rewrite <-Heq.
    + intros (d & ? & <- & Hp). exists d. by rewrite Hp.
  - intros p. unfold spec. rewrite elem_of_compiled_prefixes. split.
    + intros (d & ? & <- & ?). eauto.
    + intros (d & ? & <- & ?). eauto.
  - unfold spec, tpcreator_spec_from_tpcreator_uispec. cbn [prefixes].
    unfold sort_by_len. rewrite list_sort_Permutation.
    apply NoDup_uniq_sameorder.
  - unfold spec, tpcreator_spec_from_tpcreator_uispec. cbn [prefixes].
    apply Sorted_list_sort, _.
  - unfold spec, tpcreator_spec_from_tpcreator_uispec. cbn [prefixes full_tags].
    unfold sort_by_len.
    rewrite list_sort_Permutation, length_fmap.
    pose proof (sublist_uniq_sameorder_go (λ y : string, y) []
                  (uis_prefix <$> filter (λ d, uis_tag d ≠ uis_prefix d) uispec)) as Hs.
    apply sublist_length in Hs. rewrite length_fmap in Hs.
    unfold uniq_sameorder, uniq_sameorder_key.
    assert (length (filter (λ d, uis_tag d = uis_prefix d) uispec)
            + length (filter (λ d, uis_tag d ≠ uis_prefix d) uispec)
            = length uispec)%nat as Hlen.
    { clear. induction uispec as [|d l IH]; [done|].
      rewrite !filter_cons. destruct (decide (uis_tag d = uis_prefix d)).
      - rewrite decide_False by tauto. cbn. lia.
      - rewrite decide_True by tauto. cbn. lia. }
    lia.
Qed.

(** ** More on matching *)

Lemma tags_matching_Some_inv (tpcreator_spec : option TpcreatorSpec)
    (tags r : list string) :
  tags_matching_tpcreator_spec tpcreator_spec tags = Some r →
  ∃ spec, tpcreator_spec = Some spec ∧ tags ≠ [] ∧
          (∀ ft, ft ∈ full_tags spec → ft ∈ tags) ∧
          (∀ p, p ∈ prefixes spec → ∃ t, t ∈ tags ∧ PyStr.startswith t p = true) ∧
          is_matched_tags spec tags r.
Proof.
  intros Hm. pose proof (tags_matching_cases tpcreator_spec tags) as Hc.
  rewrite Hm in Hc. destruct Hc as (Hno & spec & -> & Hr).
  exists spec. split; [done|]. split; [|split; [|split; [|done]]].
  - intros ->. apply Hno. by right; left.
  - intros ft Hft. destruct (decide (ft ∈ tags)) as [|Hn]; [done|].
    exfalso. apply Hno. right; right. exists spec. split; [done|]. left. eauto.
  - intros p Hp.
    destruct (decide (Exists (λ t, PyStr.startswith t p = true) tags)) as [He|He].
    + apply Exists_exists in He. done.
    + exfalso. apply Hno. right; right. exists spec. split; [done|]. right.
      exists p. split; [done|]. intros t Ht.
      destruct (PyStr.startswith t p) eqn:Hs; [|done].
      exfalso. apply He, Exists_exists. eauto.
Qed.

Lemma tags_matching_Some_intro (spec : TpcreatorSpec) (tags : list string) :
  tags ≠ [] →
  (∀ ft, ft ∈ full_tags spec → ft ∈ tags) →
  (∀ p, p ∈ prefixes spec → ∃ t, t ∈ tags ∧ PyStr.startswith t p = true) →
  ∃ r, tags_matching_tpcreator_spec (Some spec) tags = Some r ∧
       is_matched_tags spec tags r.
Proof.
  intros Hne Hft Hp. pose proof (tags_matching_cases (Some spec) tags) as Hc.
  destruct (tags_matching_tpcreator_spec (Some spec) tags) as [r|].
  - destruct Hc as (_ & spec' & [= <-] & Hr). eauto.
  - exfalso.
    destruct Hc as [?|[?|(spec' & [= <-] & [(ft & Hin & Hnot)|(p & Hin & Hnone)])]];
      [done|done|by apply Hnot, Hft|].
    destruct (Hp p Hin) as (t & Ht & Hs). by rewrite Hnone in Hs.
Qed.

(** The match depends only on which tags occur in the tag list: order
    and repetitions make no difference. *)
Theorem tags_matching_tpcreator_spec_set
    (tpcreator_spec : option TpcreatorSpec) (tags1 tags2 : list string) :
  (∀ t, t ∈ tags1 ↔ t ∈ tags2) →
  tags_matching_tpcreator_spec tpcreator_spec tags1
    = tags_matching_tpcreator_spec tpcreator_spec tags2.
Proof.
  assert (∀ a b r, (∀ t : string, t ∈ a ↔ t ∈ b) →
                   tags_matching_tpcreator_spec tpcreator_spec a = Some r →
                   tags_matching_tpcreator_spec tpcreator_spec b = Some r) as Hone.
  { intros a b r Hab (spec & -> & Hne & Hft & Hp & Hr)%tags_matching_Some_inv.
    destruct (tags_matching_Some_intro spec b) as (r' & -> & Hr').
    - destruct a as [|t a]; [done|]. intros ->.
      by eapply elem_of_nil, Hab, elem_of_cons; left.
    - intros ft ?. by apply Hab, Hft.
    - intros p (t & ? & ?)%Hp. exists t. split; [by apply Hab|done].
    - f_equal. eapply is_matched_tags_unique; [exact Hr'|].
      destruct Hr as (? & ? & Hr). split; [done|]. split; [done|].
      intros t. rewrite Hr. by setoid_rewrite Hab. }
  intros Hab.
  destruct (tags_matching_tpcreator_spec tpcreator_spec tags1) as [r|] eqn:H1.
  - symmetry. by eapply Hone.
  - destruct (tags_matching_tpcreator_spec tpcreator_spec tags2) as [r|] eqn:H2; [|done].
    eapply Hone in H2; [|intros t; symmetry; apply Hab]. congruence.
Qed.

(** Matching is idempotent: a non-empty match, taken as the tag list,
    matches the spec with itself as the result. *)
Theorem tags_matching_tpcreator_spec_idempotent
    (tpcreator_spec : option TpcreatorSpec) (tags r : list string) :
  tags_matching_tpcreator_spec tpcreator_spec tags = Some r →
  r ≠ [] →
  tags_matching_tpcreator_spec tpcreator_spec r = Some r.
Proof.
  intros (spec & -> & Hne & Hft & Hp & Hr)%tags_matching_Some_inv Hrne.
  destruct Hr as (Hsorted & Hnodup & Hr).
  destruct (tags_matching_Some_intro spec r) as (r' & -> & Hr'); [done| | |].
  - intros ft ?. apply Hr. by left.
  - intros p Hin. destruct (Hp p Hin) as (t & ? & ?). exists t. split; [|done].
    apply Hr. right. eauto.
  - f_equal. eapply is_matched_tags_unique; [exact Hr'|].
    split; [done|]. split; [done|]. intros t. split.
    + intros Ht. destruct (proj1 (Hr t) Ht) as [?|[? ?]]; [by left|]. right. eauto.
    + intros [?|[? _]]; [apply Hr; by left|done].
Qed.

(** More tags never lose a match: when a tag list matches, every tag
    list with at least those tags matches too, with at least those
    matched tags. *)
Theorem tags_matching_tpcreator_spec_mono
    (tpcreator_spec : option TpcreatorSpec) (tags tags' r : list string) :
  (∀ t, t ∈ tags → t ∈ tags') →
  tags_matching_tpcreator_spec tpcreator_spec tags = Some r →
  ∃ r', tags_matching_tpcreator_spec tpcreator_spec tags' = Some r' ∧
        ∀ t, t ∈ r → t ∈ r'.
Proof.
  intros Hsub (spec & -> & Hne & Hft & Hp & (_ & _ & Hr))%tags_matching_Some_inv.
  destruct (tags_matching_Some_intro spec tags') as (r' & -> & (_ & _ & Hr')).
  - destruct tags as [|t tags]; [done|]. intros Hnil.
    eapply elem_of_nil. rewrite <-Hnil. apply Hsub. by left.
  - intros ft ?. by apply Hsub, Hft.
  - intros p (t & ? & ?)%Hp. exists t. split; [by apply Hsub|done].
  - exists r'. split; [done|]. intros t [?|[? ?]]%Hr; apply Hr'; [by left|].
    right. split; [by apply Hsub|done].
Qed.

(** The empty prefix selects every tag: a spec that lists it matches, if
    at all, with all tags of the instance. *)
Theorem tags_matching_tpcreator_spec_empty_prefix
    (spec : TpcreatorSpec) (tags r : list string) :
  EmptyString ∈ prefixes spec →
  tags_matching_tpcreator_spec (Some spec) tags = Some r →
  r = sorted_str (uniq_sameorder tags).
Proof.
  intros Hin (spec' & [= <-] & Hne & Hft & Hp & Hr)%tags_matching_Some_inv.
  apply (Sorted_unique String.le); [by destruct Hr|apply Sorted_sorted_str|].
  apply NoDup_Permutation; [by destruct Hr as (_ & ? & _)| |].
  - apply NoDup_sorted_str, NoDup_uniq_sameorder.
  - intros t. rewrite elem_of_sorted_str, elem_of_uniq_sameorder.
    destruct Hr as (_ & _ & ->). split.
    + intros [?|[? _]]; [by apply Hft|done].
    + intros Ht. right. split; [done|]. exists EmptyString. split; [done|].
      apply startswith_nil.
Qed.

(** The theorems above at concrete tag lists. *)

Lemma suggested_prefixes_roundtrip_witness :
  [mkUispecEntry "env:prod" "env:"; mkUispecEntry "host" ""] ≠ [] ∧
  Forall (λ d, uis_prefix d ∈ suggested_tpcreator_prefixes (uis_tag d))
         [mkUispecEntry "env:prod" "env:"; mkUispecEntry "host" ""] ∧
  tags_matching_tpcreator_spec
    (Some (tpcreator_spec_from_tpcreator_uispec
             [mkUispecEntry "env:prod" "env:"; mkUispecEntry "host" ""]))
    ["env:prod"; "host"]
  = Some ["env:prod"; "host"].
Proof.
  assert (Forall (λ d, uis_prefix d ∈ suggested_tpcreator_prefixes (uis_tag d))
                 [mkUispecEntry "env:prod" "env:"; mkUispecEntry "host" ""]) as Hall.
  { repeat constructor. }
  split; [done|]. split; [exact Hall|].
  refine (suggested_prefixes_roundtrip
            [mkUispecEntry "env:prod" "env:"; mkUispecEntry "host" ""] _ Hall).
  done.
Defined.

Lemma tags_matching_tpcreator_spec_set_witness :
  (∀ t : string, t ∈ ["b"; "a:1"; "b"; "a:1"] ↔ t ∈ ["a:1"; "b"]) ∧
  tags_matching_tpcreator_spec (Some (mkTpcreatorSpec ["b"] ["a:"])) ["b"; "a:1"; "b"; "a:1"]
  = tags_matching_tpcreator_spec (Some (mkTpcreatorSpec ["b"] ["a:"])) ["a:1"; "b"].
Proof.
  assert (∀ t : string, t ∈ ["b"; "a:1"; "b"; "a:1"] ↔ t ∈ ["a:1"; "b"]) as Hset.
  { intros t. rewrite !elem_of_cons, !elem_of_nil. tauto. }
  split; [exact Hset|].
  exact (tags_matching_tpcreator_spec_set
           (Some (mkTpcreatorSpec ["b"] ["a:"])) _ _ Hset).
Defined.

Lemma tags_matching_tpcreator_spec_idempotent_witness :
  tags_matching_tpcreator_spec (Some (mkTpcreatorSpec ["b"] ["a:"]))
    ["c"; "b"; "a:2"; "a:1"] = Some ["a:1"; "a:2"; "b"] ∧
  ["a:1"; "a:2"; "b"] ≠ [] ∧
  tags_matching_tpcreator_spec (Some (mkTpcreatorSpec ["b"] ["a:"]))
    ["a:1"; "a:2"; "b"] = Some ["a:1"; "a:2"; "b"].
Proof.
  split; [vm_compute; reflexivity|]. split; [done|].
  apply (tags_matching_tpcreator_spec_idempotent
           (Some (mkTpcreatorSpec ["b"] ["a:"])) ["c"; "b"; "a:2"; "a:1"]).
  - vm_compute; reflexivity.
  - done.
Defined.

Lemma tags_matching_tpcreator_spec_mono_witness :
  (∀ t : string, t ∈ ["a:1"; "b"] → t ∈ ["c"; "b"; "a:2"; "a:1"]) ∧
  tags_matching_tpcreator_spec (Some (mkTpcreatorSpec ["b"] ["a:"])) ["a:1"; "b"]
    = Some ["a:1"; "b"] ∧
  ∃ r', tags_matching_tpcreator_spec (Some (mkTpcreatorSpec ["b"] ["a:"]))
          ["c"; "b"; "a:2"; "a:1"] = Some r' ∧
        ∀ t, t ∈ ["a:1"; "b"] → t ∈ r'.
Proof.
  assert (∀ t : string, t ∈ ["a:1"; "b"] → t ∈ ["c"; "b"; "a:2"; "a:1"]) as Hsub.
  { intros t. rewrite !elem_of_cons, !elem_of_nil. tauto. }
  split; [exact Hsub|]. split; [vm_compute; reflexivity|].
  apply (tags_matching_tpcreator_spec_mono
           (Some (mkTpcreatorSpec ["b"] ["a:"])) ["a:1"; "b"] _ _ Hsub).
  vm_compute; reflexivity.
Defined.

Lemma tags_matching_tpcreator_spec_empty_prefix_witness :
  EmptyString ∈ prefixes (mkTpcreatorSpec ["b"] [EmptyString]) ∧
  tags_matching_tpcreator_spec (Some (mkTpcreatorSpec ["b"] [EmptyString]))
    ["c"; "b"; "a:1"; "c"] = Some ["a:1"; "b"; "c"] ∧
  ["a:1"; "b"; "c"] = sorted_str (uniq_sameorder ["c"; "b"; "a:1"; "c"]).
Proof.
  split; [by left|]. split; [vm_compute; reflexivity|].
  apply (tags_matching_tpcreator_spec_empty_prefix
           (mkTpcreatorSpec ["b"] [EmptyString]) ["c"; "b"; "a:1"; "c"]).
  - by left.
  - vm_compute; reflexivity.
Defined.

(** ** Scanning the layout *)

Section scan.
Context `{SS : SeriesSpecs} `{!Collaborators}.

(** The master under which the scan records the tags of a tile: the tile
    itself for a master, otherwise its [master_id]. *)
Definition props_owner (tid : TileId) (props : Props) : option TileId :=
  if props_is_master props then Some tid else props_master_id props.

Definition scan_step (report_id : positive)
    (acc : gmap TileId (option TpcreatorSpec) * gmap TileId (gset (list string)))
    (item : TileId * Props)
  : gmap TileId (option TpcreatorSpec) * gmap TileId (gset (list string)) :=
  let '(spec_by, tags_by) := acc in
  let '(tile_id, props) := item in
  if decide (props_report_id props ≠ report_id) then (spec_by, tags_by)
  else if props_is_master props
  then (<[tile_id := props_tpcreator_spec props]> spec_by,
        add_tags tile_id (sorted_str (props_tags props)) tags_by)
  else match props_master_id props with
       | None => (spec_by, tags_by)
       | Some master_id =>
           (spec_by, add_tags master_id (sorted_str (props_tags props)) tags_by)
       end.

Lemma get_tpcreator_data_foldl (layout_mod : LayoutMod) (report_id : positive) :
  _get_tpcreator_data layout_mod report_id
  = foldl (scan_step report_id) (∅, ∅)
          (map_to_list (layout_props (lm_layout layout_mod))).
Proof.
  unfold _get_tpcreator_data, get_current_props_by_tile_id.
  generalize (∅ : gmap TileId (option TpcreatorSpec),
              ∅ : gmap TileId (gset (list string))).
  induction (map_to_list (layout_props (lm_layout layout_mod))) as [|[tid props] l IH];
    intros [S T]; [done|].
  cbn [foldl]. rewrite IH. done.
Qed.

Lemma scan_foldl_spec (report_id : positive) (l : list (TileId * Props)) :
  NoDup l.*1 →
  let data := foldl (scan_step report_id) (∅, ∅) l in
  (∀ m s, data.1 !! m = Some s ↔
          ∃ props, (m, props) ∈ l ∧ props_report_id props = report_id ∧
                   props_is_master props = true ∧ s = props_tpcreator_spec props) ∧
  (∀ m t, t ∈ default ∅ (data.2 !! m) ↔
          ∃ tid props, (tid, props) ∈ l ∧ props_report_id props = report_id ∧
                       props_owner tid props = Some m ∧
                       t = sorted_str (props_tags props)).
Proof.
  induction l as [|[tid props] l IH] using rev_ind.
  - intros _. cbn. split.
    + intros m s. rewrite lookup_empty. split; [done|].
      by intros (? & ?%elem_of_nil & _).
    + intros m t. rewrite lookup_empty. cbn. split; [by intros ?%elem_of_empty|].
      by intros (? & ? & ?%elem_of_nil & _).
  - rewrite fmap_app, NoDup_app. cbn [fmap list_fmap fst]. intros (Hnd & Hfresh & _).
    specialize (IH Hnd). rewrite foldl_snoc. cbv zeta in IH |- *.
    destruct (foldl (scan_step report_id) (∅, ∅) l) as [S T]. cbn [fst snd] in IH.
    destruct IH as [IHS IHT].
    assert (∀ p, (tid, p) ∈ l → False) as Hnot.
    { intros p Hin. apply (Hfresh tid); [|by left].
      apply list_elem_of_fmap. by exists (tid, p). }
    assert (∀ (Q : TileId → Props → Prop) m,
              (∃ props', (m, props') ∈ l ++ [(tid, props)] ∧ Q m props') ↔
              (∃ props', (m, props') ∈ l ∧ Q m props') ∨ (m = tid ∧ Q tid props))
      as Hsplit1.
    { intros Q m. split.
      - intros (p & [?|[= -> ->]%list_elem_of_singleton]%elem_of_app & ?); eauto.
      - intros [(p & ? & ?)|[-> ?]].
        + exists p. split; [apply elem_of_app; by left|done].
        + exists props. split; [apply elem_of_app; right; by left|done]. }
    assert (∀ (Q : TileId → Props → Prop),
              (∃ tid' props', (tid', props') ∈ l ++ [(tid, props)] ∧ Q tid' props') ↔
              (∃ tid' props', (tid', props') ∈ l ∧ Q tid' props') ∨ Q tid props)
      as Hsplit2.
    { intros Q. split.
      - intros (i & p & [?|[= -> ->]%list_elem_of_singleton]%elem_of_app & ?); eauto.
      - intros [(i & p & ? & ?)|?].
        + exists i, p. split; [apply elem_of_app; by left|done].
        + exists tid, props. split; [apply elem_of_app; right; by left|done]. }
    unfold scan_step. unfold props_owner in *.
    destruct (decide (props_report_id props ≠ report_id)) as [Hrid|Hrid].
    { cbn [fst snd]. split.
      - intros m s. rewrite IHS, (Hsplit1 (λ m p, _ ∧ _ ∧ _)). split; [by left|].
        intros [?|[_ [? _]]]; done.
      - intros m t. rewrite IHT, (Hsplit2 (λ i p, _ ∧ _ ∧ _)). split; [by left|].
        intros [?|[? _]]; done. }
    assert (props_report_id props = report_id) as Hrid'
      by (by destruct (decide (props_report_id props = report_id))).
    destruct (props_is_master props) eqn:Hmaster.
    + cbn [fst snd]. split.
      * intros m s. rewrite (Hsplit1 (λ m p, _ ∧ _ ∧ _)), <-IHS.
        destruct (decide (tid = m)) as [<-|Hne].
        -- rewrite lookup_insert_eq. split.
           ++ intros [= <-]. right. by rewrite Hmaster.
           ++ intros [Hs|(_ & _ & _ & ->)]; [|done].
              apply IHS in Hs as (p & ? & _). by destruct (Hnot p).
        -- rewrite lookup_insert_ne by done. split; [by left|].
           intros [?|[-> _]]; done.
      * intros m t. rewrite add_tags_lookup, (Hsplit2 (λ i p, _ ∧ _ ∧ _)), <-IHT.
        rewrite Hmaster. destruct (decide (tid = m)) as [<-|Hne].
        -- rewrite elem_of_union, elem_of_singleton. split.
           ++ intros [? | ->]; [by left|by right].
           ++ intros [?|(_ & _ & ->)]; [by left|by right].
        -- split; [by left|]. intros [?|(_ & [= ?] & _)]; done.
    + cbn [fst snd]. destruct (props_master_id props) as [mid|] eqn:Hmid; cbn [fst snd].
      * split.
        -- intros m s. rewrite IHS, (Hsplit1 (λ m p, _ ∧ _ ∧ _)). split; [by left|].
           intros [?|(_ & _ & Hm & _)]; [done|]. by rewrite Hmaster in Hm.
        -- intros m t. rewrite add_tags_lookup, (Hsplit2 (λ i p, _ ∧ _ ∧ _)), <-IHT.
           rewrite Hmaster, Hmid. destruct (decide (mid = m)) as [<-|Hne].
           ++ rewrite elem_of_union, elem_of_singleton. split.
              ** intros [? | ->]; [by left|by right].
              ** intros [?|(_ & _ & ->)]; [by left|by right].
           ++ split; [by left|]. intros [?|(_ & [= ?] & _)]; done.
      * split.
        -- intros m s. rewrite IHS, (Hsplit1 (λ m p, _ ∧ _ ∧ _)). split; [by left|].
           intros [?|(_ & _ & Hm & _)]; [done|]. by rewrite Hmaster in Hm.
        -- intros m t. rewrite IHT, (Hsplit2 (λ i p, _ ∧ _ ∧ _)). split; [by left|].
           rewrite Hmaster, Hmid. intros [?|(_ & ? & _)]; done.
Qed.

(** What the scan of the layout records: a spec for exactly the master
    tiles of the report, and for a master the sorted tags of the master
    and of the tiles of the report that name it as their master; tiles of
    other reports and tiles without master are left out. *)
Theorem get_tpcreator_data_spec (layout_mod : LayoutMod) (report_id : positive) :
  let data := _get_tpcreator_data layout_mod report_id in
  let P := layout_props (lm_layout layout_mod) in
  (∀ m s, data.1 !! m = Some s ↔
          ∃ props, P !! m = Some props ∧ props_report_id props = report_id ∧
                   props_is_master props = true ∧ s = props_tpcreator_spec props) ∧
  (∀ m t, t ∈ default ∅ (data.2 !! m) ↔
          ∃ tid props, P !! tid = Some props ∧ props_report_id props = report_id ∧
                       props_owner tid props = Some m ∧
                       t = sorted_str (props_tags props)).
Proof.
  intros data P. unfold data. rewrite get_tpcreator_data_foldl. fold P.
  destruct (scan_foldl_spec report_id (map_to_list P) (NoDup_fst_map_to_list P))
    as [HS HT].
  split.
  - intros m s. rewrite HS. by setoid_rewrite elem_of_map_to_list.
  - intros m t. rewrite HT. by setoid_rewrite elem_of_map_to_list.
Qed.

Lemma get_tpcreator_data_masters (layout_mod : LayoutMod) (report_id : positive)
    (m : TileId) (s : option TpcreatorSpec) :
  (_get_tpcreator_data layout_mod report_id).1 !! m = Some s ↔
  ∃ props, layout_props (lm_layout layout_mod) !! m = Some props ∧
           props_report_id props = report_id ∧
           props_is_master props = true ∧ s = props_tpcreator_spec props.
Proof.
  rewrite get_tpcreator_data_foldl.
  destruct (scan_foldl_spec report_id
              (map_to_list (layout_props (lm_layout layout_mod)))
              (NoDup_fst_map_to_list _)) as [HS _].
  rewrite HS. by setoid_rewrite elem_of_map_to_list.
Qed.

End scan.

(** ** More on the TPCreator mod *)

Section tpcreator_more.
Context `{SS : SeriesSpecs} `{!Collaborators}.

Lemma Tile_select_app (w w' : World) (l : list Tile) (dashboard : positive)
    (tid : TileId) (t : Tile) :
  tiles w' = tiles w ++ l →
  Tile_select w dashboard tid = Some t →
  Tile_select w' dashboard tid = Some t.
Proof.
  unfold Tile_select. intros -> Hsel. rewrite filter_app, head_app. by rewrite Hsel.
Qed.

(** The guards of the loop for a master, with the matched tags. *)
Definition guards_pass (report_instance : ReportInstance) (max_tpcreated : Z)
    (tags_by : gmap TileId (gset (list string)))
    (m : TileId) (tpcreator_spec : option TpcreatorSpec) (matching_tags : list string)
  : Prop :=
  Z.of_nat (size (default ∅ (tags_by !! m))) < max_tpcreated ∧
  tags_matching_tpcreator_spec tpcreator_spec (ri_all_tags report_instance)
    = Some matching_tags ∧
  matching_tags ≠ [] ∧
  matching_tags ∉ default ∅ (tags_by !! m).

(** The three ways in which the body of the loop ends: nothing to do,
    the options of the new tile cannot be derived, or the tile is
    inserted and handed to [place_tile_mod]. *)
Lemma tpcreator_mod_master_run
    (report_instance : ReportInstance) (layout_row : LayoutRow) (max_tpcreated : Z)
    (tags_by : gmap TileId (gset (list string)))
    (m : TileId) (tpcreator_spec : option TpcreatorSpec)
    (w : World) (lm : LayoutMod) :
  let run := tpcreator_mod_master report_instance layout_row max_tpcreated tags_by
               (m, tpcreator_spec) (w, lm) in
  (run = (inr (), (w, lm)) ∧
   ∀ mt master_tile,
     guards_pass report_instance max_tpcreated tags_by m tpcreator_spec mt →
     Tile_select w (row_dashboard_id layout_row) m = Some master_tile → False) ∨
  (∃ mt master_tile,
     guards_pass report_instance max_tpcreated tags_by m tpcreator_spec mt ∧
     Tile_select w (row_dashboard_id layout_row) m = Some master_tile ∧
     ((∃ e, _tile_options_of_tpcreated master_tile tpcreator_spec mt None = inl e ∧
            run = (inl e, (w, lm))) ∨
      (∃ to, _tile_options_of_tpcreated master_tile tpcreator_spec mt None = inr to ∧
             let t := mkTile (dashboard_id master_tile) (next_tile_id w) to in
             let w' := {| tiles := tiles w ++ [t];
                          next_tile_id := Pos.succ (next_tile_id w);
                          layout_by_report := layout_by_report w |} in
             run = ((place_tile_mod t (tile_id master_tile) lm).1,
                    (w', (place_tile_mod t (tile_id master_tile) lm).2))))).
Proof.
  intros run. unfold run, tpcreator_mod_master, guards_pass.
  case_decide as Hmax.
  { left. split; [done|]. intros mt master (? & _) _. lia. }
  destruct (tags_matching_tpcreator_spec tpcreator_spec (ri_all_tags report_instance))
    as [[|t0 mt]|] eqn:Hmatch.
  { left. split; [done|]. by intros mt master (_ & [= <-] & ? & _) _. }
  2: { left. split; [done|]. by intros mt master (_ & ? & _) _. }
  case_decide as Hin.
  { left. split; [done|]. by intros mt' master (_ & [= <-] & _ & ?) _. }
  rewrite M_bind_run. cbn [Py.gets fst].
  destruct (Tile_select w (row_dashboard_id layout_row) m) as [master_tile|] eqn:Hsel.
  2: { left. split; [done|]. by intros mt' master _ ?. }
  right. exists (t0 :: mt), master_tile. split; [|split; [done|]].
  { split; [lia|]. done. }
  rewrite M_bind_run. unfold Py.lift.
  destruct (_tile_options_of_tpcreated master_tile tpcreator_spec (t0 :: mt) None)
    as [e|to] eqn:Hto; [left; eauto|].
  right. exists to. split; [done|]. cbv zeta.
  rewrite M_bind_run. cbn [Py.on_fst insert_with_tile_options Py.on_snd].
  by destruct (place_tile_mod _ _ lm).
Qed.

(** What the body of the loop leaves alone. *)
Lemma tpcreator_mod_master_frame
    (report_instance : ReportInstance) (layout_row : LayoutRow) (max_tpcreated : Z)
    (tags_by : gmap TileId (gset (list string)))
    (item : TileId * option TpcreatorSpec)
    (st st' : World * LayoutMod) (r : Py.result ()) :
  tpcreator_mod_master report_instance layout_row max_tpcreated tags_by item st
    = (r, st') →
  layout_by_report st'.1 = layout_by_report st.1 ∧
  ∃ l, tiles st'.1 = tiles st.1 ++ l.
Proof.
  destruct item as [m s], st as [w lm]. intros Hrun.
  destruct (tpcreator_mod_master_run report_instance layout_row max_tpcreated tags_by
              m s w lm) as [[Heq _]|(mt & master & _ & _ & [(e & _ & Heq)|(to & _ & Heq)])];
    cbv zeta in Heq; rewrite Heq in Hrun; injection Hrun as <- <-; cbn [fst tiles
      layout_by_report].
  - split; [done|]. exists []. by rewrite app_nil_r.
  - split; [done|]. exists []. by rewrite app_nil_r.
  - split; [done|]. by eexists.
Qed.

Lemma tpcreator_mod_loop_frame
    (report_instance : ReportInstance) (layout_row : LayoutRow) (max_tpcreated : Z)
    (tags_by : gmap TileId (gset (list string)))
    (items : list (TileId * option TpcreatorSpec))
    (st st' : World * LayoutMod) (r : Py.result ()) :
  Py.for_each items
    (tpcreator_mod_master report_instance layout_row max_tpcreated tags_by) st
    = (r, st') →
  layout_by_report st'.1 = layout_by_report st.1 ∧
  ∃ l, tiles st'.1 = tiles st.1 ++ l.
Proof.
  revert st. induction items as [|item items IH]; intros st.
  - intros [= <- <-]. split; [done|]. exists []. by rewrite app_nil_r.
  - rewrite for_each_cons.
    destruct (tpcreator_mod_master report_instance layout_row max_tpcreated tags_by
                item st) as [r1 st1] eqn:Hstep.
    apply tpcreator_mod_master_frame in Hstep as (Hrows & l1 & Htiles).
    destruct r1 as [e|[]].
    + intros [= <- <-]. eauto.
    + intros (Hrows2 & l2 & Htiles2)%IH. split; [congruence|].
      exists (l1 ++ l2). by rewrite Htiles2, Htiles, app_assoc.
Qed.

(** The tiles of the report that are masters, by the props of the
    layout. *)
Definition no_master_of (report_id : positive) (props : gmap TileId Props) : Prop :=
  map_Forall (λ _ p, props_report_id p = report_id → props_is_master p = false) props.

Global Instance no_master_of_dec report_id props : Decision (no_master_of report_id props).
Proof. unfold no_master_of. apply _. Defined.

Lemma get_tpcreator_data_empty_iff (layout_mod : LayoutMod) (report_id : positive) :
  (_get_tpcreator_data layout_mod report_id).1 = ∅ ↔
  no_master_of report_id (layout_props (lm_layout layout_mod)).
Proof.
  pose proof (get_tpcreator_data_masters layout_mod report_id) as HS. split.
  - intros Hempty tid p Hp Hrid.
    destruct (props_is_master p) eqn:Hm; [|done]. exfalso.
    assert ((_get_tpcreator_data layout_mod report_id).1 !! tid
            = Some (props_tpcreator_spec p)) as Hl by (apply HS; eauto).
    by rewrite Hempty, lookup_empty in Hl.
  - intros Hno. apply map_empty. intros tid.
    destruct ((_get_tpcreator_data layout_mod report_id).1 !! tid) as [s|] eqn:Hl; [|done].
    apply HS in Hl as (p & Hp & Hrid & Hm & _).
    specialize (Hno tid p Hp Hrid). congruence.
Qed.

(** The mod deletes the index row exactly when the layout has no master
    tile of the report any more; it then inserts no tile and leaves the
    layout alone.  With a master in the layout the index is not touched. *)
Theorem tpcreator_mod_obsolete_row
    (report_instance : ReportInstance) (layout_row : LayoutRow) (max_tpcreated : Z)
    (w : World) (layout_mod : LayoutMod) :
  let run := tpcreator_mod report_instance layout_row max_tpcreated (w, layout_mod) in
  if decide (no_master_of (ri_report_id report_instance)
                          (layout_props (lm_layout layout_mod)))
  then run = (inr (), ({| tiles := tiles w;
                          next_tile_id := next_tile_id w;
                          layout_by_report :=
                            filter (λ r, r ≠ layout_row) (layout_by_report w) |},
                       layout_mod)) ∧
       layout_row ∉ layout_by_report run.2.1
  else layout_by_report run.2.1 = layout_by_report w.
Proof.
  intros run. unfold run, tpcreator_mod, do_tpcreator_mod.
  rewrite M_bind_run. cbn [Py.gets snd].
  pose proof (get_tpcreator_data_empty_iff layout_mod (ri_report_id report_instance))
    as Hiff.
  destruct (_get_tpcreator_data layout_mod (ri_report_id report_instance))
    as [spec_by tags_by]. cbn [fst] in Hiff.
  destruct (decide (spec_by = ∅)) as [Hempty|Hne].
  - rewrite decide_True by (by apply Hiff). cbn. split; [done|].
    intros [Hn _]%list_elem_of_filter. by apply Hn.
  - rewrite decide_False by (by rewrite <-Hiff).
    destruct (Py.for_each (map_to_list spec_by) _ (w, layout_mod)) as [r st'] eqn:Hrun.
    by apply tpcreator_mod_loop_frame in Hrun as [? _].
Qed.

Lemma tpcreator_mod_loop_creates
    (report_instance : ReportInstance) (layout_row : LayoutRow) (max_tpcreated : Z)
    (tags_by : gmap TileId (gset (list string)))
    (items : list (TileId * option TpcreatorSpec))
    (m : TileId) (tpcreator_spec : option TpcreatorSpec) (mt : list string)
    (master_tile : Tile) (st st' : World * LayoutMod) :
  Py.for_each items
    (tpcreator_mod_master report_instance layout_row max_tpcreated tags_by) st
    = (inr (), st') →
  (m, tpcreator_spec) ∈ items →
  guards_pass report_instance max_tpcreated tags_by m tpcreator_spec mt →
  Tile_select st.1 (row_dashboard_id layout_row) m = Some master_tile →
  ∃ l1 t l2, tiles st'.1 = tiles st.1 ++ l1 ++ t :: l2 ∧
             Tile_tags t = mt ∧
             master_tile_id_of (tile_options t) = Some (VId m).
Proof.
  revert st. induction items as [|item items IH]; intros st Hrun Hin Hguard Hsel.
  - by apply elem_of_nil in Hin.
  - rewrite for_each_cons in Hrun.
    destruct (tpcreator_mod_master report_instance layout_row max_tpcreated tags_by
                item st) as [r1 st1] eqn:Hstep.
    destruct r1 as [e|[]]; [done|].
    apply elem_of_cons in Hin as [<-|Hin].
    + destruct st as [w lm]. cbn [fst] in *.
      destruct (tpcreator_mod_master_run report_instance layout_row max_tpcreated
                  tags_by m tpcreator_spec w lm)
        as [[_ Hno]|(mt' & master' & Hg' & Hsel' & [(e & _ & Heq)|(to & Hto & Heq)])].
      * by destruct (Hno mt master_tile).
      * cbv zeta in Heq. rewrite Heq in Hstep. done.
      * cbv zeta in Heq. rewrite Heq in Hstep. injection Hstep as _ <-.
        apply tpcreator_mod_loop_frame in Hrun as (_ & l2 & ->). cbn [fst tiles].
        assert (mt' = mt) as ->.
        { destruct Hg' as (_ & Hm1 & _), Hguard as (_ & Hm2 & _). congruence. }
        rewrite Hsel in Hsel'. injection Hsel' as <-.
        apply Tile_select_Some in Hsel as (_ & Hid & _).
        apply tile_options_of_tpcreated_facts in Hto as [Htags Hmid].
        exists [], (mkTile (dashboard_id master_tile) (next_tile_id w) to), l2.
        split; [by rewrite <-app_assoc|]. unfold Tile_tags. cbn [tile_options].
        by rewrite Htags, Hmid, Hid.
    + apply tpcreator_mod_master_frame in Hstep as (_ & l1 & Htiles).
      destruct (IH st1 Hrun Hin Hguard) as (l2 & t & l3 & Htiles' & ? & ?).
      { by eapply Tile_select_app. }
      exists (l1 ++ l2), t, l3. split; [|done].
      by rewrite Htiles', Htiles, <-!app_assoc.
Qed.

(** The mod does create: when a run ends without an exception, every
    master whose recorded tuples are below the maximum, whose spec
    matches the tags of the instance with a tuple not recorded yet, and
    whose tile is in the store, has got a new tile with the matched tags
    and its id. *)
Theorem tpcreator_mod_complete
    (report_instance : ReportInstance) (layout_row : LayoutRow) (max_tpcreated : Z)
    (w : World) (layout_mod : LayoutMod) (st' : World * LayoutMod)
    (m : TileId) (tpcreator_spec : option TpcreatorSpec) (mt : list string)
    (master_tile : Tile) :
  let data := _get_tpcreator_data layout_mod (ri_report_id report_instance) in
  tpcreator_mod report_instance layout_row max_tpcreated (w, layout_mod) = (inr (), st') →
  data.1 !! m = Some tpcreator_spec →
  guards_pass report_instance max_tpcreated data.2 m tpcreator_spec mt →
  Tile_select w (row_dashboard_id layout_row) m = Some master_tile →
  ∃ l1 t l2, tiles st'.1 = tiles w ++ l1 ++ t :: l2 ∧
             Tile_tags t = mt ∧
             master_tile_id_of (tile_options t) = Some (VId m).
Proof.
  intros data. unfold tpcreator_mod, do_tpcreator_mod.
  rewrite M_bind_run. cbn [Py.gets snd]. fold data.
  destruct data as [spec_by tags_by]. cbn [fst snd].
  intros Hrun Hm Hguard Hsel. case_decide as Hempty.
  { by rewrite Hempty, lookup_empty in Hm. }
  eapply (tpcreator_mod_loop_creates _ _ _ _ _ m) in Hrun; [exact Hrun| |done|done].
  by apply elem_of_map_to_list.
Qed.

End tpcreator_more.

(** ** More on the derivation of tile options *)

Section derivation_more.
Context `{SS : SeriesSpecs} `{!Collaborators}.

(** How the three writes that link a tile to its master end. *)
Lemma master_link_steps_outcome (master_tile : Tile)
    (tpcreator_spec : option TpcreatorSpec) (to : gmap string value) :
  (new_tile_options ←
     setitem2 to "tpcreator_data" "master_tile_id" (VId (tile_id master_tile));
   master_uispec ← getitem (tile_options master_tile) "tpcreator_uispec";
   new_tile_options ←
     setitem2 new_tile_options "tpcreator_data" "master_tpcreator_uispec"
              (deepcopy master_uispec);
   new_tile_options ←
     setitem2 new_tile_options "tpcreator_data" "master_tpcreator_spec"
              (spec_value tpcreator_spec);
   inr new_tile_options)
  = match to !! "tpcreator_data" with
    | Some (VDict data) =>
        match tile_options master_tile !! "tpcreator_uispec" with
        | Some uispec =>
            inr (<["tpcreator_data" :=
                     VDict (master_link master_tile uispec tpcreator_spec data)]> to)
        | None => inl (Py.KeyError "tpcreator_uispec")
        end
    | Some _ => inl Py.TypeError
    | None => inl (Py.KeyError "tpcreator_data")
    end.
Proof.
  destruct (to !! "tpcreator_data") as [v|] eqn:Hd.
  - destruct v; try (by unfold setitem2; rewrite Hd).
    destruct (tile_options master_tile !! "tpcreator_uispec") as [uispec|] eqn:Hu.
    + by apply master_link_steps.
    + unfold setitem2 at 3. rewrite Hd. rewrite result_bind_inr.
      unfold getitem. by rewrite Hu.
  - unfold setitem2. by rewrite Hd.
Qed.




Lemma setitem2_insert_ne (d : gmap string value) (k k1 k2 : string) (v x : value) :
  k ≠ k1 →
  setitem2 (<[k := v]> d) k1 k2 x = (d' ← setitem2 d k1 k2 x; inr (<[k := v]> d')).
Proof.
  intros Hk. unfold setitem2. rewrite lookup_insert_ne by done.
  destruct (d !! k1) as [[]|]; try done.
  rewrite result_bind_inr. f_equal. by apply insert_insert_ne.
Qed.

(** Of an existing derived tile only the series specs reach the options
    derived anew: its tags, title and other options do not.  The call
    with the tile ends as the call without it, but for
    [series_configs]. *)
Theorem tile_options_of_tpcreated_old_only_series
    (master_tile old_tpcreated : Tile) (tpcreator_spec : option TpcreatorSpec)
    (tags : list string) :
  _tile_options_of_tpcreated master_tile tpcreator_spec tags (Some old_tpcreated)
  = (to ← _tile_options_of_tpcreated master_tile tpcreator_spec tags None;
     inr (<["series_configs" :=
              VSeries (_unique_series_specs
                         (series_specs master_tile ++ series_specs old_tpcreated))]> to)).
Proof.
  unfold _tile_options_of_tpcreated.
  destruct (getitem (tile_options master_tile) "tw_type") as [e|tw]; [done|].
  rewrite !result_bind_inr. cbv zeta.
  cbn [series_specs_of_tpcreated].
  set (ss := _unique_series_specs _).
  unfold Tile_insert_tile_options.
  cbn [cfg_tw_type cfg_tags cfg_series_spec_list cfg_tile_options].
  set (inner := <["tags" := _]> _).
  assert (<["series_configs" := VSeries ss]> inner
          = <["series_configs" := VSeries ss]>
              (<["series_configs" := VSeries (series_specs master_tile)]> inner)) as ->
    by (by rewrite insert_insert_eq).
  generalize (<["series_configs" := VSeries (series_specs master_tile)]> inner). intros p.
  rewrite lookup_insert_ne by done.
  set (to0 := if decide (p !! "tpcreator_data" = None)
              then <["tpcreator_data" := VDict ∅]> p else p).
  assert ((if decide (p !! "tpcreator_data" = None)
           then <["tpcreator_data" := VDict ∅]> (<["series_configs" := VSeries ss]> p)
           else <["series_configs" := VSeries ss]> p)
          = <["series_configs" := VSeries ss]> to0) as ->.
  { unfold to0. case_decide; [|done]. by apply insert_insert_ne. }
  clearbody to0.
  assert (∀ to1,
    (let new_tile_options := delete "tpcreator_uispec"
                               (<["series_configs" := VSeries ss]> to1) in
     new_tile_options ←
       setitem2 new_tile_options "tpcreator_data" "master_tile_id"
                (VId (tile_id master_tile));
     master_uispec ← getitem (tile_options master_tile) "tpcreator_uispec";
     new_tile_options ←
       setitem2 new_tile_options "tpcreator_data" "master_tpcreator_uispec"
                (deepcopy master_uispec);
     new_tile_options ←
       setitem2 new_tile_options "tpcreator_data" "master_tpcreator_spec"
                (spec_value tpcreator_spec);
     inr new_tile_options)
    = (to ← (let new_tile_options := delete "tpcreator_uispec" to1 in
             new_tile_options ←
               setitem2 new_tile_options "tpcreator_data" "master_tile_id"
                        (VId (tile_id master_tile));
             master_uispec ← getitem (tile_options master_tile) "tpcreator_uispec";
             new_tile_options ←
               setitem2 new_tile_options "tpcreator_data" "master_tpcreator_uispec"
                        (deepcopy master_uispec);
             new_tile_options ←
               setitem2 new_tile_options "tpcreator_data" "master_tpcreator_spec"
                        (spec_value tpcreator_spec);
             inr new_tile_options);
       inr (<["series_configs" := VSeries ss]> to))) as Htail.
  { intros to1. cbv zeta. rewrite !master_link_steps_outcome.
    rewrite delete_insert_ne by done. rewrite lookup_insert_ne by done.
    destruct (delete "tpcreator_uispec" to1 !! "tpcreator_data") as [[]|]; try done.
    destruct (tile_options master_tile !! "tpcreator_uispec"); [|done].
    rewrite result_bind_inr. f_equal. by apply insert_insert_ne. }
  assert (∀ x,
    (new_tile_options ←
       setitem2 (<["series_configs" := VSeries ss]> to0)
                "tpcreator_data" "tile_title_base" x;
     let new_tile_options := delete "tpcreator_uispec" new_tile_options in
     new_tile_options ←
       setitem2 new_tile_options "tpcreator_data" "master_tile_id"
                (VId (tile_id master_tile));
     master_uispec ← getitem (tile_options master_tile) "tpcreator_uispec";
     new_tile_options ←
       setitem2 new_tile_options "tpcreator_data" "master_tpcreator_uispec"
                (deepcopy master_uispec);
     new_tile_options ←
       setitem2 new_tile_options "tpcreator_data" "master_tpcreator_spec"
                (spec_value tpcreator_spec);
     inr new_tile_options)
    = (to ← (new_tile_options ←
               setitem2 to0 "tpcreator_data" "tile_title_base" x;
             let new_tile_options := delete "tpcreator_uispec" new_tile_options in
             new_tile_options ←
               setitem2 new_tile_options "tpcreator_data" "master_tile_id"
                        (VId (tile_id master_tile));
             master_uispec ← getitem (tile_options master_tile) "tpcreator_uispec";
             new_tile_options ←
               setitem2 new_tile_options "tpcreator_data" "master_tpcreator_uispec"
                        (deepcopy master_uispec);
             new_tile_options ←
               setitem2 new_tile_options "tpcreator_data" "master_tpcreator_spec"
                        (spec_value tpcreator_spec);
             inr new_tile_options);
       inr (<["series_configs" := VSeries ss]> to))) as Hwrite.
  { intros x. rewrite setitem2_insert_ne by done.
    destruct (setitem2 to0 "tpcreator_data" "tile_title_base" x) as [e|to1]; [done|].
    rewrite !result_bind_inr. apply Htail. }
  destruct (tile_options master_tile !! "tile_title") as [title|].
  2: { rewrite !result_bind_inr. apply Htail. }
  destruct (truthy title).
  2: { rewrite !result_bind_inr. apply Htail. }
  case_decide.
  2: { rewrite !result_bind_inr. apply Hwrite. }
  destruct (as_str title) as [e|s]; [done|].
  rewrite !result_bind_inr. apply Hwrite.
Qed.

(** The title of the master is not taken over as [tile_title]: it is
    kept, without the postfix of the master and stripped, as
    [tile_title_base] of [tpcreator_data]; a master without a title, or
    with the empty title, leaves no [tile_title_base].  Besides it
    [tpcreator_data] holds the three links to the master only. *)
Theorem tile_options_of_tpcreated_title_base
    (master_tile : Tile) (tpcreator_spec : option TpcreatorSpec)
    (tags : list string) (old_tpcreated : option Tile) (to : gmap string value) :
  tile_options master_tile !! "tpcreator_data" = None →
  title_is_str master_tile →
  _tile_options_of_tpcreated master_tile tpcreator_spec tags old_tpcreated = inr to →
  to !! "tile_title" = None ∧
  ∃ data,
    to !! "tpcreator_data" = Some (VDict data) ∧
    (∀ k, is_Some (data !! k) →
          k ∈ ["tile_title_base"; "master_tile_id"; "master_tpcreator_uispec";
               "master_tpcreator_spec"]) ∧
    data !! "tile_title_base" =
      match tile_options master_tile !! "tile_title" with
      | Some (VStr s) =>
          if decide (s = EmptyString) then None
          else if decide (generate_tile_title_postfix master_tile = EmptyString)
          then Some (VStr s)
          else Some (VStr (PyStr.strip
                             (PyStr.replace s (generate_tile_title_postfix master_tile)
                                            EmptyString)))
      | _ => None
      end.
Proof.
  intros Hd Htitle Hto.
  destruct (tile_options_of_tpcreated_inv _ _ _ _ _ Hto)
    as (tw & uispec & _ & Htw & Hu & _).
  rewrite (tile_options_of_tpcreated_eq _ _ _ _ tw uispec) in Hto by done.
  injection Hto as <-.
  split.
  { rewrite (derived_options_lookup _ tw) by done. by rewrite !decide_False by done. }
  eexists. split; [apply lookup_insert_eq|].
  unfold master_link.
  assert (∀ k, is_Some (title_base_data master_tile !! k) → k = "tile_title_base")
    as Hdom.
  { intros k. unfold title_base_data.
    destruct (tile_options master_tile !! "tile_title") as [[]|];
      try (by rewrite lookup_empty; intros [? ?]).
    case_decide; [|by rewrite lookup_empty; intros [? ?]].
    cbv zeta. intros [v Hv]. by apply lookup_singleton_Some in Hv as [<- _]. }
  split.
  - intros k Hk.
    destruct (decide (k = "master_tpcreator_spec")) as [->|H1];
      [do 3 right; by left|rewrite lookup_insert_ne in Hk by done].
    destruct (decide (k = "master_tpcreator_uispec")) as [->|H2];
      [do 2 right; by left|rewrite lookup_insert_ne in Hk by done].
    destruct (decide (k = "master_tile_id")) as [->|H3];
      [right; by left|rewrite lookup_insert_ne in Hk by done].
    rewrite (Hdom k Hk). by left.
  - rewrite !lookup_insert_ne by done. unfold title_base_data.
    destruct (tile_options master_tile !! "tile_title") as [[]|];
      try apply lookup_empty.
    destruct (decide (s = EmptyString)) as [->|Hs].
    + rewrite decide_False by (by intros ?). apply lookup_empty.
    + rewrite decide_True by done. cbv zeta. rewrite lookup_singleton_eq.
      destruct (decide (generate_tile_title_postfix master_tile = EmptyString)) as [Hp|Hp].
      * by rewrite decide_False by (by intros ?).
      * by rewrite decide_True.
Qed.


End derivation_more.

(** ** Promotion and demotion *)

Section promotion_more.
Context `{SS : SeriesSpecs} `{!Collaborators}.

(** The title that a tile made a master ends with: its own when that is
    truthy, else the title of the old master with the old postfix
    replaced by the postfix of the tile. *)
Definition promoted_title (old_master tpcreated : Tile) : option value :=
  if get_truthy (tile_options tpcreated) "tile_title"
  then tile_options tpcreated !! "tile_title"
  else match tile_options old_master !! "tile_title" with
       | Some (VStr title) =>
           if decide (title = EmptyString) then tile_options tpcreated !! "tile_title"
           else if PyStr.contains (generate_tile_title_postfix old_master) title
           then Some (VStr (PyStr.replace title
                              (generate_tile_title_postfix old_master)
                              (generate_tile_title_postfix tpcreated)))
           else Some (VStr title)
       | _ => tile_options tpcreated !! "tile_title"
       end.

Definition promoted_options (old_master tpcreated : Tile) (uispec : value)
  : gmap string value :=
  let to := delete "tpcreator_data"
              (<["tpcreator_uispec" := uispec]> (tile_options tpcreated)) in
  match promoted_title old_master tpcreated with
  | Some title => <["tile_title" := title]> to
  | None => to
  end.

Lemma make_master_from_tpcreated_run
    (old_master tpcreated : Tile) (w : World) (uispec data : value) :
  tile_options old_master !! "tpcreator_uispec" = Some uispec →
  tile_options old_master !! "tpcreator_data" = None →
  tile_options tpcreated !! "tpcreator_data" = Some data →
  title_is_str tpcreated →
  title_is_str old_master →
  make_master_from_tpcreated old_master tpcreated w
  = insert_with_tile_options (dashboard_id old_master)
      (promoted_options old_master tpcreated uispec) w.
Proof.
  intros Hu Hnd Hdata Htp Hold.
  pose proof (is_master_tile_false _ _ Hdata) as Hnot.
  assert (is_master_tile old_master = true) as Hmaster.
  { unfold is_master_tile. rewrite Hnd, Hu.
    rewrite bool_decide_eq_true_2 by done. by rewrite bool_decide_eq_true_2 by eauto. }
  unfold make_master_from_tpcreated. rewrite Hmaster, Hnot. cbn [negb].
  set (to := delete "tpcreator_data"
               (<["tpcreator_uispec" := uispec]> (tile_options tpcreated))).
  assert (to !! "tile_title" = tile_options tpcreated !! "tile_title") as Hto.
  { unfold to. by rewrite lookup_delete_ne, lookup_insert_ne by done. }
  assert (get_truthy to "tile_title" = get_truthy (tile_options tpcreated) "tile_title")
    as Htruthy by (unfold get_truthy; by rewrite Hto).
  match goal with
  | |- context [Py.lift ?r] =>
      assert (r = inr (promoted_options old_master tpcreated uispec)) as ->
  end; [|by rewrite M_bind_lift_inr].
  unfold deepcopy. rewrite (getitem_Some _ "tpcreator_uispec" uispec) by done.
  rewrite result_bind_inr. cbv zeta.
  unfold delitem at 1. rewrite lookup_insert_ne, Hdata by done.
  rewrite result_bind_inr. fold to. rewrite Htruthy.
  unfold promoted_options, promoted_title. fold to.
  (* the stripped title is computed and dropped *)
  match goal with
  | |- (?r ≫= _) = _ => assert (r = inr ()) as ->
  end.
  { destruct (get_truthy (tile_options tpcreated) "tile_title") eqn:Ht; [|done].
    case_decide; [|done].
    unfold get_truthy in Ht.
    destruct (tile_options tpcreated !! "tile_title") as [v|] eqn:Hv; [|done].
    destruct (Htp v Hv) as [s ->].
    rewrite (getitem_Some _ "tile_title" (VStr s)) by (by rewrite Hto).
    rewrite result_bind_inr. cbn [py_in]. rewrite result_bind_inr.
    by destruct (PyStr.contains _ _). }
  rewrite result_bind_inr.
  assert (∀ o, o = tile_options tpcreated !! "tile_title" →
            inr to = inr (match o with
                          | Some title => <["tile_title" := title]> to
                          | None => to
                          end) :> Py.result _) as Hkeep.
  { intros o ->. destruct (tile_options tpcreated !! "tile_title") eqn:E; [|done].
    f_equal. apply map_eq. intros k. destruct (decide (k = "tile_title")) as [->|].
    - by rewrite lookup_insert_eq, Hto.
    - by rewrite lookup_insert_ne. }
  destruct (tile_options old_master !! "tile_title") as [v|] eqn:Hv.
  2: { destruct (get_truthy (tile_options tpcreated) "tile_title"); by apply Hkeep. }
  destruct (Hold v Hv) as [title ->]. cbn [truthy].
  destruct (get_truthy (tile_options tpcreated) "tile_title").
  { rewrite andb_false_r. by apply Hkeep. }
  rewrite andb_true_r.
  destruct (decide (title = EmptyString)) as [->|Hne].
  { rewrite bool_decide_eq_false_2 by (by intros ?). by apply Hkeep. }
  rewrite bool_decide_eq_true_2 by done.
  cbn [py_in]. rewrite result_bind_inr.
  destruct (PyStr.contains _ title); cbn [as_str]; by rewrite ?result_bind_inr.
Qed.

(** A derived tile made the master: the new tile is a master tile in
    the dashboard of the old master, with the [tpcreator_uispec] of the
    old master and without [tpcreator_data]; but for the title it has
    the options of the derived tile.  A derived tile without a title
    takes the title of the old master, in which the postfix of the old
    master is replaced by its own. *)
Theorem make_master_from_tpcreated_spec
    (old_master tpcreated : Tile) (w : World) (data : value) :
  is_master_tile old_master = true →
  tile_options tpcreated !! "tpcreator_data" = Some data →
  title_is_str tpcreated →
  title_is_str old_master →
  ∃ new_master w' uispec,
    make_master_from_tpcreated old_master tpcreated w = (inr new_master, w') ∧
    tiles w' = tiles w ++ [new_master] ∧
    dashboard_id new_master = dashboard_id old_master ∧
    tile_id new_master = next_tile_id w ∧
    is_master_tile new_master = true ∧
    tile_options old_master !! "tpcreator_uispec" = Some uispec ∧
    tile_options new_master !! "tpcreator_uispec" = Some uispec ∧
    tile_options new_master !! "tpcreator_data" = None ∧
    (∀ k, k ∉ ["tpcreator_uispec"; "tpcreator_data"; "tile_title"] →
          tile_options new_master !! k = tile_options tpcreated !! k) ∧
    tile_options new_master !! "tile_title" = promoted_title old_master tpcreated ∧
    (tile_options tpcreated !! "tile_title" = None →
     ∀ title, tile_options old_master !! "tile_title" = Some (VStr title) →
              title ≠ EmptyString →
              tile_options new_master !! "tile_title" =
                Some (VStr (if PyStr.contains (generate_tile_title_postfix old_master) title
                            then PyStr.replace title
                                   (generate_tile_title_postfix old_master)
                                   (generate_tile_title_postfix tpcreated)
                            else title))).
Proof.
  intros (Hnd & uispec & Hu)%is_master_tile_true Hdata Htp Hold.
  rewrite (make_master_from_tpcreated_run _ _ _ uispec data) by done.
  unfold insert_with_tile_options. eexists _, _, uispec. split; [done|].
  cbn [tiles dashboard_id tile_id tile_options].
  set (to := delete "tpcreator_data"
               (<["tpcreator_uispec" := uispec]> (tile_options tpcreated))).
  assert (∀ k, promoted_options old_master tpcreated uispec !! k =
               if decide (k = "tile_title") then promoted_title old_master tpcreated
               else to !! k) as Hlk.
  { intros k. unfold promoted_options. fold to.
    destruct (promoted_title old_master tpcreated) as [t|] eqn:Hpt.
    - rewrite lookup_insert. by destruct (decide ("tile_title" = k)) as [<-|?];
        [rewrite decide_True|rewrite decide_False by done].
    - case_decide as Hk; [|done]. subst k.
      unfold promoted_title in Hpt. unfold to.
      rewrite lookup_delete_ne, lookup_insert_ne by done.
      destruct (get_truthy _ _); [done|].
      destruct (tile_options old_master !! "tile_title") as [[]|]; try done.
      case_decide; [done|]. by destruct (PyStr.contains _ _). }
  assert (promoted_options old_master tpcreated uispec !! "tpcreator_uispec"
          = Some uispec) as Hpu.
  { rewrite Hlk, decide_False by done. unfold to.
    by rewrite lookup_delete_ne, lookup_insert_eq by done. }
  assert (promoted_options old_master tpcreated uispec !! "tpcreator_data" = None)
    as Hpd.
  { rewrite Hlk, decide_False by done. apply lookup_delete_eq. }
  repeat (split; [done|]).
  split.
  { unfold is_master_tile. cbn [tile_options]. rewrite Hpu, Hpd.
    rewrite bool_decide_eq_true_2 by done. by rewrite bool_decide_eq_true_2 by eauto. }
  repeat (split; [done|]).
  split.
  { intros k Hk. rewrite Hlk.
    rewrite decide_False by (intros ->; apply Hk; do 2 right; by left).
    unfold to. rewrite lookup_delete_ne by (intros <-; apply Hk; right; by left).
    by rewrite lookup_insert_ne by (intros <-; apply Hk; by left). }
  split; [by rewrite Hlk, decide_True|].
  intros Hnone title Ht Hne. rewrite Hlk, decide_True by done.
  unfold promoted_title, get_truthy. rewrite Hnone, Ht.
  rewrite decide_False by done. by destruct (PyStr.contains _ _).
Qed.

Lemma make_tpcreated_from_master_run
    (old_master new_master : Tile) (w : World) (u : list UispecEntry) (tw : value) :
  is_master_tile old_master = true →
  is_master_tile new_master = true →
  tile_options new_master !! "tpcreator_uispec" = Some (VUispec u) →
  tile_options new_master !! "tw_type" = Some tw →
  title_is_str new_master →
  make_tpcreated_from_master old_master new_master w
  = insert_with_tile_options (dashboard_id old_master)
      (<["tpcreator_data" :=
           VDict (master_link new_master (VUispec u)
                    (Some (tpcreator_spec_from_tpcreator_uispec u))
                    (title_base_data new_master))]>
         (delete "tpcreator_uispec"
            (Tile_insert_tile_options
               (Tile_owner_id new_master) (Tile_report_id new_master)
               {| cfg_tw_type := tw; cfg_tags := Tile_tags old_master;
                  cfg_series_spec_list :=
                    series_specs_of_tpcreated new_master (Some old_master);
                  cfg_tile_options := inherited_options (tile_options new_master) |})))
      w.
Proof.
  intros Hold Hnew Hu Htw Htitle.
  destruct (is_master_tile_true _ Hnew) as (Hnd & _).
  unfold make_tpcreated_from_master. rewrite Hold, Hnew. cbn [negb].
  rewrite (getitem_Some _ "tpcreator_uispec" (VUispec u)) by done.
  rewrite result_bind_inr. cbn [as_uispec]. rewrite result_bind_inr. cbv zeta.
  rewrite (tile_options_of_tpcreated_eq _ _ _ _ tw (VUispec u)) by done.
  by rewrite M_bind_lift_inr.
Qed.

(** A master made a tile of another master keeps its tags and adds its
    series specs to those of the new master; everything else is taken
    from the new master, whose UISpec is compiled to the spec stored
    with the link. *)
Theorem make_tpcreated_from_master_spec
    (old_master new_master : Tile) (w : World) (u : list UispecEntry) (tw : value) :
  is_master_tile old_master = true →
  is_master_tile new_master = true →
  tile_options new_master !! "tpcreator_uispec" = Some (VUispec u) →
  tile_options new_master !! "tw_type" = Some tw →
  title_is_str new_master →
  ∃ t w' data,
    make_tpcreated_from_master old_master new_master w = (inr t, w') ∧
    tiles w' = tiles w ++ [t] ∧
    dashboard_id t = dashboard_id old_master ∧
    tile_id t = next_tile_id w ∧
    is_master_tile t = false ∧
    Tile_tags t = Tile_tags old_master ∧
    series_specs t
      = _unique_series_specs (series_specs new_master ++ series_specs old_master) ∧
    (∀ k, k ∉ ["series_configs"; "tags"; "tile_title";
               "tpcreator_uispec"; "tpcreator_data"] →
          tile_options t !! k = tile_options new_master !! k) ∧
    tile_options t !! "tpcreator_data" = Some (VDict data) ∧
    data !! "master_tile_id" = Some (VId (tile_id new_master)) ∧
    data !! "master_tpcreator_uispec" = Some (VUispec u) ∧
    data !! "master_tpcreator_spec"
      = Some (VSpec (tpcreator_spec_from_tpcreator_uispec u)).
Proof.
  intros Hold Hnew Hu Htw Htitle.
  rewrite (make_tpcreated_from_master_run _ _ _ u tw) by done.
  unfold insert_with_tile_options. eexists _, _, _. split; [done|].
  cbn [tiles dashboard_id tile_id tile_options].
  pose proof (λ k, derived_options_lookup new_master tw (Tile_tags old_master)
                     (series_specs_of_tpcreated new_master (Some old_master))
                     (master_link new_master (VUispec u)
                        (Some (tpcreator_spec_from_tpcreator_uispec u))
                        (title_base_data new_master)) k Htw) as Hlk.
  repeat (split; [done|]).
  split.
  { eapply is_master_tile_false. cbn [tile_options]. apply lookup_insert_eq. }
  split.
  { unfold Tile_tags at 1. cbn [tile_options]. by rewrite Hlk, !decide_False by done. }
  split.
  { unfold series_specs at 1. cbn [tile_options]. by rewrite Hlk, !decide_False by done. }
  split.
  { intros k Hk. rewrite Hlk.
    rewrite !decide_False; [done|intros ->; apply Hk..].
    - do 2 right. by left.
    - do 1 right. by left.
    - by left.
    - do 3 right. by left.
    - do 4 right. by left. }
  split; [apply lookup_insert_eq|].
  unfold master_link. split; [|split].
  - rewrite lookup_insert_ne, lookup_insert_ne by done. apply lookup_insert_eq.
  - rewrite lookup_insert_ne by done. apply lookup_insert_eq.
  - apply lookup_insert_eq.
Qed.

(** Swapping the roles: a derived tile is made the master and the old
    master is then made a tile of it.  Both steps succeed; the new
    master has the UISpec of the old one, and the demoted tile is linked
    to the new master with the old master's tags and the spec compiled
    from that UISpec. *)
Theorem promote_then_demote
    (old_master tpcreated : Tile) (w : World) (data tw : value) (u : list UispecEntry) :
  is_master_tile old_master = true →
  tile_options old_master !! "tpcreator_uispec" = Some (VUispec u) →
  tile_options tpcreated !! "tpcreator_data" = Some data →
  tile_options tpcreated !! "tw_type" = Some tw →
  title_is_str tpcreated →
  title_is_str old_master →
  ∃ new_master demoted w',
    (new_master ← make_master_from_tpcreated old_master tpcreated;
     demoted ← make_tpcreated_from_master old_master new_master;
     Py.ret (new_master, demoted)) w = (inr (new_master, demoted), w') ∧
    tiles w' = tiles w ++ [new_master; demoted] ∧
    tile_id new_master = next_tile_id w ∧
    tile_id demoted = Pos.succ (next_tile_id w) ∧
    is_master_tile new_master = true ∧
    is_master_tile demoted = false ∧
    tile_options new_master !! "tpcreator_uispec" = Some (VUispec u) ∧
    Tile_tags new_master = Tile_tags tpcreated ∧
    Tile_tags demoted = Tile_tags old_master ∧
    master_tile_id_of (tile_options demoted) = Some (VId (tile_id new_master)) ∧
    ∃ d, tile_options demoted !! "tpcreator_data" = Some (VDict d) ∧
         d !! "master_tpcreator_spec"
           = Some (VSpec (tpcreator_spec_from_tpcreator_uispec u)).
Proof.
  intros Hold Hu Hdata Htw Htp Htold.
  destruct (is_master_tile_true _ Hold) as (Hnd & _).
  rewrite M_bind_run.
  rewrite (make_master_from_tpcreated_run _ _ _ (VUispec u) data) by done.
  unfold insert_with_tile_options at 1.
  set (to := promoted_options old_master tpcreated (VUispec u)).
  set (new_master := mkTile (dashboard_id old_master) (next_tile_id w) to).
  assert (∀ k, k ≠ "tile_title" →
               to !! k = delete "tpcreator_data"
                           (<["tpcreator_uispec" := VUispec u]>
                              (tile_options tpcreated)) !! k) as Hto.
  { intros k Hk. unfold to, promoted_options. cbv zeta.
    destruct (promoted_title old_master tpcreated); [|done].
    by rewrite lookup_insert_ne. }
  assert (to !! "tpcreator_uispec" = Some (VUispec u)) as Hnu.
  { rewrite Hto by done. by rewrite lookup_delete_ne, lookup_insert_eq by done. }
  assert (to !! "tpcreator_data" = None) as Hnnd.
  { rewrite Hto by done. apply lookup_delete_eq. }
  assert (to !! "tw_type" = Some tw) as Hntw.
  { rewrite Hto by done. by rewrite lookup_delete_ne, lookup_insert_ne by done. }
  assert (to !! "tags" = tile_options tpcreated !! "tags") as Hntags.
  { rewrite Hto by done. by rewrite lookup_delete_ne, lookup_insert_ne by done. }
  assert (is_master_tile new_master = true) as Hnew.
  { unfold is_master_tile. cbn [new_master tile_options]. rewrite Hnu, Hnnd.
    rewrite bool_decide_eq_true_2 by done. by rewrite bool_decide_eq_true_2 by eauto. }
  assert (title_is_str new_master) as Hnt.
  { intros v. cbn [new_master tile_options]. unfold to, promoted_options. cbv zeta.
    unfold promoted_title.
    assert (delete "tpcreator_data"
              (<["tpcreator_uispec" := VUispec u]> (tile_options tpcreated))
              !! "tile_title" = Some v → ∃ s, v = VStr s) as Hown.
    { rewrite lookup_delete_ne, lookup_insert_ne by done. apply Htp. }
    destruct (get_truthy (tile_options tpcreated) "tile_title").
    { destruct (tile_options tpcreated !! "tile_title") as [t|] eqn:Et; [|done].
      rewrite lookup_insert_eq. intros [= <-]. by apply Htp. }
    destruct (tile_options old_master !! "tile_title") as [[]|] eqn:Eo;
      try (destruct (tile_options tpcreated !! "tile_title") as [t|] eqn:Et;
           [rewrite lookup_insert_eq; intros [= <-]; by apply Htp|done]).
    case_decide.
    { destruct (tile_options tpcreated !! "tile_title") as [t|] eqn:Et; [|done].
      rewrite lookup_insert_eq. intros [= <-]. by apply Htp. }
    destruct (PyStr.contains _ _); rewrite lookup_insert_eq; intros [= <-]; eauto. }
  rewrite M_bind_run.
  rewrite (make_tpcreated_from_master_run old_master new_master _ u tw) by done.
  unfold insert_with_tile_options. cbn [next_tile_id tiles].
  eexists _, _, _. split; [done|].
  cbn [dashboard_id tile_id tile_options].
  pose proof (λ k, derived_options_lookup new_master tw (Tile_tags old_master)
                     (series_specs_of_tpcreated new_master (Some old_master))
                     (master_link new_master (VUispec u)
                        (Some (tpcreator_spec_from_tpcreator_uispec u))
                        (title_base_data new_master)) k Hntw) as Hlk.
  split; [by rewrite <-app_assoc|].
  repeat (split; [done|]).
  split.
  { eapply is_master_tile_false. cbn [tile_options]. apply lookup_insert_eq. }
  split; [done|].
  split.
  { unfold Tile_tags. cbn [new_master tile_options]. by rewrite Hntags. }
  split.
  { unfold Tile_tags at 1. cbn [tile_options]. by rewrite Hlk, !decide_False by done. }
  split.
  { unfold master_tile_id_of. cbn [tile_options]. rewrite lookup_insert_eq.
    unfold master_link.
    rewrite lookup_insert_ne, lookup_insert_ne by done. apply lookup_insert_eq. }
  eexists. split; [apply lookup_insert_eq|]. apply lookup_insert_eq.
Qed.

End promotion_more.

(** ** More on replacing the tiles of a master *)

Section replace_more.
Context `{SS : SeriesSpecs} `{!Collaborators}.

Lemma map_result_inr_inv {A B : Type} (f : A → Py.result B) (xs : list A) (ys : list B) :
  Py.map_result f xs = inr ys → Forall2 (λ x y, f x = inr y) xs ys.
Proof.
  revert ys. induction xs as [|x xs IH]; intros ys; cbn [Py.map_result].
  - intros [= <-]. constructor.
  - destruct (f x) as [e|y] eqn:Hx; [done|]. cbn [Py.rbind].
    destruct (Py.map_result f xs) as [e|ys']; [done|]. cbn [Py.rbind].
    intros [= <-]. constructor; [done|]. by apply IH.
Qed.

Lemma map_result_inl_inv {A B : Type} (f : A → Py.result B) (xs : list A) (e : Py.exn) :
  Py.map_result f xs = inl e → ∃ x, x ∈ xs ∧ f x = inl e.
Proof.
  induction xs as [|x xs IH]; cbn [Py.map_result]; [done|].
  destruct (f x) as [e'|y] eqn:Hx; cbn [Py.rbind].
  - intros [= ->]. exists x. split; [by left|done].
  - destruct (Py.map_result f xs) as [e'|ys']; [|done]. cbn [Py.rbind].
    intros [= ->]. destruct IH as (x' & ? & ?); [done|]. exists x'. split; [by right|done].
Qed.

Lemma insert_with_tile_options_multi_dashboard (dashboard : positive)
    (tos : list (gmap string value)) (w : World) :
  ∃ ts w', insert_with_tile_options_multi dashboard tos w = (inr ts, w') ∧
           tile_options <$> ts = tos ∧
           Forall (λ t, dashboard_id t = dashboard) ts ∧
           tiles w' = tiles w ++ ts ∧
           layout_by_report w' = layout_by_report w.
Proof.
  revert w. induction tos as [|to tos IH]; intros w; cbn [insert_with_tile_options_multi].
  - exists [], w. repeat (split; [done|]). split; [by rewrite app_nil_r|done].
  - rewrite M_bind_run. cbn [insert_with_tile_options].
    set (w1 := mkWorld _ _ _).
    destruct (IH w1) as (ts & w' & Hrun & Hto & Hd & Htiles & Hrows).
    rewrite M_bind_run, Hrun. eexists (_ :: ts), w'. split; [done|].
    split; [by rewrite fmap_cons, Hto|].
    split; [by constructor|].
    split; [|done].
    rewrite Htiles. unfold w1. cbn [tiles]. by rewrite <-app_assoc.
Qed.

(** The ids of the tiles to replace, after the skipped ones are left out. *)
Lemma replace_ids_spec (layout : Layout) (old_master : Tile)
    (skip_replacements : gset TileId) (tid : TileId) :
  tid ∈ (if decide (skip_replacements ≠ ∅)
         then filter (λ tid, tid ∉ skip_replacements)
                     (get_tpcreated_tile_ids layout (tile_id old_master))
         else get_tpcreated_tile_ids layout (tile_id old_master)) ↔
  tid ∈ get_tpcreated_tile_ids layout (tile_id old_master) ∧ (tid ∉ skip_replacements).
Proof.
  case_decide as Hskip.
  - rewrite list_elem_of_filter. tauto.
  - assert (skip_replacements = ∅) as ->
      by (by destruct (decide (skip_replacements = ∅))).
    split; [intros ?; split; [done|apply not_elem_of_empty]|by intros [? _]].
Qed.

Lemma replace_values_spec (layout : Layout) (old_master : Tile)
    (skip_replacements : gset TileId) (w : World) (t : Tile) :
  t ∈ (map_to_list
         (Tile_select_multi w (dashboard_id old_master)
            (if decide (skip_replacements ≠ ∅)
             then filter (λ tid, tid ∉ skip_replacements)
                         (get_tpcreated_tile_ids layout (tile_id old_master))
             else get_tpcreated_tile_ids layout (tile_id old_master)))).*2 ↔
  replaced_tile layout old_master skip_replacements w t.
Proof.
  unfold replaced_tile. rewrite list_elem_of_fmap. split.
  - intros ([tid t'] & -> & Hin%elem_of_map_to_list). cbn [snd].
    rewrite Tile_select_multi_lookup in Hin. case_decide as Hi; [|done].
    apply replace_ids_spec in Hi as [? ?]. eauto.
  - intros (tid & ? & ? & Hsel). exists (tid, t). split; [done|].
    apply elem_of_map_to_list. rewrite Tile_select_multi_lookup.
    rewrite decide_True; [done|]. by apply replace_ids_spec.
Qed.

(** The options that [replace_tpcreated] derives for the replacement of
    [tile]. *)
Definition replacement_options (new_master : Tile) (tpcreator_spec : option TpcreatorSpec)
    (sync_tpcreated : bool) (tile : Tile) : Py.result (gmap string value) :=
  if sync_tpcreated
  then _tile_options_of_tpcreated new_master tpcreator_spec (Tile_tags tile) (Some tile)
  else _sync_tpcreator_data new_master tile tpcreator_spec.

Lemma replace_tpcreated_inv
    (layout : Layout) (old_master new_master : Tile) (sync_tpcreated : bool)
    (skip_replacements : gset TileId) (w w' : World)
    (r : Py.result (list (Tile * Tile))) :
  replace_tpcreated layout old_master new_master sync_tpcreated skip_replacements w
    = (r, w') →
  match r with
  | inl e =>
      w' = w ∧
      match get_tile_props layout (tile_id old_master) with
      | None => e = Py.TypeError
      | Some props =>
          ∃ t, replaced_tile layout old_master skip_replacements w t ∧
               replacement_options new_master (props_tpcreator_spec props)
                                   sync_tpcreated t = inl e
      end
  | inr tile_replacement =>
      ∃ props,
        get_tile_props layout (tile_id old_master) = Some props ∧
        tiles w' = tiles w ++ tile_replacement.*2 ∧
        layout_by_report w' = layout_by_report w ∧
        ∀ t repl, (t, repl) ∈ tile_replacement →
          replaced_tile layout old_master skip_replacements w t ∧
          dashboard_id repl = dashboard_id old_master ∧
          replacement_options new_master (props_tpcreator_spec props)
                              sync_tpcreated t = inr (tile_options repl)
  end.
Proof.
  unfold replace_tpcreated. rewrite M_bind_run. unfold Py.lift at 1.
  destruct (get_tile_props layout (tile_id old_master)) as [props|].
  2: { by intros [= <- <-]. }
  cbv zeta. rewrite M_bind_run. cbn [Py.gets].
  pose proof (replace_values_spec layout old_master skip_replacements w) as Hvalues.
  set (values := (map_to_list _).*2) in *.
  fold (replacement_options new_master (props_tpcreator_spec props) sync_tpcreated).
  rewrite M_bind_run. unfold Py.lift.
  destruct (Py.map_result _ values) as [e|tos] eqn:Htos.
  - intros [= <- <-]. split; [done|].
    apply map_result_inl_inv in Htos as (t & Ht & He). exists t. split; [|done].
    by apply Hvalues.
  - apply map_result_inr_inv in Htos.
    destruct (insert_with_tile_options_multi_dashboard (dashboard_id old_master) tos w)
      as (ts & w1 & Hrun & Hto & Hd & Htiles & Hrows).
    rewrite M_bind_run, Hrun. intros [= <- <-].
    exists props. split; [done|].
    assert (length values = length ts) as Hlen.
    { apply Forall2_length in Htos. by rewrite Htos, <-Hto, length_fmap. }
    split; [by rewrite snd_zip by lia|]. split; [done|].
    rewrite <-Hto in Htos. apply Forall2_fmap_r in Htos.
    apply Forall2_zip_elem_of in Htos as [Hz _].
    intros t repl Hin. destruct (Hz t repl Hin) as [Hopt Hr]. split.
    + apply Hvalues. eapply elem_of_zip_l. exact Hin.
    + split; [|done]. rewrite Forall_forall in Hd. by apply Hd.
Qed.

Lemma sync_tpcreator_data_inv
    (master_tile tpcreated : Tile) (tpcreator_spec : option TpcreatorSpec)
    (to : gmap string value) :
  _sync_tpcreator_data master_tile tpcreated tpcreator_spec = inr to →
  agree_off "tpcreator_data" to (tile_options tpcreated) ∧
  ∃ data, to !! "tpcreator_data" = Some (VDict data).
Proof.
  unfold _sync_tpcreator_data, deepcopy. cbv zeta.
  set (to0 := if decide (tile_options tpcreated !! "tpcreator_data" = None)
              then _ else _).
  assert (agree_off "tpcreator_data" to0 (tile_options tpcreated)) as H0.
  { intros k Hk. unfold to0. case_decide; [by rewrite lookup_insert_ne|done]. }
  intros Hto.
  apply bind_inr_inv in Hto as (to1 & (d1 & _ & ->)%setitem2_inv & Hto).
  apply bind_inr_inv in Hto as (uispec & _ & Hto).
  erewrite setitem2_Some in Hto by apply lookup_insert_eq.
  rewrite result_bind_inr in Hto.
  erewrite setitem2_Some in Hto by apply lookup_insert_eq.
  rewrite result_bind_inr in Hto. injection Hto as <-.
  rewrite !insert_insert_eq. split.
  - intros k Hk. rewrite lookup_insert_ne by done. by apply H0.
  - eexists. apply lookup_insert_eq.
Qed.

(** The replacement is all or nothing: every option dictionary is
    derived before the first tile is inserted, so a run that raises
    leaves the store as it was.  It raises [TypeError] for an old master
    without props in the layout, and else the exception of a tile whose
    options cannot be derived. *)
Theorem replace_tpcreated_raises_unchanged
    (layout : Layout) (old_master new_master : Tile) (sync_tpcreated : bool)
    (skip_replacements : gset TileId) (w w' : World) (e : Py.exn) :
  replace_tpcreated layout old_master new_master sync_tpcreated skip_replacements w
    = (inl e, w') →
  w' = w ∧
  match get_tile_props layout (tile_id old_master) with
  | None => e = Py.TypeError
  | Some props =>
      ∃ t, replaced_tile layout old_master skip_replacements w t ∧
           (if sync_tpcreated
            then _tile_options_of_tpcreated new_master (props_tpcreator_spec props)
                                            (Tile_tags t) (Some t)
            else _sync_tpcreator_data new_master t (props_tpcreator_spec props)) = inl e
  end.
Proof. intros Hrun. by apply replace_tpcreated_inv in Hrun. Qed.

(** What a replacement is made of.  With [sync_tpcreated] the tile is
    derived anew from the new master: it takes the options of the new
    master, has no title, and its series specs are those of the new
    master followed by its own.  Without, it keeps every option of the
    tile it replaces but [tpcreator_data].  Either way it is put on the
    dashboard of the old master. *)
Theorem replace_tpcreated_options
    (layout : Layout) (old_master new_master : Tile) (sync_tpcreated : bool)
    (skip_replacements : gset TileId) (w w' : World)
    (tile_replacement : list (Tile * Tile)) (t repl : Tile) :
  replace_tpcreated layout old_master new_master sync_tpcreated skip_replacements w
    = (inr tile_replacement, w') →
  (t, repl) ∈ tile_replacement →
  dashboard_id repl = dashboard_id old_master ∧
  is_master_tile repl = false ∧
  if sync_tpcreated
  then (∀ k, k ∉ ["series_configs"; "tags"; "tile_title";
                  "tpcreator_uispec"; "tpcreator_data"] →
             tile_options repl !! k = tile_options new_master !! k) ∧
       tile_options repl !! "tile_title" = None ∧
       series_specs repl
         = _unique_series_specs (series_specs new_master ++ series_specs t)
  else ∀ k, k ≠ "tpcreator_data" → tile_options repl !! k = tile_options t !! k.
Proof.
  intros Hrun Hin.
  apply replace_tpcreated_inv in Hrun as (props & _ & _ & _ & Hall).
  destruct (Hall t repl Hin) as (_ & Hd & Hopt). split; [done|].
  unfold replacement_options in Hopt. destruct sync_tpcreated.
  - apply tile_options_of_tpcreated_inv in Hopt as (tw & uispec & data & Htw & _ & Hto).
    pose proof (λ k, derived_options_lookup new_master tw (Tile_tags t)
                       (series_specs_of_tpcreated new_master (Some t))
                       (master_link new_master uispec (props_tpcreator_spec props) data)
                       k Htw) as Hlk.
    rewrite <-Hto in Hlk. split; [|split; [|split]].
    + eapply is_master_tile_false. by rewrite Hlk, decide_True.
    + intros k Hk. rewrite Hlk.
      rewrite !decide_False; [done|intros ->; apply Hk..].
      * do 2 right. by left.
      * do 1 right. by left.
      * by left.
      * do 3 right. by left.
      * do 4 right. by left.
    + by rewrite Hlk, !decide_False by done.
    + unfold series_specs at 1. by rewrite Hlk, !decide_False by done.
  - apply sync_tpcreator_data_inv in Hopt as (Hoff & data & Hdata). split.
    + by eapply is_master_tile_false.
    + done.
Qed.

End replace_more.

(** ** More on synchronizing the sizes *)

Section synchronize_more.
Context `{SS : SeriesSpecs} `{!Collaborators}.

(** The two assignments to [vo] touch the placements only, and no key. *)
Lemma synchronize_one_frame (tid : TileId) (master_vo vo : VO) (changed : bool)
    {A : Type} (k : bool → Py.M LayoutMod A) (lm : LayoutMod) :
  ∃ c d1,
    (changed ←
       (if decide (vo_width vo ≠ vo_width master_vo)
        then set_vo (with_width (vo_width master_vo)) tid ;; Py.ret true
        else Py.ret changed);
     changed ←
       (if decide (vo_height vo ≠ vo_height master_vo)
        then set_vo (with_height (vo_height master_vo)) tid ;; Py.ret true
        else Py.ret changed);
     k changed) lm
    = k c (set_layout_dict lm d1) ∧
    dom d1 = dom (layout_dict (lm_layout lm)).
Proof.
  destruct (decide (vo_width vo ≠ vo_width master_vo)) as [Hw|Hw];
    destruct (decide (vo_height vo ≠ vo_height master_vo)) as [Hh|Hh];
    rewrite !M_bind_run, ?set_vo_run; cbn [Py.ret].
  - rewrite !M_bind_run, ?set_vo_run. cbn [Py.ret].
    rewrite set_layout_dict_twice. eexists _, _. split; [done|].
    cbn [set_layout_dict lm_layout layout_dict]. by rewrite !dom_alter_L.
  - eexists _, _. split; [done|]. by rewrite dom_alter_L.
  - rewrite !M_bind_run, ?set_vo_run. cbn [Py.ret].
    eexists _, _. split; [done|]. by rewrite dom_alter_L.
  - exists changed, (layout_dict (lm_layout lm)). by rewrite set_layout_dict_id.
Qed.

Lemma synchronize_loop_raises (mid : TileId) (master_vo : VO)
    (items : list (TileId * VO)) (changed : bool) (lm : LayoutMod) :
  (∃ tid vo, (tid, vo) ∈ items ∧ tid ≠ mid ∧
             layout_props (lm_layout lm) !! tid = None) →
  ∃ d', synchronize_loop mid master_vo items changed lm
        = (inl Py.AttributeError, set_layout_dict lm d') ∧
        dom d' = dom (layout_dict (lm_layout lm)).
Proof.
  revert changed lm. induction items as [|[tid vo] items IH]; intros changed lm.
  { by intros (? & ? & ?%elem_of_nil & _). }
  intros (bad & bvo & Hin & Hne & Hbad).
  cbn [synchronize_loop]. rewrite M_bind_run. cbn [Py.gets]. unfold get_tile_props.
  destruct (decide (tid ≠ mid)) as [Htid|Htid].
  - destruct (layout_props (lm_layout lm) !! tid) as [props|] eqn:Hp.
    + cbn [props_get_master_id]. rewrite M_bind_run, M_bind_lift_inr. cbn [Py.ret].
      assert ((bad, bvo) ∈ items) as Hin'.
      { apply elem_of_cons in Hin as [[= -> ->]|?]; [congruence|done]. }
      destruct (bool_decide (props_master_id props = Some mid)).
      * destruct (synchronize_one_frame tid master_vo vo changed
                    (synchronize_loop mid master_vo items) lm) as (c & d1 & -> & Hd1).
        destruct (IH c (set_layout_dict lm d1)) as (d' & -> & Hd').
        { exists bad, bvo. by repeat split. }
        exists d'. split; [done|].
        cbn [set_layout_dict lm_layout layout_dict] in Hd'. by rewrite Hd'.
      * apply IH. exists bad, bvo. by repeat split.
    + cbn [props_get_master_id]. rewrite M_bind_run. cbn [Py.lift].
      exists (layout_dict (lm_layout lm)). by rewrite set_layout_dict_id.
  - cbn [Py.ret]. rewrite M_bind_run. cbn [Py.ret].
    assert ((bad, bvo) ∈ items) as Hin'.
    { apply elem_of_cons in Hin as [[= -> ->]|?]; [|done].
      destruct Htid. done. }
    apply IH. exists bad, bvo. by repeat split.
Qed.

(** A placed tile without props breaks the synchronization: with the
    master placed and another placed tile that the layout has no props
    for, the mod raises [AttributeError]; the packing mods are not run,
    and of the layout only sizes of placements may have changed by
    then. *)
Theorem synchronize_sizes_of_tpcreated_mod_AttributeError
    (master_tile : Tile) (layout_mod : LayoutMod) (tid : TileId) :
  let layout := lm_layout layout_mod in
  is_Some (layout_dict layout !! tile_id master_tile) →
  is_Some (layout_dict layout !! tid) →
  tid ≠ tile_id master_tile →
  layout_props layout !! tid = None →
  ∃ d', synchronize_sizes_of_tpcreated_mod master_tile layout_mod
        = (inl Py.AttributeError, set_layout_dict layout_mod d') ∧
        dom d' = dom (layout_dict layout).
Proof.
  intros layout [master_vo Hm] [vo Hvo] Hne Hbad.
  unfold synchronize_sizes_of_tpcreated_mod, do_synchronize.
  rewrite M_bind_run. cbn [Py.gets]. fold layout. rewrite Hm.
  rewrite M_bind_run. cbn [Py.gets]. fold layout. rewrite M_bind_run.
  destruct (synchronize_loop_raises (tile_id master_tile) master_vo
              (map_to_list (layout_dict layout)) false layout_mod)
    as (d' & -> & Hd').
  { exists tid, vo. split; [by apply elem_of_map_to_list|done]. }
  by exists d'.
Qed.


Lemma do_synchronize_nothing_to_do
    (master_tile : Tile) (layout_mod : LayoutMod) (master_vo : VO) :
  let layout := lm_layout layout_mod in
  dom (layout_dict layout) ∖ {[tile_id master_tile]} ⊆ dom (layout_props layout) →
  layout_dict layout !! tile_id master_tile = Some master_vo →
  map_Forall (λ tid vo, is_tpcreated_of (layout_props layout) (tile_id master_tile) tid →
                        same_size master_vo vo)
             (layout_dict layout) →
  do_synchronize master_tile layout_mod
  = (inl Py.LayoutModificationImpossible, layout_mod).
Proof.
  intros layout Hwf Hm Hall. unfold do_synchronize.
  rewrite M_bind_run. cbn [Py.gets]. fold layout. rewrite Hm.
  rewrite M_bind_run. cbn [Py.gets]. fold layout. rewrite M_bind_run.
  destruct (synchronize_loop_spec (tile_id master_tile) master_vo
              (map_to_list (layout_dict layout)) false layout_mod)
    as (d' & -> & Hd').
  { apply NoDup_fst_map_to_list. }
  { intros tid vo Hin%elem_of_map_to_list. split; [done|]. intros Hne.
    apply elem_of_dom, Hwf, elem_of_difference. split.
    - apply elem_of_dom. by eexists.
    - by intros ->%elem_of_singleton. }
  fold layout in Hd' |- *. cbn [orb].
  rewrite bool_decide_eq_false_2.
  - replace d' with (layout_dict layout);
      [unfold layout; by rewrite set_layout_dict_id|].
    apply map_eq. intros tid. rewrite Hd'. case_decide as Ht; [|done].
    destruct (layout_dict layout !! tid) as [vo|] eqn:Hvo; [|done]. cbn.
    destruct (Hall tid vo Hvo) as [? ?]; [tauto|]. by rewrite sized_as_same.
  - intros Hex. apply Exists_exists in Hex as ([tid vo] & Hin%elem_of_map_to_list & Hd & Hs).
    cbn [fst snd] in *. apply Hs. by eapply Hall.
Qed.

(** Synchronizing is idempotent: on the layout in which the tiles of
    the master have got its size, the mod finds nothing to change,
    raises [LayoutModificationImpossible] and leaves the layout. *)
Theorem synchronize_sizes_of_tpcreated_mod_idempotent
    (master_tile : Tile) (layout_mod : LayoutMod) (master_vo : VO) :
  let layout := lm_layout layout_mod in
  let synced :=
    set_layout_dict layout_mod
      (synced_layout_dict (layout_props layout) (tile_id master_tile)
                          master_vo (layout_dict layout)) in
  dom (layout_dict layout) ∖ {[tile_id master_tile]} ⊆ dom (layout_props layout) →
  layout_dict layout !! tile_id master_tile = Some master_vo →
  synchronize_sizes_of_tpcreated_mod master_tile synced
  = (inl Py.LayoutModificationImpossible, synced).
Proof.
  intros layout synced Hwf Hm.
  assert (∀ tid, layout_dict (lm_layout synced) !! tid =
                 (λ vo, if decide (is_tpcreated_of (layout_props layout)
                                                   (tile_id master_tile) tid)
                        then sized_as master_vo vo else vo)
                   <$> layout_dict layout !! tid) as Hlk.
  { intros tid. unfold synced. cbn [set_layout_dict lm_layout layout_dict].
    unfold synced_layout_dict. rewrite map_lookup_imap.
    by destruct (layout_dict layout !! tid). }
  apply (do_synchronize_nothing_to_do master_tile synced master_vo).
  - unfold synced at 2. cbn [set_layout_dict lm_layout layout_props]. fold layout.
    intros tid [Hin Hne]%elem_of_difference. apply Hwf, elem_of_difference.
    split; [|done]. apply elem_of_dom. apply elem_of_dom in Hin as [vo Hvo].
    rewrite Hlk in Hvo. by destruct (layout_dict layout !! tid).
  - rewrite Hlk, Hm. cbn. rewrite decide_False; [done|]. by intros [? _].
  - intros tid vo Hvo. unfold synced at 1.
    cbn [set_layout_dict lm_layout layout_props]. fold layout. intros Hd.
    rewrite Hlk in Hvo. destruct (layout_dict layout !! tid) as [vo0|]; [|done].
    cbn in Hvo. rewrite decide_True in Hvo by done. injection Hvo as <-.
    by split.
Qed.

End synchronize_more.

(** ** Selecting the tiles of a master *)

Section select_more.
Context `{LS : LayoutStore}.

Lemma get_tpcreated_tile_ids_props (layout : Layout) (master_id tid : TileId) :
  tid ∈ get_tpcreated_tile_ids layout master_id ↔
  ∃ props, layout_props layout !! tid = Some props ∧
           props_master_id props = Some master_id.
Proof.
  unfold get_tpcreated_tile_ids. rewrite list_elem_of_fmap. split.
  - intros ([tid' props] & -> & Hin%elem_of_map_to_list).
    apply map_lookup_filter_Some in Hin as [? ?]. by exists props.
  - intros (props & Hp & Hm). exists (tid, props). split; [done|].
    apply elem_of_map_to_list, map_lookup_filter_Some. by split.
Qed.

Lemma NoDup_get_tpcreated_tile_ids (layout : Layout) (master_id : TileId) :
  NoDup (get_tpcreated_tile_ids layout master_id).
Proof. apply NoDup_fst_map_to_list. Qed.

Global Instance ids_tags_le_total : Total ids_tags_le.
Proof. intros a b. apply (total TagsSortKey_le). Qed.

(** The ids of the tiles created from a master, as a caller gets them.
    For a layout other than the one asked for the answer is [None].
    Without sorting it is the list of the layout, be it empty; with
    sorting it is [None] for no tile, and else the same ids, each once,
    in the order of the sort keys of their tags. *)
Theorem select_tpcreated_tile_ids_spec (master_tile : Tile)
    (for_layout_id : option positive) (sort : bool) :
  let layout := Layout_select (Tile_owner_id master_tile) (dashboard_id master_tile) in
  let ids := get_tpcreated_tile_ids layout (tile_id master_tile) in
  match for_layout_id with
  | Some lid =>
      layout_id layout ≠ lid → select_tpcreated_tile_ids master_tile (Some lid) sort = None
  | None => True
  end ∧
  (for_layout_id = None ∨ for_layout_id = Some (layout_id layout) →
   select_tpcreated_tile_ids master_tile for_layout_id false = Some ids ∧
   match select_tpcreated_tile_ids master_tile for_layout_id true with
   | None => ids = []
   | Some sorted =>
       ids ≠ [] ∧ sorted ≡ₚ ids ∧ NoDup sorted ∧
       ∃ ids_tags,
         sorted = ids_tags.*1 ∧
         Sorted ids_tags_le ids_tags ∧
         ∀ tid tags, (tid, tags) ∈ ids_tags →
                     props_tags <$> layout_props layout !! tid = Some tags
   end).
Proof.
  intros layout ids. split.
  { destruct for_layout_id as [lid|]; [|done]. intros Hne.
    unfold select_tpcreated_tile_ids. fold layout.
    by rewrite bool_decide_eq_true_2. }
  intros Hfor. unfold select_tpcreated_tile_ids. fold layout. cbv zeta. fold ids.
  assert (match for_layout_id with
          | Some lid => bool_decide (layout_id layout ≠ lid)
          | None => false
          end = false) as ->.
  { destruct Hfor as [-> | ->]; [done|]. by rewrite bool_decide_eq_false_2 by tauto. }
  split; [done|]. cbn [negb].
  set (f := λ tile_id : TileId,
              match get_tile_props layout tile_id with
              | Some props => Some (tile_id, props_tags props)
              | None => None
              end).
  assert (∀ l, (∀ tid, tid ∈ l → tid ∈ ids) →
               (omap f l).*1 = l ∧
               ∀ tid tags, (tid, tags) ∈ omap f l →
                           props_tags <$> layout_props layout !! tid = Some tags)
    as Homap.
  { induction l as [|tid l IH]; intros Hl.
    - split; [done|]. by intros ? ? ?%elem_of_nil.
    - destruct IH as [IH1 IH2]; [intros ? ?; apply Hl; by right|].
      destruct (proj1 (get_tpcreated_tile_ids_props layout (tile_id master_tile) tid))
        as (props & Hp & _); [apply Hl; by left|].
      assert (f tid = Some (tid, props_tags props)) as Hf
        by (unfold f, get_tile_props; by rewrite Hp).
      change (omap f (tid :: l))
        with (match f tid with Some y => y :: omap f l | None => omap f l end).
      rewrite Hf. split; [by rewrite fmap_cons, IH1|].
      intros tid' tags [[= -> ->]|?]%elem_of_cons; [by rewrite Hp|by apply IH2]. }
  destruct (Homap ids) as [Hfst Htags]; [done|].
  case_decide as Hnil.
  - by rewrite <-Hfst, Hnil.
  - set (pairs := omap f ids) in *.
    assert (list_sort ids_tags_le pairs ≡ₚ pairs) as Hperm
      by apply list_sort_Permutation.
    split; [intros Hids; apply Hnil; by rewrite <-Hfst, Hids in *; destruct pairs|].
    split; [by rewrite Hperm, Hfst|].
    split; [rewrite Hperm, Hfst; apply NoDup_get_tpcreated_tile_ids|].
    eexists. split; [done|]. split; [apply Sorted_list_sort, _|].
    intros tid tags Hin. apply Htags. by rewrite <-Hperm.
Qed.

End select_more.

(** ** A concrete dashboard *)

(** Series specs given by a column name and a display option; the
    canonical form resets the option. *)
#[local] Instance demo_series : SeriesSpecs :=
  {| SeriesSpec := string * Z;
     series_spec_for_default_options := λ ss, (ss.1, 0) |}.

(** Collaborators: every widget generates the postfix "[x]", placing a
    tile records it as new, and the packing mods leave the layout. *)
#[local] Instance demo_collaborators : Collaborators :=
  {| generate_tile_title_postfix := λ _, "[x]";
     place_tile_mod := λ t _,
       Py.modify (λ lm, {| lm_layout := lm_layout lm;
                           lm_new_tiles := lm_new_tiles lm ++ [t];
                           lm_tile_replacement := lm_tile_replacement lm |});
     repack_mod := Py.ret ();
     pack_upwards_mod := Py.ret () |}.

Definition demo_uispec : list UispecEntry := [mkUispecEntry "env:prod" "env:"].

Definition demo_spec : TpcreatorSpec := tpcreator_spec_from_tpcreator_uispec demo_uispec.

Definition demo_master : Tile :=
  mkTile 1 10
    (list_to_map
       [("tw_type", VStr "Range"); ("owner_id", VId 3); ("report_id", VId 7);
        ("tags", VTags ["env:prod"; "region:us"]);
        ("tile_title", VStr "Load [x]");
        ("series_configs", VSeries [("cpu", 0); ("mem", 0)]);
        ("colors", VInt 3);
        ("tpcreator_uispec", VUispec demo_uispec)]).

Definition demo_tpcreated : Tile :=
  mkTile 1 11
    (list_to_map
       [("tw_type", VStr "Range"); ("owner_id", VId 3); ("report_id", VId 7);
        ("tags", VTags ["env:dev"]);
        ("tile_title", VStr "Dev load [x]");
        ("series_configs", VSeries [("mem", 1); ("disk", 0)]);
        ("tpcreator_data",
         VDict (list_to_map [("master_tile_id", VId 10);
                             ("master_tpcreator_uispec", VUispec demo_uispec);
                             ("master_tpcreator_spec", VSpec demo_spec)]))]).

Definition demo_new_master : Tile :=
  mkTile 1 12
    (list_to_map
       [("tw_type", VStr "Range"); ("owner_id", VId 3); ("report_id", VId 7);
        ("tags", VTags ["env:prod"; "region:eu"]);
        ("series_configs", VSeries [("cpu", 0)]);
        ("tpcreator_uispec", VUispec demo_uispec)]).

Definition demo_world : World := mkWorld [demo_master; demo_tpcreated; demo_new_master] 13 [].

Definition demo_layout : Layout :=
  mkLayout 1
    (list_to_map [(10%positive, mkVO 0 0 4 4); (11%positive, mkVO 4 0 2 3);
                  (12%positive, mkVO 0 4 4 4)])
    (list_to_map
       [(10%positive, mkProps 7 true None (Some demo_spec) ["env:prod"; "region:us"]);
        (11%positive, mkProps 7 false (Some 10%positive) None ["env:dev"]);
        (12%positive, mkProps 7 false None None ["env:prod"; "region:eu"])]).

Definition demo_layout_mod : LayoutMod := mkLayoutMod demo_layout [] [].

Definition demo_report_instance : ReportInstance :=
  mkReportInstance 7 1 ["env:prod"; "region:us"; "host:1"].

Definition demo_row : LayoutRow := mkLayoutRow 3 7 [] "" 1 1.

Lemma demo_master_title_is_str : title_is_str demo_master.
Proof. intros v Hv. vm_compute in Hv. injection Hv as <-. by eexists. Qed.

Lemma demo_new_master_title_is_str : title_is_str demo_new_master.
Proof. intros v Hv. vm_compute in Hv. discriminate Hv. Qed.

(** The example of 8: for the instance tags env:prod, region:us, host:1
    and the prefix rule "env:", one tile with the tags ["env:prod"] is
    created. *)
Example demo_tpcreator_mod_creates_one :
  (λ t, (tile_id t, Tile_tags t))
    <$> tiles (tpcreator_mod demo_report_instance demo_row 50
                 (demo_world, demo_layout_mod)).2.1
  = [(10%positive, ["env:prod"; "region:us"]); (11%positive, ["env:dev"]);
     (12%positive, ["env:prod"; "region:eu"]); (13%positive, ["env:prod"])].
Proof. vm_compute. reflexivity. Qed.

(** With the maximum reached (the master's own tuple and one more are
    recorded), nothing is created. *)
Example demo_tpcreator_mod_too_many :
  tiles (tpcreator_mod demo_report_instance demo_row 2
           (demo_world, demo_layout_mod)).2.1
  = tiles demo_world.
Proof. vm_compute. reflexivity. Qed.

Lemma tile_options_of_tpcreated_new_witness :
  is_master_tile demo_master = true ∧
  tile_options demo_master !! "tw_type" = Some (VStr "Range") ∧
  title_is_str demo_master ∧
  ∃ (to : gmap string value) (uispec : value) (data : gmap string value),
    _tile_options_of_tpcreated demo_master (Some demo_spec) ["env:prod"] None = inr to ∧
    tile_options demo_master !! "tpcreator_uispec" = Some uispec ∧
    to !! "tw_type" = Some (VStr "Range") ∧
    (∀ k, k ∉ ["series_configs"; "tags"; "tile_title";
               "tpcreator_uispec"; "tpcreator_data"] →
          to !! k = tile_options demo_master !! k) ∧
    to !! "tile_title" = None ∧
    to !! "series_configs" = Some (VSeries (series_specs demo_master)) ∧
    to !! "tags" = Some (VTags ["env:prod"]) ∧
    to !! "tpcreator_uispec" = None ∧
    to !! "tpcreator_data" = Some (VDict data) ∧
    data !! "master_tile_id" = Some (VId (tile_id demo_master)) ∧
    data !! "master_tpcreator_uispec" = Some (deepcopy uispec) ∧
    data !! "master_tpcreator_spec" = Some (spec_value (Some demo_spec)).
Proof.
  split; [vm_compute; reflexivity|]. split; [vm_compute; reflexivity|].
  split; [exact demo_master_title_is_str|].
  apply (tile_options_of_tpcreated_new demo_master (Some demo_spec) ["env:prod"]
           (VStr "Range")).
  - vm_compute; reflexivity.
  - vm_compute; reflexivity.
  - exact demo_master_title_is_str.
Defined.

Lemma series_specs_of_tpcreated_old_witness :
  ∃ to,
    _tile_options_of_tpcreated demo_master (Some demo_spec) ["env:dev"]
      (Some demo_tpcreated) = inr to ∧
    to !! "series_configs" = Some (VSeries [("cpu", 0); ("mem", 0); ("disk", 0)]).
Proof.
  destruct (_tile_options_of_tpcreated demo_master (Some demo_spec) ["env:dev"]
              (Some demo_tpcreated)) as [e|to] eqn:Hto.
  - exfalso. vm_compute in Hto. discriminate Hto.
  - exists to. split; [reflexivity|].
    destruct (series_specs_of_tpcreated_old demo_master demo_tpcreated (Some demo_spec)
                ["env:dev"] to Hto) as (r & Hr & -> & _).
    exact Hr.
Defined.

Lemma make_master_from_tpcreated_keeps_title_witness :
  PyStr.contains (generate_tile_title_postfix demo_tpcreated) "Dev load [x]" = true ∧
  ∃ new_master w',
    make_master_from_tpcreated demo_master demo_tpcreated demo_world
      = (inr new_master, w') ∧
    tile_options new_master !! "tile_title" = Some (VStr "Dev load [x]") ∧
    tiles w' = tiles demo_world ++ [new_master].
Proof.
  split; [vm_compute; reflexivity|].
  apply (make_master_from_tpcreated_keeps_title demo_master demo_tpcreated demo_world
           (VDict (list_to_map [("master_tile_id", VId 10);
                                ("master_tpcreator_uispec", VUispec demo_uispec);
                                ("master_tpcreator_spec", VSpec demo_spec)]))
           "Dev load [x]").
  - vm_compute; reflexivity.
  - vm_compute; reflexivity.
  - vm_compute; reflexivity.
  - discriminate.
Defined.

Lemma demo_world_wf : Forall tpcreator_data_wf (tiles demo_world).
Proof.
  repeat constructor; intros v Hv; vm_compute in Hv;
    [discriminate Hv|injection Hv as <-; by eexists|discriminate Hv].
Qed.

Lemma demo_layout_wf :
  dom (layout_dict demo_layout) ∖ {[tile_id demo_master]} ⊆ dom (layout_props demo_layout).
Proof. refine (bool_decide_unpack _ _). vm_compute. exact I. Qed.

(** The tile 11, created from the master 10, gets the master's size; the
    tile 12, which is not, keeps its own. *)
Example demo_synchronize_sizes :
  (λ tid, layout_dict
            (lm_layout (synchronize_sizes_of_tpcreated_mod demo_master
                          demo_layout_mod).2) !! tid)
    <$> [10%positive; 11%positive; 12%positive]
  = [Some (mkVO 0 0 4 4); Some (mkVO 4 0 4 4); Some (mkVO 0 4 4 4)].
Proof. vm_compute. reflexivity. Qed.

Lemma replace_tpcreated_mapping_witness :
  get_tile_props demo_layout (tile_id demo_master)
    = Some (mkProps 7 true None (Some demo_spec) ["env:prod"; "region:us"]) ∧
  is_master_tile demo_new_master = true ∧
  Forall tpcreator_data_wf (tiles demo_world) ∧
  ∃ tile_replacement w',
    replace_tpcreated demo_layout demo_master demo_new_master true ∅ demo_world
      = (inr tile_replacement, w') ∧
    tiles w' = tiles demo_world ++ tile_replacement.*2 ∧
    (∀ t, replaced_tile demo_layout demo_master ∅ demo_world t →
          ∃ r, (t, r) ∈ tile_replacement) ∧
    (∀ t r, (t, r) ∈ tile_replacement →
            replaced_tile demo_layout demo_master ∅ demo_world t ∧
            master_tile_id_of (tile_options r) = Some (VId (tile_id demo_new_master)) ∧
            Tile_tags r = Tile_tags t).
Proof.
  split; [vm_compute; reflexivity|]. split; [vm_compute; reflexivity|].
  split; [exact demo_world_wf|].
  apply (replace_tpcreated_mapping demo_layout demo_master demo_new_master true ∅
           demo_world (mkProps 7 true None (Some demo_spec) ["env:prod"; "region:us"])
           (VStr "Range")).
  - vm_compute; reflexivity.
  - vm_compute; reflexivity.
  - vm_compute; reflexivity.
  - exact demo_new_master_title_is_str.
  - exact demo_world_wf.
Defined.

(** The tile 11 is replaced by the new tile 13, and nothing else is. *)
Example demo_replace_tpcreated :
  (λ tr, (tile_id tr.1, tile_id tr.2, Tile_tags tr.2,
          master_tile_id_of (tile_options tr.2)))
    <$> match (replace_tpcreated demo_layout demo_master demo_new_master true ∅
                 demo_world).1 with
        | inr tile_replacement => tile_replacement
        | inl _ => []
        end
  = [(11%positive, 13%positive, ["env:dev"], Some (VId 12))].
Proof. vm_compute. reflexivity. Qed.

(** ** The further properties on the concrete dashboard *)

(** A derived tile without a title, a layout with a placed tile that has
    no props, and a tile that the layout does not know. *)
Definition demo_untitled : Tile :=
  mkTile 1 14
    (list_to_map
       [("tw_type", VStr "Range"); ("owner_id", VId 3); ("report_id", VId 7);
        ("tags", VTags ["env:test"]);
        ("series_configs", VSeries [("disk", 0)]);
        ("tpcreator_data",
         VDict (list_to_map [("master_tile_id", VId 10);
                             ("master_tpcreator_uispec", VUispec demo_uispec);
                             ("master_tpcreator_spec", VSpec demo_spec)]))]).

Definition demo_link : value :=
  VDict (list_to_map [("master_tile_id", VId 10);
                      ("master_tpcreator_uispec", VUispec demo_uispec);
                      ("master_tpcreator_spec", VSpec demo_spec)]).

Definition demo_broken_layout_mod : LayoutMod :=
  mkLayoutMod
    (mkLayout 1
       (list_to_map [(10%positive, mkVO 0 0 4 4); (11%positive, mkVO 4 0 2 3);
                     (15%positive, mkVO 0 4 1 1)])
       (layout_props demo_layout))
    [] [].

Definition demo_unknown : Tile := mkTile 1 99 ∅.

Lemma demo_tpcreated_title_is_str : title_is_str demo_tpcreated.
Proof. intros v Hv. vm_compute in Hv. injection Hv as <-. by eexists. Qed.

Lemma demo_untitled_title_is_str : title_is_str demo_untitled.
Proof. intros v Hv. vm_compute in Hv. discriminate Hv. Qed.

Lemma tpcreator_mod_complete_witness :
  let run := tpcreator_mod demo_report_instance demo_row 50 (demo_world, demo_layout_mod) in
  let data := _get_tpcreator_data demo_layout_mod (ri_report_id demo_report_instance) in
  run = (inr (), run.2) ∧
  data.1 !! 10%positive = Some (Some demo_spec) ∧
  guards_pass demo_report_instance 50 data.2 10 (Some demo_spec) ["env:prod"] ∧
  Tile_select demo_world (row_dashboard_id demo_row) 10 = Some demo_master ∧
  ∃ l1 t l2, tiles run.2.1 = tiles demo_world ++ l1 ++ t :: l2 ∧
             Tile_tags t = ["env:prod"] ∧
             master_tile_id_of (tile_options t) = Some (VId 10).
Proof.
  intros run data.
  assert (run = (inr (), run.2)) as Hrun by (vm_compute; reflexivity).
  assert (data.1 !! 10%positive = Some (Some demo_spec)) as Hm
    by (vm_compute; reflexivity).
  assert (guards_pass demo_report_instance 50 data.2 10 (Some demo_spec) ["env:prod"])
    as Hguard.
  { split; [vm_compute; reflexivity|]. split; [vm_compute; reflexivity|].
    split; [done|]. refine (bool_decide_unpack _ _). vm_compute. exact I. }
  assert (Tile_select demo_world (row_dashboard_id demo_row) 10 = Some demo_master)
    as Hsel by (vm_compute; reflexivity).
  repeat (split; [assumption|]).
  exact (tpcreator_mod_complete demo_report_instance demo_row 50 demo_world
           demo_layout_mod run.2 10 (Some demo_spec) ["env:prod"] demo_master
           Hrun Hm Hguard Hsel).
Defined.

Lemma tile_options_of_tpcreated_title_base_witness :
  let to := match _tile_options_of_tpcreated demo_master (Some demo_spec)
                    ["env:prod"] None with
            | inr to => to
            | inl _ => ∅
            end in
  tile_options demo_master !! "tpcreator_data" = None ∧
  title_is_str demo_master ∧
  _tile_options_of_tpcreated demo_master (Some demo_spec) ["env:prod"] None = inr to ∧
  to !! "tile_title" = None ∧
  ∃ data,
    to !! "tpcreator_data" = Some (VDict data) ∧
    (∀ k, is_Some (data !! k) →
          k ∈ ["tile_title_base"; "master_tile_id"; "master_tpcreator_uispec";
               "master_tpcreator_spec"]) ∧
    data !! "tile_title_base" = Some (VStr "Load").
Proof.
  intros to.
  assert (_tile_options_of_tpcreated demo_master (Some demo_spec) ["env:prod"] None
          = inr to) as Hto by (vm_compute; reflexivity).
  split; [vm_compute; reflexivity|]. split; [exact demo_master_title_is_str|].
  split; [exact Hto|].
  refine (tile_options_of_tpcreated_title_base demo_master (Some demo_spec)
            ["env:prod"] None to _ demo_master_title_is_str Hto).
  vm_compute; reflexivity.
Defined.

Lemma make_master_from_tpcreated_spec_witness :
  is_master_tile demo_master = true ∧
  tile_options demo_untitled !! "tpcreator_data" = Some demo_link ∧
  title_is_str demo_untitled ∧
  title_is_str demo_master ∧
  ∃ new_master w' uispec,
    make_master_from_tpcreated demo_master demo_untitled demo_world
      = (inr new_master, w') ∧
    tiles w' = tiles demo_world ++ [new_master] ∧
    dashboard_id new_master = dashboard_id demo_master ∧
    tile_id new_master = next_tile_id demo_world ∧
    is_master_tile new_master = true ∧
    tile_options demo_master !! "tpcreator_uispec" = Some uispec ∧
    tile_options new_master !! "tpcreator_uispec" = Some uispec ∧
    tile_options new_master !! "tpcreator_data" = None ∧
    (∀ k, k ∉ ["tpcreator_uispec"; "tpcreator_data"; "tile_title"] →
          tile_options new_master !! k = tile_options demo_untitled !! k) ∧
    tile_options new_master !! "tile_title" = promoted_title demo_master demo_untitled ∧
    (tile_options demo_untitled !! "tile_title" = None →
     ∀ title, tile_options demo_master !! "tile_title" = Some (VStr title) →
              title ≠ EmptyString →
              tile_options new_master !! "tile_title" =
                Some (VStr (if PyStr.contains (generate_tile_title_postfix demo_master)
                                              title
                            then PyStr.replace title
                                   (generate_tile_title_postfix demo_master)
                                   (generate_tile_title_postfix demo_untitled)
                            else title))).
Proof.
  split; [vm_compute; reflexivity|]. split; [vm_compute; reflexivity|].
  split; [exact demo_untitled_title_is_str|]. split; [exact demo_master_title_is_str|].
  apply (make_master_from_tpcreated_spec demo_master demo_untitled demo_world demo_link).
  - vm_compute; reflexivity.
  - vm_compute; reflexivity.
  - exact demo_untitled_title_is_str.
  - exact demo_master_title_is_str.
Defined.

(** The untitled tile 14, made the master, takes the title of the old
    master. *)
Example demo_make_master_inherits_title :
  match (make_master_from_tpcreated demo_master demo_untitled demo_world).1 with
  | inr new_master =>
      (tile_id new_master, tile_options new_master !! "tile_title",
       is_master_tile new_master)
  | inl _ => (1%positive, None, false)
  end
  = (13%positive, Some (VStr "Load [x]"), true).
Proof. vm_compute. reflexivity. Qed.

Lemma make_tpcreated_from_master_spec_witness :
  is_master_tile demo_master = true ∧
  is_master_tile demo_new_master = true ∧
  tile_options demo_new_master !! "tpcreator_uispec" = Some (VUispec demo_uispec) ∧
  tile_options demo_new_master !! "tw_type" = Some (VStr "Range") ∧
  title_is_str demo_new_master ∧
  ∃ t w' data,
    make_tpcreated_from_master demo_master demo_new_master demo_world = (inr t, w') ∧
    tiles w' = tiles demo_world ++ [t] ∧
    dashboard_id t = dashboard_id demo_master ∧
    tile_id t = next_tile_id demo_world ∧
    is_master_tile t = false ∧
    Tile_tags t = Tile_tags demo_master ∧
    series_specs t
      = _unique_series_specs (series_specs demo_new_master ++ series_specs demo_master) ∧
    (∀ k, k ∉ ["series_configs"; "tags"; "tile_title";
               "tpcreator_uispec"; "tpcreator_data"] →
          tile_options t !! k = tile_options demo_new_master !! k) ∧
    tile_options t !! "tpcreator_data" = Some (VDict data) ∧
    data !! "master_tile_id" = Some (VId (tile_id demo_new_master)) ∧
    data !! "master_tpcreator_uispec" = Some (VUispec demo_uispec) ∧
    data !! "master_tpcreator_spec"
      = Some (VSpec (tpcreator_spec_from_tpcreator_uispec demo_uispec)).
Proof.
  split; [vm_compute; reflexivity|]. split; [vm_compute; reflexivity|].
  split; [vm_compute; reflexivity|]. split; [vm_compute; reflexivity|].
  split; [exact demo_new_master_title_is_str|].
  apply (make_tpcreated_from_master_spec demo_master demo_new_master demo_world
           demo_uispec (VStr "Range")).
  - vm_compute; reflexivity.
  - vm_compute; reflexivity.
  - vm_compute; reflexivity.
  - vm_compute; reflexivity.
  - exact demo_new_master_title_is_str.
Defined.

Lemma promote_then_demote_witness :
  is_master_tile demo_master = true ∧
  tile_options demo_master !! "tpcreator_uispec" = Some (VUispec demo_uispec) ∧
  tile_options demo_tpcreated !! "tpcreator_data" = Some demo_link ∧
  tile_options demo_tpcreated !! "tw_type" = Some (VStr "Range") ∧
  title_is_str demo_tpcreated ∧
  title_is_str demo_master ∧
  ∃ new_master demoted w',
    (new_master ← make_master_from_tpcreated demo_master demo_tpcreated;
     demoted ← make_tpcreated_from_master demo_master new_master;
     Py.ret (new_master, demoted)) demo_world = (inr (new_master, demoted), w') ∧
    tiles w' = tiles demo_world ++ [new_master; demoted] ∧
    tile_id new_master = next_tile_id demo_world ∧
    tile_id demoted = Pos.succ (next_tile_id demo_world) ∧
    is_master_tile new_master = true ∧
    is_master_tile demoted = false ∧
    tile_options new_master !! "tpcreator_uispec" = Some (VUispec demo_uispec) ∧
    Tile_tags new_master = Tile_tags demo_tpcreated ∧
    Tile_tags demoted = Tile_tags demo_master ∧
    master_tile_id_of (tile_options demoted) = Some (VId (tile_id new_master)) ∧
    ∃ d, tile_options demoted !! "tpcreator_data" = Some (VDict d) ∧
         d !! "master_tpcreator_spec"
           = Some (VSpec (tpcreator_spec_from_tpcreator_uispec demo_uispec)).
Proof.
  split; [vm_compute; reflexivity|]. split; [vm_compute; reflexivity|].
  split; [vm_compute; reflexivity|]. split; [vm_compute; reflexivity|].
  split; [exact demo_tpcreated_title_is_str|]. split; [exact demo_master_title_is_str|].
  apply (promote_then_demote demo_master demo_tpcreated demo_world demo_link
           (VStr "Range") demo_uispec).
  - vm_compute; reflexivity.
  - vm_compute; reflexivity.
  - vm_compute; reflexivity.
  - vm_compute; reflexivity.
  - exact demo_tpcreated_title_is_str.
  - exact demo_master_title_is_str.
Defined.

(** The roles of the tiles 10 and 11 swapped: the new master 13 has the
    tags of 11, the tile 14 the tags of 10 and 13 as its master. *)
Example demo_promote_then_demote :
  (λ t, (tile_id t, Tile_tags t, is_master_tile t, master_tile_id_of (tile_options t)))
    <$> drop 3 (tiles
                  ((new_master ← make_master_from_tpcreated demo_master demo_tpcreated;
                    demoted ← make_tpcreated_from_master demo_master new_master;
                    Py.ret (new_master, demoted)) demo_world).2)
  = [(13%positive, ["env:dev"], true, None);
     (14%positive, ["env:prod"; "region:us"], false, Some (VId 13))].
Proof. vm_compute. reflexivity. Qed.

Lemma replace_tpcreated_raises_unchanged_witness :
  replace_tpcreated demo_layout demo_unknown demo_new_master true ∅ demo_world
    = (inl Py.TypeError, demo_world) ∧
  demo_world = demo_world ∧
  match get_tile_props demo_layout (tile_id demo_unknown) with
  | None => Py.TypeError = Py.TypeError
  | Some props =>
      ∃ t, replaced_tile demo_layout demo_unknown ∅ demo_world t ∧
           _tile_options_of_tpcreated demo_new_master (props_tpcreator_spec props)
                                      (Tile_tags t) (Some t) = inl Py.TypeError
  end.
Proof.
  assert (replace_tpcreated demo_layout demo_unknown demo_new_master true ∅ demo_world
          = (inl Py.TypeError, demo_world)) as Hrun by (vm_compute; reflexivity).
  split; [exact Hrun|].
  exact (replace_tpcreated_raises_unchanged demo_layout demo_unknown demo_new_master
           true ∅ demo_world demo_world Py.TypeError Hrun).
Defined.

Lemma replace_tpcreated_options_witness :
  let run := replace_tpcreated demo_layout demo_master demo_new_master false ∅
               demo_world in
  let tile_replacement := match run.1 with inr tr => tr | inl _ => [] end in
  let repl := match tile_replacement with (_, r) :: _ => r | [] => demo_unknown end in
  run = (inr tile_replacement, run.2) ∧
  (demo_tpcreated, repl) ∈ tile_replacement ∧
  dashboard_id repl = dashboard_id demo_master ∧
  is_master_tile repl = false ∧
  ∀ k, k ≠ "tpcreator_data" → tile_options repl !! k = tile_options demo_tpcreated !! k.
Proof.
  intros run tile_replacement repl.
  assert (run = (inr tile_replacement, run.2)) as Hrun by (vm_compute; reflexivity).
  assert ((demo_tpcreated, repl) ∈ tile_replacement) as Hin
    by (vm_compute; apply list_elem_of_here).
  split; [exact Hrun|]. split; [exact Hin|].
  exact (replace_tpcreated_options demo_layout demo_master demo_new_master false ∅
           demo_world run.2 tile_replacement demo_tpcreated repl Hrun Hin).
Defined.

(** Replacing with and without the derivation: the tile 11 keeps its
    title only without it. *)
Example demo_replace_tpcreated_titles :
  (λ sync, (λ tr : Tile * Tile, tile_options tr.2 !! "tile_title")
             <$> match (replace_tpcreated demo_layout demo_master demo_new_master
                          sync ∅ demo_world).1 with
                 | inr tile_replacement => tile_replacement
                 | inl _ => []
                 end)
    <$> [true; false]
  = [[None]; [Some (VStr "Dev load [x]")]].
Proof. vm_compute. reflexivity. Qed.

Lemma synchronize_sizes_of_tpcreated_mod_AttributeError_witness :
  let layout := lm_layout demo_broken_layout_mod in
  is_Some (layout_dict layout !! tile_id demo_master) ∧
  is_Some (layout_dict layout !! 15%positive) ∧
  15%positive ≠ tile_id demo_master ∧
  layout_props layout !! 15%positive = None ∧
  ∃ d', synchronize_sizes_of_tpcreated_mod demo_master demo_broken_layout_mod
        = (inl Py.AttributeError, set_layout_dict demo_broken_layout_mod d') ∧
        dom d' = dom (layout_dict layout).
Proof.
  intros layout.
  assert (is_Some (layout_dict layout !! tile_id demo_master)) as H1
    by (eexists; vm_compute; reflexivity).
  assert (is_Some (layout_dict layout !! 15%positive)) as H2
    by (eexists; vm_compute; reflexivity).
  assert (15%positive ≠ tile_id demo_master) as H3 by (vm_compute; discriminate).
  assert (layout_props layout !! 15%positive = None) as H4 by (vm_compute; reflexivity).
  repeat (split; [assumption|]).
  exact (synchronize_sizes_of_tpcreated_mod_AttributeError demo_master
           demo_broken_layout_mod 15 H1 H2 H3 H4).
Defined.

Lemma synchronize_sizes_of_tpcreated_mod_idempotent_witness :
  let synced :=
    set_layout_dict demo_layout_mod
      (synced_layout_dict (layout_props demo_layout) (tile_id demo_master)
                          (mkVO 0 0 4 4) (layout_dict demo_layout)) in
  dom (layout_dict demo_layout) ∖ {[tile_id demo_master]}
    ⊆ dom (layout_props demo_layout) ∧
  layout_dict demo_layout !! tile_id demo_master = Some (mkVO 0 0 4 4) ∧
  synchronize_sizes_of_tpcreated_mod demo_master synced
  = (inl Py.LayoutModificationImpossible, synced).
Proof.
  intros synced.
  assert (layout_dict demo_layout !! tile_id demo_master = Some (mkVO 0 0 4 4)) as Hm
    by (vm_compute; reflexivity).
  split; [exact demo_layout_wf|]. split; [exact Hm|].
  exact (synchronize_sizes_of_tpcreated_mod_idempotent demo_master demo_layout_mod
           (mkVO 0 0 4 4) demo_layout_wf Hm).
Defined.

(** The layout store of the examples: one layout, and tags compared by
    their number. *)
#[local] Instance demo_layout_store : LayoutStore :=
  {| Layout_select := λ _ _, demo_layout;
     TagsSortKey_le := λ a b, (length a ≤ length b)%nat;
     TagsSortKey_le_dec := λ a b, decide (length a ≤ length b)%nat;
     TagsSortKey_le_total := λ a b, Nat.le_ge_cases (length a) (length b) |}.

(** Asked for the tiles of a master without tiles, the function answers
    the empty list without sorting and [None] with it; for another
    layout it answers [None]. *)
Example demo_select_tpcreated_tile_ids :
  [select_tpcreated_tile_ids demo_master None false;
   select_tpcreated_tile_ids demo_master None true;
   select_tpcreated_tile_ids demo_master (Some 2%positive) false;
   select_tpcreated_tile_ids demo_new_master None false;
   select_tpcreated_tile_ids demo_new_master None true]
  = [Some [11%positive]; Some [11%positive]; None; Some []; None].
Proof. vm_compute. reflexivity. Qed.

(** ** Where the claims C1 and C7 fail as they are stated *)








